(** * khub: the code-submission grader and the contest leaderboard

    A shallow embedding of
      - [routes/submissions.js]: [executeCode], [processSubmission], the
        [POST /] handler that creates a submission, [POST /run] and the
        routes that read submissions back; the notifications router that the
        file carries, with [models/Notification.js];
      - [models/Submission.js]: the [pre('save')] hook;
      - [routes/contests.js]: the leaderboard of [GET /admin/:id/leaderboard],
        the participants and the routes of the participants;
      - [models/Contest.js]: the hook of the question schema;
      - [middleware/auth.js]: [authenticateToken] and [requireAdmin].

    Conventions.
      - A JavaScript string is the list of its UTF-16 code units.
      - Marks and times are integer-valued Numbers and are modelled by [Z]
        (sums, differences and comparisons of such values are exact).
      - The score percentage divides and multiplies Numbers.  There a Number
        is the rational it denotes, and each operation gives the exact
        result rounded to the nearest double, [to_double].
      - Identifiers (ObjectIds rendered by [toString()]) and language tags are
        [string]s.
      - What the outside world does (the compilex callback, the clock, a
        database call that rejects) is a parameter of the function that
        observes it. *)

From Stdlib Require Import ZArith QArith Qround Qabs Ascii String List.
From Stdlib Require Import Lia Lqa.
From Stdlib Require Import SpecFloat.
From stdpp Require Import base decidable option list strings gmap sorting.

Local Open Scope Z_scope.

(** ** JavaScript strings *)

Abbreviation jsstring := (list N).

(** An ASCII literal as a JavaScript string. *)
Definition lit (s : string) : jsstring :=
  map N_of_ascii (list_ascii_of_string s).

(** [WhiteSpace] and [LineTerminator] code points of ECMAScript, the ones
    [String.prototype.trim] strips; all of them are single code units. *)
Definition is_white_space (c : N) : bool :=
  ((c =? 9) || (c =? 10) || (c =? 11) || (c =? 12) || (c =? 13) || (c =? 32)
   || (c =? 160) || (c =? 5760) || ((8192 <=? c) && (c <=? 8202))
   || (c =? 8232) || (c =? 8233) || (c =? 8239) || (c =? 8287)
   || (c =? 12288) || (c =? 65279))%N.

Fixpoint trimStart (s : jsstring) : jsstring :=
  match s with
  | c :: s' => if is_white_space c then trimStart s' else s
  | [] => []
  end.

Definition trimEnd (s : jsstring) : jsstring := rev (trimStart (rev s)).

(** [s.trim()] *)
Definition trim (s : jsstring) : jsstring := trimEnd (trimStart s).

(** [s.split('\n')]: never empty, [''.split('\n')] is [['']]. *)
Fixpoint split_nl (s : jsstring) : list jsstring :=
  match s with
  | [] => [[]]
  | c :: s' =>
      if (c =? 10)%N then [] :: split_nl s'
      else match split_nl s' with
           | l :: ls => (c :: l) :: ls
           | [] => [[c]]
           end
  end.

(** [lines.join('\n')] *)
Fixpoint join_nl (ls : list jsstring) : jsstring :=
  match ls with
  | [] => []
  | [l] => l
  | l :: ls' => l ++ 10%N :: join_nl ls'
  end.

(** A value that is either a string or [undefined]. *)
Definition truthy (v : option jsstring) : bool :=
  match v with
  | Some (_ :: _) => true
  | _ => false
  end.

(** [v || ''] *)
Definition or_empty (v : option jsstring) : jsstring :=
  match v with
  | Some s => s
  | None => []
  end.

(** The result of a call that may throw (or of a promise that may reject). *)
Inductive Call (A : Type) : Type :=
| Returned (a : A)
| Thrown (message : jsstring).
Arguments Returned {A} a.
Arguments Thrown {A} message.

(** ** The execution dispatcher: [executeCode] *)

Inductive ExecStatus := success | error | timeout.

Global Instance ExecStatus_eq_dec : EqDecision ExecStatus.
Proof. solve_decision. Defined.

Module Outcome.
Record t := mk {
  status : ExecStatus;
  error : jsstring;
  executionTime : Z;
  memoryUsed : Z;
  output : jsstring
}.
End Outcome.

(** What compilex hands to the callback. *)
Module InvokerData.
Record t := mk {
  error : option jsstring;
  output : option jsstring
}.
End InvokerData.

(** One use of compilex as the dispatcher sees it: the call throws, or the
    callback runs, once, with [data] when [Date.now() - startTime] is
    [elapsed].  A compilex that never calls back leaves the promise pending
    for ever and is not a value of this type. *)
Inductive Exec :=
| Threw (message : jsstring)
| Replied (data : InvokerData.t) (elapsed : Z).

(** The two ways [executeCode] enters compilex.  The Python program carries
    the preamble, which is determined by [input_lines]. *)
Inductive InvokerCall :=
| compilePython (input_lines : list jsstring) (code : jsstring)
| compileMethod (method : string) (code input : jsstring).

Definition Invoker := InvokerCall -> Exec.

(** The lookup [{ 'c': 'C', 'cpp': 'Cpp', 'java': 'Java',
    'javascript': 'node' }[language]]: an own key, a key inherited from
    [Object.prototype] (truthy, but not a name), or [undefined]. *)
Inductive Lookup := OwnKey (name : string) | InheritedKey | NoKey.

Definition object_prototype_keys : list string :=
  ["constructor"; "__proto__"; "hasOwnProperty"; "isPrototypeOf";
   "propertyIsEnumerable"; "toLocaleString"; "toString"; "valueOf";
   "__defineGetter__"; "__defineSetter__"; "__lookupGetter__";
   "__lookupSetter__"]%string.

Definition compilexLang (language : string) : Lookup :=
  if String.eqb language "c" then OwnKey "C"
  else if String.eqb language "cpp" then OwnKey "Cpp"
  else if String.eqb language "java" then OwnKey "Java"
  else if String.eqb language "javascript" then OwnKey "node"
  else if bool_decide (language ∈ object_prototype_keys) then InheritedKey
  else NoKey.

Definition time_limit_message : jsstring := lit "Time limit exceeded".
Definition unsupported_message : jsstring := lit "Unsupported language".

(** The callback given to compilex, the same in both branches. *)
Definition resolveWith (data : InvokerData.t) (executionTime timeLimit : Z)
  : Outcome.t :=
  if truthy (InvokerData.error data) then
    Outcome.mk error (or_empty (InvokerData.error data)) executionTime 0
               (or_empty (InvokerData.output data))
  else if executionTime >? timeLimit then
    Outcome.mk timeout time_limit_message executionTime 0
               (or_empty (InvokerData.output data))
  else
    Outcome.mk success [] executionTime 0
               (or_empty (InvokerData.output data)).

(** [inputStr.split('\n')] for [inputStr = String(input || '').trim()]; for a
    string [input], [String(input || '')] is [input]. *)
Definition input_lines (input : jsstring) : list jsstring :=
  split_nl (trim input).

Definition settle (e : Exec) (timeLimit : Z) : Call Outcome.t :=
  match e with
  | Threw m => Thrown m
  | Replied data elapsed => Returned (resolveWith data elapsed timeLimit)
  end.

Definition executeCode (compilex : Invoker)
    (code : jsstring) (language : string) (input : jsstring) (timeLimit : Z)
  : Call Outcome.t :=
  if String.eqb language "python" then
    settle (compilex (compilePython (input_lines input) code)) timeLimit
  else
    match compilexLang language with
    | NoKey => Returned (Outcome.mk error unsupported_message 0 0 [])
    | InheritedKey => Thrown (lit "compilex[compileMethod] is not a function")
    | OwnKey name =>
        settle (compilex (compileMethod ("compile" ++ name) code input))
               timeLimit
    end.

(** ** The preamble spliced in front of a Python submission

    [input_lines] is the list above and [input_index] starts at 0. *)
Module Preamble.
Record state := mk { lines : list jsstring; input_index : nat }.

Definition start (input : jsstring) : state := mk (input_lines input) 0.

(** [def input()] *)
Definition input (st : state) : jsstring * state :=
  match lines st !! input_index st with
  | Some line => (line, mk (lines st) (S (input_index st)))
  | None => ([], st)
  end.

(** What [n] successive calls of [input()] return. *)
Fixpoint reads (n : nat) (st : state) : list jsstring :=
  match n with
  | O => []
  | S n' => let '(line, st') := input st in line :: reads n' st'
  end.
End Preamble.

(** ** Data model ([models/Contest.js], [models/Submission.js]) *)

Module TestCase.
Record t := mk {
  _id : string;
  input : jsstring;
  expectedOutput : jsstring;
  marks : Z;
  isHidden : bool
}.
End TestCase.

Module Question.
Record t := mk {
  _id : string;
  testCases : list TestCase.t;
  timeLimit : Z;
  totalMarks : Z
}.
End Question.

Module Contest.
Record t := mk {
  _id : string;
  startTime : Z;
  endTime : Z;
  questions : list Question.t;
  isActive : bool;
  allowedLanguages : list string;
  maxAttempts : Z
}.
End Contest.

Inductive Verdict :=
| passed | failed | runtime_error | time_limit_exceeded | memory_limit_exceeded.

Global Instance Verdict_eq_dec : EqDecision Verdict.
Proof. solve_decision. Defined.

Module TestCaseResult.
Record t := mk {
  testCaseId : string;
  status : Verdict;
  executionTime : Z;
  memoryUsed : Z;
  output : jsstring;
  error : jsstring;
  marksAwarded : Z;
  maxMarks : Z;
  isHidden : bool
}.
End TestCaseResult.

Module Submission.
Inductive Status := pending | running | completed | error.

Record t := mk {
  _id : string;
  contestId : string;
  questionId : string;
  userId : string;
  code : jsstring;
  language : string;
  status : Status;
  testCaseResults : list TestCaseResult.t;
  totalMarks : Z;
  marksAwarded : Z;
  scorePercentage : Z;
  maxMarks : Z;
  passedTestCases : Z;
  totalTestCases : Z;
  executionTime : Z;
  memoryUsed : Z;
  submittedAt : Z;
  compilationError : jsstring
}.

(** [testCaseResults.reduce((total, result) => total + result.f, 0)] *)
Definition reduce_sum (f : TestCaseResult.t -> Z)
    (results : list TestCaseResult.t) : Z :=
  fold_left (fun total result => total + f result) results 0.

(** [submissionSchema.pre('save', ...)] *)
Definition preSave (this : t) : t :=
  mk (_id this) (contestId this) (questionId this) (userId this)
     (code this) (language this) (status this) (testCaseResults this)
     (reduce_sum TestCaseResult.marksAwarded (testCaseResults this))
     (marksAwarded this) (scorePercentage this) (maxMarks this)
     (Z.of_nat (length (filter
        (fun result => TestCaseResult.status result = passed)
        (testCaseResults this))))
     (Z.of_nat (length (testCaseResults this)))
     (executionTime this) (memoryUsed this) (submittedAt this)
     (compilationError this).

(** The rule of the schema that a request can break: [language] has an
    [enum]. *)
Definition valid (s : t) : bool :=
  bool_decide
    (language s ∈ ["c"; "cpp"; "java"; "python"; "javascript"]%string).

(** [submission.status = v] *)
Definition set_status (v : Status) (s : t) : t :=
  mk (_id s) (contestId s) (questionId s) (userId s) (code s) (language s)
     v (testCaseResults s) (totalMarks s) (marksAwarded s)
     (scorePercentage s) (maxMarks s) (passedTestCases s)
     (totalTestCases s) (executionTime s) (memoryUsed s) (submittedAt s)
     (compilationError s).

(** [submission.compilationError = v] *)
Definition set_compilationError (v : jsstring) (s : t) : t :=
  mk (_id s) (contestId s) (questionId s) (userId s) (code s) (language s)
     (status s) (testCaseResults s) (totalMarks s) (marksAwarded s)
     (scorePercentage s) (maxMarks s) (passedTestCases s)
     (totalTestCases s) (executionTime s) (memoryUsed s) (submittedAt s)
     v.
End Submission.

(** ** The submissions collection

    A database call either rejects, when the world says so, or acts on the
    collection.  [save] runs the [pre('save')] hook and then writes. *)

Inductive DbOp :=
| FindContest | CountSubmissions | SaveNew | FindUpdated
| FindSubmission | SaveRunning | SaveCompleted | FindForError | SaveError.

Definition Faults := DbOp -> option jsstring.

Module Db.
Definition t := list Submission.t.

Definition has_id (id : string) (s : Submission.t) : bool :=
  String.eqb id (Submission._id s).

Definition findById (fault : option jsstring) (id : string) (db : t)
  : Call (option Submission.t) :=
  match fault with
  | Some m => Thrown m
  | None => Returned (find (has_id id) db)
  end.

Definition replace (doc : Submission.t) (db : t) : t :=
  map (fun s => if has_id (Submission._id doc) s then doc else s) db.

(** [doc.save()] for a document read from the collection. *)
Definition save (fault : option jsstring) (doc : Submission.t) (db : t)
  : Call t :=
  match fault with
  | Some m => Thrown m
  | None =>
      match find (has_id (Submission._id doc)) db with
      | Some _ => Returned (replace (Submission.preSave doc) db)
      | None => Thrown (lit "No document found for query")
      end
  end.

(** [doc.save()] for a document made by [new Submission(...)]: validation,
    the hook, and the insertion. *)
Definition insert (fault : option jsstring) (doc : Submission.t) (db : t)
  : Call t :=
  match fault with
  | Some m => Thrown m
  | None =>
      if negb (Submission.valid doc)
      then Thrown (lit "Submission validation failed")
      else
        match find (has_id (Submission._id doc)) db with
        | Some _ => Thrown (lit "E11000 duplicate key error")
        | None => Returned (db ++ [Submission.preSave doc])
        end
  end.

Definition matches (contestId questionId userId : string)
    (s : Submission.t) : bool :=
  String.eqb contestId (Submission.contestId s)
  && String.eqb questionId (Submission.questionId s)
  && String.eqb userId (Submission.userId s).

Definition count (contestId questionId userId : string) (db : t) : Z :=
  Z.of_nat (length (List.filter (matches contestId questionId userId) db)).

(** [Submission.countDocuments({ contestId, questionId, userId })] *)
Definition countDocuments (fault : option jsstring)
    (contestId questionId userId : string) (db : t) : Call Z :=
  match fault with
  | Some m => Thrown m
  | None => Returned (count contestId questionId userId db)
  end.
End Db.

(** ** Numbers: IEEE 754 binary64 on rationals *)

(** 2^k *)
Definition pow2 (k : Z) : Q :=
  if 0 <=? k then inject_Z (2 ^ k) else (/ inject_Z (2 ^ (- k)))%Q.

(** The binary exponent of a positive [x]: the [e] with
    [2^e <= x < 2^(e+1)].  With [a] and [b] the bit lengths less one of the
    numerator and of the denominator, it is [a - b] or [a - b - 1]. *)
Definition exponent (x : Q) : Z :=
  let e0 := Z.log2 (Qnum x) - Z.log2 (Zpos (Qden x)) in
  if Qle_bool (pow2 e0) x then e0 else e0 - 1.

(** The integer nearest to [q], a half going to the even neighbour. *)
Definition nearest_even (q : Q) : Z :=
  let f := Qfloor q in
  match (q - inject_Z f ?= 1 # 2)%Q with
  | Lt => f
  | Gt => f + 1
  | Eq => if Z.even f then f else f + 1
  end.

(** The double nearest to a positive [x] below 2^1024: a multiple of
    [2^(e-52)], where [e] is the exponent of [x] and at least -1022. *)
Definition positive_to_double (x : Q) : Q :=
  let k := 52 - Z.max (exponent x) (- 1022) in
  (inject_Z (nearest_even (x * pow2 k)) * pow2 (- k))%Q.

(** The double nearest to [x], for [x] of magnitude below 2^1024. *)
Definition to_double (x : Q) : Q :=
  match (x ?= 0)%Q with
  | Eq => 0%Q
  | Gt => positive_to_double x
  | Lt => (- positive_to_double (- x))%Q
  end.

(** The rational that a binary64 value of the Standard Library's
    [SpecFloat] denotes, if it is finite. *)
Definition double_value (f : spec_float) : option Q :=
  match f with
  | S754_zero _ => Some 0%Q
  | S754_finite negative m e =>
      Some ((if negative then - 1 else 1) * inject_Z (Zpos m) * pow2 e)%Q
  | _ => None
  end.

(** The binary64 value [f] is the rounding of the real [x]. *)
Definition is_to_double (x : Q) (f : spec_float) : bool :=
  match double_value f with
  | Some q => Qeq_bool q (to_double x)
  | None => false
  end.

(** The integer [z] as a binary64 value, and the operations of binary64. *)
Definition binary64 (z : Z) : spec_float := binary_normalize 53 1024 z 0 false.
Definition binary64_div : spec_float -> spec_float -> spec_float :=
  SFdiv 53 1024.
Definition binary64_mul : spec_float -> spec_float -> spec_float :=
  SFmul 53 1024.
Definition binary64_add : spec_float -> spec_float -> spec_float :=
  SFadd 53 1024.

(** [a / b] and [a * b] on Numbers. *)
Definition Number_div (a b : Q) : Q := to_double (a / b)%Q.
Definition Number_mul (a b : Q) : Q := to_double (a * b)%Q.

(** [Math.round]: the nearest integer, halves up. *)
Definition Math_round (x : Q) : Z := Qfloor (x + (1 # 2))%Q.

(** ** The grading engine: [processSubmission] *)

Module Grading.
(** The accumulators of the loop. *)
Record acc := mk {
  testCaseResults : list TestCaseResult.t;
  totalExecutionTime : Z;
  totalMemoryUsed : Z;
  totalMarks : Z;
  obtainedMarks : Z
}.

Definition init : acc := mk [] 0 0 0 0.

(** [result.status === 'success' &&
     result.output.trim() === testCase.expectedOutput.trim()] *)
Definition isCorrect (result : Outcome.t) (testCase : TestCase.t) : bool :=
  bool_decide (Outcome.status result = success)
  && bool_decide (trim (Outcome.output result)
                  = trim (TestCase.expectedOutput testCase)).

Definition verdict (result : Outcome.t) (testCase : TestCase.t) : Verdict :=
  if isCorrect result testCase then passed
  else if bool_decide (Outcome.status result = timeout)
       then time_limit_exceeded
  else if bool_decide (Outcome.status result = error) then runtime_error
  else failed.

(** The [testCaseResult] pushed by the [try] block. *)
Definition graded (result : Outcome.t) (testCase : TestCase.t)
  : TestCaseResult.t :=
  TestCaseResult.mk (TestCase._id testCase) (verdict result testCase)
    (Outcome.executionTime result) (Outcome.memoryUsed result)
    (Outcome.output result) (Outcome.error result)
    (if isCorrect result testCase then TestCase.marks testCase else 0)
    (TestCase.marks testCase) (TestCase.isHidden testCase).

(** The object pushed by the [catch] block. *)
Definition faulted (message : jsstring) (testCase : TestCase.t)
  : TestCaseResult.t :=
  TestCaseResult.mk (TestCase._id testCase) runtime_error 0 0 [] message
    0 (TestCase.marks testCase) (TestCase.isHidden testCase).

(** The result recorded for one test case. *)
Definition record (r : Call Outcome.t) (testCase : TestCase.t)
  : TestCaseResult.t :=
  match r with
  | Returned result => graded result testCase
  | Thrown message => faulted message testCase
  end.

(** One iteration of [for (const testCase of question.testCases)]. *)
Definition step (a : acc) (r : Call Outcome.t) (testCase : TestCase.t)
  : acc :=
  match r with
  | Returned result =>
      mk (testCaseResults a ++ [graded result testCase])
         (totalExecutionTime a + Outcome.executionTime result)
         (Z.max (totalMemoryUsed a) (Outcome.memoryUsed result))
         (totalMarks a + TestCase.marks testCase)
         (if isCorrect result testCase
          then obtainedMarks a + TestCase.marks testCase
          else obtainedMarks a)
  | Thrown message =>
      mk (testCaseResults a ++ [faulted message testCase])
         (totalExecutionTime a) (totalMemoryUsed a)
         (totalMarks a + TestCase.marks testCase)
         (obtainedMarks a)
  end.

(** The loop; [compilex i] is what compilex does at the [i]-th test case. *)
Fixpoint loop (compilex : nat -> Invoker) (code : jsstring)
    (language : string) (timeLimit : Z) (i : nat)
    (testCases : list TestCase.t) (a : acc) : acc :=
  match testCases with
  | [] => a
  | testCase :: rest =>
      let r := executeCode (compilex i) code language
                 (TestCase.input testCase) timeLimit in
      loop compilex code language timeLimit (S i) rest (step a r testCase)
  end.

(** [totalMarks > 0 ? Math.round((obtainedMarks / totalMarks) * 100) : 0] *)
Definition scorePercentage (obtainedMarks totalMarks : Z) : Z :=
  if totalMarks >? 0
  then Math_round
         (Number_mul
            (Number_div (inject_Z obtainedMarks) (inject_Z totalMarks))
            100)
  else 0.

(** The assignments before the final [submission.save()]. *)
Definition finish (a : acc) (s : Submission.t) : Submission.t :=
  Submission.mk (Submission._id s) (Submission.contestId s)
    (Submission.questionId s) (Submission.userId s) (Submission.code s)
    (Submission.language s) Submission.completed (testCaseResults a)
    (totalMarks a) (obtainedMarks a)
    (scorePercentage (obtainedMarks a) (totalMarks a))
    (Submission.maxMarks s) (Submission.passedTestCases s)
    (Submission.totalTestCases s) (totalExecutionTime a)
    (totalMemoryUsed a) (Submission.submittedAt s)
    (Submission.compilationError s).
End Grading.

(** The [catch] block of [processSubmission]. *)
Definition recover (faults : Faults) (submissionId : string)
    (message : jsstring) (db : Db.t) : Db.t * Call unit :=
  match Db.findById (faults FindForError) submissionId db with
  | Thrown m => (db, Thrown m)
  | Returned None => (db, Returned tt)
  | Returned (Some submission) =>
      let submission :=
        Submission.set_compilationError message
          (Submission.set_status Submission.error submission) in
      match Db.save (faults SaveError) submission db with
      | Thrown m => (db, Thrown m)
      | Returned db' => (db', Returned tt)
      end
  end.

(** [processSubmission(submissionId, question, code, language)]: the
    collection afterwards, and whether the promise resolved. *)
Definition processSubmission (faults : Faults) (compilex : nat -> Invoker)
    (submissionId : string) (question : Question.t) (code : jsstring)
    (language : string) (db : Db.t) : Db.t * Call unit :=
  match Db.findById (faults FindSubmission) submissionId db with
  | Thrown m => recover faults submissionId m db
  | Returned None => (db, Returned tt)
  | Returned (Some submission) =>
      let submission := Submission.set_status Submission.running submission in
      match Db.save (faults SaveRunning) submission db with
      | Thrown m => recover faults submissionId m db
      | Returned db1 =>
          (* the hook has run on the document in memory too *)
          let submission := Submission.preSave submission in
          let a := Grading.loop compilex code language
                     (Question.timeLimit question) 0
                     (Question.testCases question) Grading.init in
          match Db.save (faults SaveCompleted)
                        (Grading.finish a submission) db1 with
          | Thrown m => recover faults submissionId m db1
          | Returned db2 => (db2, Returned tt)
          end
      end
  end.

(** ** Creating a submission: [router.post('/')] *)

Module Request.
(** [req.body] and [req.user._id]; a missing field is the empty string. *)
Record t := mk {
  contestId : string;
  questionId : string;
  code : jsstring;
  language : string;
  user_id : string
}.
End Request.

Module World.
(** What one request meets: the clock, the database calls that reject,
    compilex, and the ObjectId given to the new document. *)
Record t := mk {
  now : Z;
  faults : Faults;
  compilex : nat -> Invoker;
  new_id : string
}.
End World.

Inductive Response :=
| Rejected (http : Z) (error : string)
| Created (submissionId : string) (submission : Submission.t)
| ProcessingFailed (submissionId : string) (message : jsstring).

Definition is_empty (s : string) : bool := String.eqb s "".

Definition findContest (contestId : string) (contests : list Contest.t)
  : option Contest.t :=
  find (fun c => String.eqb contestId (Contest._id c)) contests.

(** [contest.questions.id(questionId)] *)
Definition findQuestion (questionId : string) (contest : Contest.t)
  : option Question.t :=
  find (fun q => String.eqb questionId (Question._id q))
       (Contest.questions contest).

(** [new Submission({ contestId, questionId, userId, code, language,
    status: 'pending', maxMarks: question.totalMarks })] *)
Definition newSubmission (w : World.t) (req : Request.t)
    (question : Question.t) : Submission.t :=
  Submission.mk (World.new_id w) (Request.contestId req)
    (Request.questionId req) (Request.user_id req) (Request.code req)
    (Request.language req) Submission.pending [] 0 0 0
    (Question.totalMarks question) 0 0 0 0 (World.now w) [].

(** The checks of the handler, in the order of the code: the response that
    turns the request away, or the contest and the question. *)
Definition validate (contests : list Contest.t) (w : World.t)
    (req : Request.t) (db : Db.t) : Response + Contest.t * Question.t :=
  if is_empty (Request.contestId req) || is_empty (Request.questionId req)
     || negb (truthy (Some (Request.code req)))
     || is_empty (Request.language req)
  then inl (Rejected 400 "All fields are required")
  else
  match World.faults w FindContest with
  | Some _ => inl (Rejected 500 "Failed to submit code")
  | None =>
  match findContest (Request.contestId req) contests with
  | None => inl (Rejected 404 "Contest not found")
  | Some contest =>
  match findQuestion (Request.questionId req) contest with
  | None => inl (Rejected 404 "Question not found")
  | Some question =>
  if negb (Contest.isActive contest) || (Contest.endTime contest <? World.now w)
  then inl (Rejected 403 "Contest is not accessible")
  else if Contest.startTime contest >? World.now w
  then inl (Rejected 403 "Contest has not started yet")
  else if negb (bool_decide
                  (Request.language req ∈ Contest.allowedLanguages contest))
  then inl (Rejected 400 "Programming language not allowed for this contest")
  else
  match Db.countDocuments (World.faults w CountSubmissions)
          (Request.contestId req) (Request.questionId req)
          (Request.user_id req) db with
  | Thrown _ => inl (Rejected 500 "Failed to submit code")
  | Returned existingSubmissions =>
  if existingSubmissions >=? Contest.maxAttempts contest
  then inl (Rejected 403 "Maximum submission attempts reached")
  else inr (contest, question)
  end end end end.

(** The handler: the response and the collection afterwards. *)
Definition submit (contests : list Contest.t) (w : World.t)
    (req : Request.t) (db : Db.t) : Response * Db.t :=
  match validate contests w req db with
  | inl response => (response, db)
  | inr (contest, question) =>
      let submission := newSubmission w req question in
      match Db.insert (World.faults w SaveNew) submission db with
      | Thrown _ => (Rejected 500 "Failed to submit code", db)
      | Returned db1 =>
          let id := Submission._id submission in
          match processSubmission (World.faults w) (World.compilex w) id
                  question (Request.code req) (Request.language req) db1 with
          | (db2, Thrown m) => (ProcessingFailed id m, db2)
          | (db2, Returned _) =>
              match Db.findById (World.faults w FindUpdated) id db2 with
              | Thrown m => (ProcessingFailed id m, db2)
              | Returned None =>
                  (ProcessingFailed id
                     (lit "Cannot read properties of null"), db2)
              | Returned (Some updatedSubmission) =>
                  (Created id updatedSubmission, db2)
              end
          end
      end
  end.

(** A history of requests, served one after the other. *)
Fixpoint serve (contests : list Contest.t)
    (requests : list (World.t * Request.t)) (db : Db.t) : Db.t :=
  match requests with
  | [] => db
  | (w, req) :: rest =>
      serve contests rest (snd (submit contests w req db))
  end.

(** ** The leaderboard: [router.get('/admin/:id/leaderboard')] *)

(** A JavaScript [Map] with string keys: entries in insertion order, [set]
    on a present key keeps its place. *)
Module JSMap.
Section Ops.
Context {V : Type}.
Definition t := list (string * V).

Fixpoint get (k : string) (m : t) : option V :=
  match m with
  | [] => None
  | (k', v) :: m' => if String.eqb k k' then Some v else get k m'
  end.

Definition has (k : string) (m : t) : bool :=
  match get k m with Some _ => true | None => false end.

Fixpoint set (k : string) (v : V) (m : t) : t :=
  match m with
  | [] => [(k, v)]
  | (k', v') :: m' =>
      if String.eqb k k' then (k', v) :: m' else (k', v') :: set k v m'
  end.

Definition values (m : t) : list V := map snd m.
End Ops.
Arguments t V : clear implicits.
End JSMap.

Module UserScore.
(** The entry of one user; the populated [user] document is left out. *)
Record t := mk {
  userId : string;
  totalScore : Z;
  problemsSolved : Z;
  totalTime : Z;
  lastSubmission : Z;
  maxPossibleScore : Z;
  questionScores : gmap string Z
}.
End UserScore.

Module Leaderboard.
(** [userScore.questionScores.get(questionId) || 0] *)
Definition currentScore (questionId : string) (u : UserScore.t) : Z :=
  default 0 (UserScore.questionScores u !! questionId).

(** The body of [forEach] once [userScore] is at hand. *)
Definition update (submission : Submission.t) (userScore : UserScore.t)
  : UserScore.t :=
  let questionId := Submission.questionId submission in
  let currentQuestionScore := currentScore questionId userScore in
  let marksAwarded := Submission.marksAwarded submission in
  let better := marksAwarded >? currentQuestionScore in
  UserScore.mk (UserScore.userId userScore)
    (if better
     then UserScore.totalScore userScore
          + (marksAwarded - currentQuestionScore)
     else UserScore.totalScore userScore)
    (if better && (currentQuestionScore =? 0) && (marksAwarded >? 0)
     then UserScore.problemsSolved userScore + 1
     else UserScore.problemsSolved userScore)
    (UserScore.totalTime userScore + Submission.executionTime submission)
    (Submission.submittedAt submission)
    (UserScore.maxPossibleScore userScore)
    (if better
     then <[questionId := marksAwarded]> (UserScore.questionScores userScore)
     else UserScore.questionScores userScore).

Definition fresh (submission : Submission.t) : UserScore.t :=
  UserScore.mk (Submission.userId submission) 0 0 0
    (Submission.submittedAt submission) 0 ∅.

(** One call of the [forEach] callback.  [populated uid] tells whether
    [populate('userId', ...)] found the user; otherwise [submission.userId]
    is null and the submission is skipped. *)
Definition visit (populated : string -> bool)
    (userScores : JSMap.t UserScore.t) (submission : Submission.t)
  : JSMap.t UserScore.t :=
  if negb (populated (Submission.userId submission)) then userScores
  else
    let userId := Submission.userId submission in
    let userScore :=
      match JSMap.get userId userScores with
      | Some userScore => userScore
      | None => fresh submission
      end in
    JSMap.set userId (update submission userScore) userScores.

Definition scan (populated : string -> bool)
    (submissions : list Submission.t) : JSMap.t UserScore.t :=
  fold_left (visit populated) submissions [].

(** The comparator handed to [sort]. *)
Definition compare (a b : UserScore.t) : Z :=
  if negb (UserScore.totalScore b =? UserScore.totalScore a)
  then UserScore.totalScore b - UserScore.totalScore a
  else if negb (UserScore.problemsSolved b =? UserScore.problemsSolved a)
  then UserScore.problemsSolved b - UserScore.problemsSolved a
  else UserScore.totalTime a - UserScore.totalTime b.

(** [Array.prototype.sort] is stable, and with a consistent comparator its
    result is the stable sorted arrangement, here built by insertion. *)
Fixpoint insert (x : UserScore.t) (l : list UserScore.t)
  : list UserScore.t :=
  match l with
  | [] => [x]
  | y :: l' => if compare x y <=? 0 then x :: l else y :: insert x l'
  end.

Definition sort (l : list UserScore.t) : list UserScore.t :=
  foldr insert [] l.

Definition set_maxPossibleScore (v : Z) (u : UserScore.t) : UserScore.t :=
  UserScore.mk (UserScore.userId u) (UserScore.totalScore u)
    (UserScore.problemsSolved u) (UserScore.totalTime u)
    (UserScore.lastSubmission u) v (UserScore.questionScores u).

(** [contest.questions.reduce((total, question) =>
     total + question.totalMarks, 0)] *)
Definition maxPossibleScore (contest : Contest.t) : Z :=
  fold_left (fun total question => total + Question.totalMarks question)
            (Contest.questions contest) 0.

(** The leaderboard from the submissions the query returned, in the order
    it returned them. *)
Definition buildLeaderboard (populated : string -> bool)
    (contest : Contest.t) (submissions : list Submission.t)
  : list UserScore.t :=
  sort (map (set_maxPossibleScore (maxPossibleScore contest))
            (JSMap.values (scan populated submissions))).
End Leaderboard.

(** ** Predicates and sample data used in the statements below *)

(** A string that does not begin, or end, with white space. *)
Definition starts_clean (s : jsstring) : Prop :=
  forall c, head s = Some c -> is_white_space c = false.

Definition ends_clean (s : jsstring) : Prop :=
  forall c, last s = Some c -> is_white_space c = false.

(** An outcome of the dispatcher with the given status and output. *)
Definition outcome_of (st : ExecStatus) (out : jsstring) : Outcome.t :=
  Outcome.mk st [] 10 0 out.

(** A test case expecting [expected], worth 5 marks. *)
Definition expecting (expected : jsstring) : TestCase.t :=
  TestCase.mk "t1" (lit "1") expected 5 false.

(** The sum of a list of Numbers. *)
Definition Zsum (l : list Z) : Z := foldr Z.add 0 l.

(** What the loop records for the test cases [testCases], the first of which
    is the [i]-th of the run: each from its own call of the dispatcher. *)
Definition recorded (compilex : nat -> Invoker) (code : jsstring)
    (language : string) (timeLimit : Z) (i : nat)
    (testCases : list TestCase.t) : list TestCaseResult.t :=
  imap (fun j testCase =>
          Grading.record
            (executeCode (compilex (i + j)%nat) code language
                         (TestCase.input testCase) timeLimit)
            testCase)
       testCases.

(** The document stored under [id]. *)
Definition stored (id : string) (db : Db.t) : option Submission.t :=
  find (Db.has_id id) db.

(** The accumulators when the loop of [processSubmission] is over. *)
Definition tally (compilex : nat -> Invoker) (code : jsstring)
    (language : string) (question : Question.t) : Grading.acc :=
  Grading.loop compilex code language (Question.timeLimit question) 0
               (Question.testCases question) Grading.init.

(** No database call rejects. *)
Definition no_faults : Faults := fun _ => None.


(** compilex answers every call with [data] after [elapsed] ms. *)
Definition replies (data : InvokerData.t) (elapsed : Z) : Invoker :=
  fun _ => Replied data elapsed.

(** A program that prints [out]. *)
Definition prints (out : jsstring) : nat -> Invoker :=
  fun _ => replies (InvokerData.mk None (Some out)) 10.

Definition sample_question : Question.t :=
  Question.mk "q1"
    [TestCase.mk "t1" (lit "1") (lit "1") 5 false;
     TestCase.mk "t2" (lit "2") (lit "1") 5 true]
    2000 10.

(** One test case worth 5 marks that expects [1]. *)
Definition one_case_question : Question.t :=
  Question.mk "q1" [TestCase.mk "t1" (lit "1") (lit "1") 5 false] 2000 5.

Definition sample_contest : Contest.t :=
  Contest.mk "c1" 1000 2000 [sample_question] true ["python"; "c"]%string 2.

Definition sample_request : Request.t :=
  Request.mk "c1" "q1" (lit "print(1)") "python" "u1".

(** The world at time [now], without faults, running a program that prints
    [1]; the new document gets the id [id]. *)
Definition calm (now : Z) (id : string) : World.t :=
  World.mk now no_faults (prints (lit "1")) id.

(** The pending document the handler stores for [sample_request]. *)
Definition pending_submission : Submission.t :=
  newSubmission (calm 1500 "s1") sample_request sample_question.



(** What identifies a stored submission and what [countDocuments] looks at. *)
Definition keys (s : Submission.t) : string * (string * string * string) :=
  (Submission._id s,
   (Submission.contestId s, Submission.questionId s, Submission.userId s)).

(** [Db.matches] on the keys of a document. *)
Definition matches_keys (contestId questionId userId : string)
    (k : string * (string * string * string)) : bool :=
  String.eqb contestId k.2.1.1 && String.eqb questionId k.2.1.2
  && String.eqb userId k.2.2.


(** The submissions of [userId] among [submissions], and those for
    [questionId] among them. *)
Definition by_user (userId : string) (submissions : list Submission.t)
  : list Submission.t :=
  List.filter (fun s => String.eqb userId (Submission.userId s)) submissions.

Definition by_user_question (userId questionId : string)
    (submissions : list Submission.t) : list Submission.t :=
  List.filter (fun s => String.eqb questionId (Submission.questionId s))
              (by_user userId submissions).

(** The best marks of [userId] for [questionId]: the greatest
    [marksAwarded] among the submissions of the user for the question, and 0
    when there is none above 0. *)
Definition best (userId questionId : string)
    (submissions : list Submission.t) : Z :=
  foldr Z.max 0
        (map Submission.marksAwarded
             (by_user_question userId questionId submissions)).


(** 1 for a question with a best above 0. *)
Definition solved (userId : string) (submissions : list Submission.t)
    (questionId : string) : Z :=
  if 0 <? best userId questionId submissions then 1 else 0.

(** [a] may stand before [b] in the ranking. *)
Definition ranks_before (a b : UserScore.t) : Prop :=
  UserScore.totalScore a > UserScore.totalScore b
  \/ (UserScore.totalScore a = UserScore.totalScore b
      /\ (UserScore.problemsSolved a > UserScore.problemsSolved b
          \/ (UserScore.problemsSolved a = UserScore.problemsSolved b
              /\ UserScore.totalTime a <= UserScore.totalTime b))).

(** A graded submission of [userId] for [questionId] with [marks] marks,
    which ran for [time] ms and was submitted at [date]. *)
Definition scored (userId questionId : string) (marks time date : Z)
  : Submission.t :=
  Submission.mk "" "c1" questionId userId (lit "print(1)") "python"
    Submission.completed [] marks marks 100 marks 0 0 time 0 date [].

(** Each key of a map occurs once, as in a map built by [set]. *)
Definition keys_once {V : Type} (m : JSMap.t V) : Prop := NoDup (map fst m).

(** Every user is found by [populate]. *)
Definition everyone : string -> bool := fun _ => true.

(** The entry [e] accounts for the submissions of [userId] among
    [submissions]: its map holds the best marks of each question, and, over
    any list [qs] that names each of the user's questions once, its totals
    are the sum of the bests, the number of questions with a best above 0,
    and the sum of the execution times. *)
Definition tracks (userId : string) (submissions : list Submission.t)
    (e : UserScore.t) : Prop :=
  UserScore.userId e = userId
  /\ (forall q, Leaderboard.currentScore q e = best userId q submissions)
  /\ (forall qs : list string,
         NoDup qs ->
         (forall s, In s (by_user userId submissions) ->
                    In (Submission.questionId s) qs) ->
         UserScore.totalScore e
         = Zsum (map (fun q => best userId q submissions) qs)
         /\ UserScore.problemsSolved e
            = Zsum (map (solved userId submissions) qs))
  /\ UserScore.totalTime e
     = Zsum (map Submission.executionTime (by_user userId submissions)).

(** Two submissions of user1 for q1: 40 marks, and later 30 marks; the query
    returns the later one first. *)
Definition forty_then_thirty : list Submission.t :=
  [scored "user1" "q1" 30 80 2; scored "user1" "q1" 40 120 1].


(** Three users with 20 marks each: u1 over two questions, u2 and u3 over
    one, u3 in less time than u2. *)
Definition three_way_tie : list Submission.t :=
  [scored "u2" "q1" 20 300 5; scored "u3" "q1" 20 100 4;
   scored "u1" "q2" 10 200 3; scored "u1" "q1" 10 200 2].

(** ** Query results

    [Model.find(filter).sort({ field: 1 })] and [sort({ field: -1 })]: the
    documents that match, arranged by the field.  Documents equal in the
    field are left in the order of the collection; the statements below that
    depend on a query use the arrangement only through its being sorted and
    a rearrangement of the matches. *)
Section Arrange.
Context {A : Type} (before : A -> A -> bool).

Fixpoint place (x : A) (l : list A) : list A :=
  match l with
  | [] => [x]
  | y :: l' => if before x y then x :: l else y :: place x l'
  end.

Definition arrange (l : list A) : list A := foldr place [] l.
End Arrange.

Module Query.
(** [{ submittedAt: -1 }] *)
Definition newest_first (a b : Submission.t) : bool :=
  Submission.submittedAt b <=? Submission.submittedAt a.

(** [{ submittedAt: 1 }] *)
Definition oldest_first (a b : Submission.t) : bool :=
  Submission.submittedAt a <=? Submission.submittedAt b.

Definition ofContest (contestId : string) (s : Submission.t) : bool :=
  String.eqb contestId (Submission.contestId s).

Definition ofContestUser (contestId userId : string) (s : Submission.t)
  : bool :=
  String.eqb contestId (Submission.contestId s)
  && String.eqb userId (Submission.userId s).

(** [Submission.find(filter).sort(order)] *)
Definition find (fault : option jsstring) (filter : Submission.t -> bool)
    (order : Submission.t -> Submission.t -> bool) (db : Db.t)
  : Call (list Submission.t) :=
  match fault with
  | Some m => Thrown m
  | None => Returned (arrange order (List.filter filter db))
  end.
End Query.

(** ** Running code without submitting: [router.post('/run')] *)

Module RunRequest.
(** [req.body]; a missing [contestId], [questionId], [code] or [language]
    is the empty string, a missing [input] is [undefined]. *)
Record t := mk {
  contestId : string;
  questionId : string;
  code : jsstring;
  language : string;
  input : option jsstring
}.
End RunRequest.

Module TestResult.
Record t := mk {
  input : jsstring;
  expectedOutput : jsstring;
  actualOutput : jsstring;
  status : ExecStatus;
  error : jsstring;
  executionTime : Z;
  isCorrect : bool;
  marks : Z
}.
End TestResult.

Inductive RunResponse :=
| RunRejected (http : Z) (error : string)
| RunTests (testResults : list TestResult.t) (totalVisible passedVisible : Z)
| RunResult (status : ExecStatus) (output error : jsstring)
            (executionTime : Z).

Module Run.
(** [question.testCases.filter(tc => !tc.isHidden)] *)
Definition visibleTestCases (question : Question.t) : list TestCase.t :=
  List.filter (fun tc => negb (TestCase.isHidden tc))
              (Question.testCases question).

(** The object pushed for one visible test case: by the [try] block when
    the dispatcher returned, by the [catch] block when it threw.  The test
    for [isCorrect] is the one of [processSubmission]. *)
Definition testResult (r : Call Outcome.t) (testCase : TestCase.t)
  : TestResult.t :=
  match r with
  | Returned result =>
      let isCorrect := Grading.isCorrect result testCase in
      TestResult.mk (TestCase.input testCase)
        (TestCase.expectedOutput testCase) (Outcome.output result)
        (Outcome.status result) (Outcome.error result)
        (Outcome.executionTime result) isCorrect
        (if isCorrect then TestCase.marks testCase else 0)
  | Thrown message =>
      TestResult.mk (TestCase.input testCase)
        (TestCase.expectedOutput testCase) [] error message 0 false 0
  end.

(** [for (const testCase of visibleTestCases)]; [compilex i] is what
    compilex does at the [i]-th of them. *)
Fixpoint loop (compilex : nat -> Invoker) (code : jsstring)
    (language : string) (timeLimit : Z) (i : nat)
    (testCases : list TestCase.t) (testResults : list TestResult.t)
  : list TestResult.t :=
  match testCases with
  | [] => testResults
  | testCase :: rest =>
      let r := executeCode (compilex i) code language
                 (TestCase.input testCase) timeLimit in
      loop compilex code language timeLimit (S i) rest
           (testResults ++ [testResult r testCase])
  end.

(** The handler.  [fault] is what [Contest.findById] rejects with, if it
    does. *)
Definition run (contests : list Contest.t) (fault : option jsstring)
    (compilex : nat -> Invoker) (req : RunRequest.t) : RunResponse :=
  if negb (truthy (Some (RunRequest.code req)))
     || is_empty (RunRequest.language req)
  then RunRejected 400 "Code and language are required"
  else if negb (is_empty (RunRequest.contestId req))
          && negb (is_empty (RunRequest.questionId req))
  then
    match fault with
    | Some _ => RunRejected 500 "Failed to run code"
    | None =>
    match findContest (RunRequest.contestId req) contests with
    | None => RunRejected 404 "Contest not found"
    | Some contest =>
    match findQuestion (RunRequest.questionId req) contest with
    | None => RunRejected 404 "Question not found"
    | Some question =>
        let testResults :=
          loop compilex (RunRequest.code req) (RunRequest.language req)
               (Question.timeLimit question) 0 (visibleTestCases question)
               [] in
        RunTests testResults
          (Z.of_nat (length (visibleTestCases question)))
          (Z.of_nat (length (List.filter TestResult.isCorrect testResults)))
    end end end
  else
    match executeCode (compilex 0%nat) (RunRequest.code req)
            (RunRequest.language req) (or_empty (RunRequest.input req))
            10000 with
    | Thrown _ => RunRejected 500 "Failed to run code"
    | Returned result =>
        RunResult (Outcome.status result) (Outcome.output result)
                  (Outcome.error result) (Outcome.executionTime result)
    end.
End Run.

(** ** Reading submissions back: [router.get('/:id')] and the two lists *)

Inductive Fetched :=
| FetchRejected (http : Z) (error : string)
| FetchedOne (submission : Submission.t)
| FetchedMany (submissions : list Submission.t).

Module Fetch.
(** [router.get('/:id')] *)
Definition one (fault : option jsstring) (id user_id : string) (db : Db.t)
  : Fetched :=
  match Db.findById fault id db with
  | Thrown _ => FetchRejected 500 "Failed to fetch submission"
  | Returned None => FetchRejected 404 "Submission not found"
  | Returned (Some submission) =>
      if negb (String.eqb (Submission.userId submission) user_id)
      then FetchRejected 403 "Access denied"
      else FetchedOne submission
  end.

(** [router.get('/contest/:contestId/user')] *)
Definition ofContest (fault : option jsstring) (contestId user_id : string)
    (db : Db.t) : Fetched :=
  match Query.find fault (Query.ofContestUser contestId user_id)
          Query.newest_first db with
  | Thrown _ => FetchRejected 500 "Failed to fetch submissions"
  | Returned submissions => FetchedMany submissions
  end.

(** [router.get('/contest/:contestId/question/:questionId/user')] *)
Definition ofQuestion (fault : option jsstring)
    (contestId questionId user_id : string) (db : Db.t) : Fetched :=
  match Query.find fault (Db.matches contestId questionId user_id)
          Query.newest_first db with
  | Thrown _ => FetchRejected 500 "Failed to fetch submissions"
  | Returned submissions => FetchedMany submissions
  end.
End Fetch.

(** ** Contests as participants see them ([routes/contests.js]) *)

Module ContestSummary.
(** What [select('name description startTime endTime duration createdAt')]
    keeps of the fields of the model, with the [_id]. *)
Record t := mk { _id : string; startTime : Z; endTime : Z }.
End ContestSummary.

Module QuestionData.
Record t := mk { _id : string; timeLimit : Z; totalMarks : Z }.
End QuestionData.

Module ContestData.
Record t := mk {
  _id : string;
  startTime : Z;
  endTime : Z;
  allowedLanguages : list string;
  maxAttempts : Z;
  questions : list QuestionData.t
}.
End ContestData.

Inductive ContestResponse :=
| ContestRejected (http : Z) (error : string)
| ContestList (contests : list ContestSummary.t)
| ContestDetails (contest : ContestData.t)
| QuestionDetails (question : QuestionData.t).

Module Contests.
Definition summary (contest : Contest.t) : ContestSummary.t :=
  ContestSummary.mk (Contest._id contest) (Contest.startTime contest)
                    (Contest.endTime contest).

(** [{ isActive: true, endTime: { $gte: now } }] *)
Definition listed (now : Z) (contest : Contest.t) : bool :=
  Contest.isActive contest && (now <=? Contest.endTime contest).

(** [{ startTime: 1 }] *)
Definition earliest_first (a b : Contest.t) : bool :=
  Contest.startTime a <=? Contest.startTime b.

(** [router.get('/')] *)
Definition getContests (fault : option jsstring) (now : Z)
    (contests : list Contest.t) : ContestResponse :=
  match fault with
  | Some _ => ContestRejected 500 "Failed to fetch contests"
  | None =>
      ContestList
        (map summary
             (arrange earliest_first (List.filter (listed now) contests)))
  end.

Definition questionData (question : Question.t) : QuestionData.t :=
  QuestionData.mk (Question._id question) (Question.timeLimit question)
                  (Question.totalMarks question).

Definition contestData (contest : Contest.t) : ContestData.t :=
  ContestData.mk (Contest._id contest) (Contest.startTime contest)
    (Contest.endTime contest) (Contest.allowedLanguages contest)
    (Contest.maxAttempts contest)
    (map questionData (Contest.questions contest)).

(** [router.get('/:id')] *)
Definition getContest (fault : option jsstring) (id : string) (now : Z)
    (contests : list Contest.t) : ContestResponse :=
  match fault with
  | Some _ => ContestRejected 500 "Failed to fetch contest"
  | None =>
  match findContest id contests with
  | None => ContestRejected 404 "Contest not found"
  | Some contest =>
      if negb (Contest.isActive contest) || (Contest.endTime contest <? now)
      then ContestRejected 403 "Contest is not accessible"
      else ContestDetails (contestData contest)
  end end.

(** [router.get('/:contestId/questions/:questionId')] *)
Definition getQuestion (fault : option jsstring)
    (contestId questionId : string)
    (now : Z) (contests : list Contest.t) : ContestResponse :=
  match fault with
  | Some _ => ContestRejected 500 "Failed to fetch question"
  | None =>
  match findContest contestId contests with
  | None => ContestRejected 404 "Contest not found"
  | Some contest =>
  match findQuestion questionId contest with
  | None => ContestRejected 404 "Question not found"
  | Some question =>
      if negb (Contest.isActive contest) || (Contest.endTime contest <? now)
      then ContestRejected 403 "Contest is not accessible"
      else QuestionDetails (questionData question)
  end end end.
End Contests.

(** ** The admin routes of [routes/contests.js]

    The handlers, as the router calls them: a path [/admin/questions/...]
    is served by the question route, which is declared first. *)

(** [['admin', 'instructor'].includes(req.user.role)] *)
Definition staff (role : string) : bool :=
  bool_decide (role ∈ ["admin"; "instructor"]%string).

Module Participant.
(** An entry of [participantsMap]; the populated [user] is left out. *)
Record t := mk { _id : string; registeredAt : Z }.
End Participant.

Inductive AdminResponse :=
| AdminRejected (http : Z) (error : string)
| ParticipantList (participants : list Participant.t)
| LeaderboardOf (leaderboard : list UserScore.t).

Module Admin.
(** One call of the [forEach] callback of the participants route;
    [populated] is as for the leaderboard. *)
Definition register (populated : string -> bool)
    (participantsMap : JSMap.t Participant.t) (submission : Submission.t)
  : JSMap.t Participant.t :=
  let userId := Submission.userId submission in
  if populated userId && negb (JSMap.has userId participantsMap)
  then JSMap.set userId
         (Participant.mk userId (Submission.submittedAt submission))
         participantsMap
  else participantsMap.

(** [router.get('/admin/:id/participants')] *)
Definition participants (role : string) (id : string)
    (fault : option jsstring) (populated : string -> bool) (db : Db.t)
  : AdminResponse :=
  if negb (staff role) then AdminRejected 403 "Admin access required"
  else
    match Query.find fault (Query.ofContest id) Query.oldest_first db with
    | Thrown _ => AdminRejected 500 "Failed to fetch participants"
    | Returned submissions =>
        ParticipantList
          (JSMap.values (fold_left (register populated) submissions []))
    end.

(** [router.get('/admin/:id/leaderboard')]; [fault_contest] and
    [fault_find] are what [Contest.findById] and [Submission.find] reject
    with, if they do. *)
Definition leaderboard (role : string) (id : string)
    (contests : list Contest.t) (fault_contest fault_find : option jsstring)
    (populated : string -> bool) (db : Db.t) : AdminResponse :=
  if negb (staff role) then AdminRejected 403 "Admin access required"
  else
    match fault_contest with
    | Some _ => AdminRejected 500 "Failed to fetch leaderboard"
    | None =>
    match findContest id contests with
    | None => AdminRejected 404 "Contest not found"
    | Some contest =>
    match Query.find fault_find (Query.ofContest id) Query.newest_first
            db with
    | Thrown _ => AdminRejected 500 "Failed to fetch leaderboard"
    | Returned submissions =>
        LeaderboardOf
          (Leaderboard.buildLeaderboard populated contest submissions)
    end end end.
End Admin.

(** ** The hook of the contest model

    [questionSchema.pre('save', ...)] of [models/Contest.js]. *)
Definition questionSchema_preSave (this : Question.t) : Question.t :=
  Question.mk (Question._id this) (Question.testCases this)
    (Question.timeLimit this)
    (fold_left (fun total testCase => total + TestCase.marks testCase)
               (Question.testCases this) 0).

(** ** The middleware ([middleware/auth.js]) *)

(** [s.split(sep)] for a separator of one code unit. *)
Fixpoint split_on (sep : N) (s : jsstring) : list jsstring :=
  match s with
  | [] => [[]]
  | c :: s' =>
      if (c =? sep)%N then [] :: split_on sep s'
      else match split_on sep s' with
           | l :: ls => (c :: l) :: ls
           | [] => [[c]]
           end
  end.

Module User.
(** The user document without its password. *)
Record t := mk { _id : string; role : string }.
End User.

Inductive Authenticated :=
| AuthRejected (http : Z) (error : string)
| Next (user : User.t).

Module Auth.
(** [authHeader && authHeader.split(' ')[1]] *)
Definition token (authHeader : option jsstring) : option jsstring :=
  match authHeader with
  | None => None
  | Some [] => Some []
  | Some header => split_on 32 header !! 1%nat
  end.

(** [authenticateToken].  [verify token] is [jwt.verify(token,
    process.env.JWT_SECRET)] followed by [decoded.userId]: it throws for a
    token that is not one signed with the secret and not expired.
    [findById] is [User.findById(id).select('-password')]. *)
Definition authenticateToken (verify : jsstring -> Call string)
    (findById : string -> Call (option User.t))
    (authHeader : option jsstring) : Authenticated :=
  let token := token authHeader in
  if negb (truthy token) then AuthRejected 401 "Access token required"
  else
    match verify (or_empty token) with
    | Thrown _ => AuthRejected 403 "Invalid or expired token"
    | Returned userId =>
        match findById userId with
        | Thrown _ => AuthRejected 403 "Invalid or expired token"
        | Returned None => AuthRejected 401 "Invalid token"
        | Returned (Some user) => Next user
        end
    end.

(** [requireAdmin], after [authenticateToken] has set [req.user]. *)
Definition requireAdmin (user : User.t) : Authenticated :=
  if negb (String.eqb (User.role user) "admin")
  then AuthRejected 403 "Admin access required"
  else Next user.
End Auth.

(** ** Notifications

    The notifications router, which [routes/submissions.js] carries after
    the submissions router, and [models/Notification.js].  Every route runs
    after [authenticateToken], with [req.user] set.  The routes read and
    write [recipients] only: the [status] of a response is computed for the
    user who asks, and the fields [status] and [readBy] of the schema, which
    no route uses, are left out.  The definitions are the handlers, which a
    request reaches after the rate limiter of its route. *)

Module Notification.
(** [recipients] holds a user and the date of the reading. *)
Record t := mk {
  _id : string;
  title : jsstring;
  message : jsstring;
  type : string;
  priority : string;
  courseId : option string;
  createdBy : string;
  recipients : list (string * Z);
  createdAt : Z
}.

(** The rules of the schema that a request can break: [title] is trimmed
    and required, [type] and [priority] have an [enum]. *)
Definition valid (n : t) : bool :=
  negb (bool_decide (title n = []))
  && bool_decide (type n ∈ ["general"; "course"; "announcement"]%string)
  && bool_decide (priority n ∈ ["low"; "medium"; "high"]%string).
End Notification.

Module NotificationBody.
(** [req.body] of [POST /]; [targetUsers] is [undefined], [null] or an
    array. *)
Record t := mk {
  title : option jsstring;
  message : option jsstring;
  type : option string;
  courseId : option string;
  priority : option string;
  targetUsers : option (option (list string))
}.
End NotificationBody.

Module Processed.
(** [{ ...notification, status, readAt }]; [status] is 'read' or
    'unread'. *)
Record t := mk {
  notification : Notification.t;
  read : bool;
  readAt : option Z
}.
End Processed.

Module TypeStats.
(** A group of [$group: { _id: '$type', count, unread }]. *)
Record t := mk { _id : string; count : Z; unread : Z }.
End TypeStats.

Inductive NotificationResponse :=
| NotificationRejected (http : Z) (error : string)
| NotificationCreated (notification : Notification.t)
| NotificationsMarked (modifiedCount matchedCount : Z)
| NotificationCount (count : Z)
| NotificationList (notifications : list Processed.t)
| NotificationDeleted
| NotificationStats (total totalUnread : Z) (byType : list TypeStats.t).

Module Notifications.
Definition t := list Notification.t.



(** [{ 'recipients.user': { $ne: user } }]: no recipient is the user. *)
Definition unreadBy (user_id : string) (n : Notification.t) : bool :=
  negb (existsb (fun r => String.eqb (fst r) user_id)
                (Notification.recipients n)).

(** [{ $or: [{ courseId }, { type: 'global' }] }] *)
Definition ofCourse (courseId : string) (n : Notification.t) : bool :=
  match Notification.courseId n with
  | Some c => String.eqb c courseId
  | None => false
  end
  || String.eqb (Notification.type n) "global".

(** [{ $addToSet: { recipients: { user, readAt } } }].  Every filter of
    the routes asks that the user is no recipient yet, so that an update of
    a route always adds the element ([modifies_unread]). *)
Definition addToSet (user_id : string) (readAt : Z) (n : Notification.t)
  : Notification.t :=
  Notification.mk (Notification._id n) (Notification.title n)
    (Notification.message n) (Notification.type n) (Notification.priority n)
    (Notification.courseId n) (Notification.createdBy n)
    (if bool_decide ((user_id, readAt) ∈ Notification.recipients n)
     then Notification.recipients n
     else Notification.recipients n ++ [(user_id, readAt)])
    (Notification.createdAt n).

(** Whether [$addToSet] changes the document. *)
Definition modifies (user_id : string) (readAt : Z) (n : Notification.t)
  : bool :=
  negb (bool_decide ((user_id, readAt) ∈ Notification.recipients n)).

(** One [updateOne] of the bulk: the first document with the id that the
    user has not read gets the user as a recipient.  The result is the
    collection, and whether a document matched and was modified. *)
Fixpoint updateOne (id user_id : string) (readAt : Z) (db : t)
  : t * (bool * bool) :=
  match db with
  | [] => ([], (false, false))
  | n :: rest =>
      if String.eqb id (Notification._id n) && unreadBy user_id n
      then (addToSet user_id readAt n :: rest,
            (true, modifies user_id readAt n))
      else let '(rest', counts) := updateOne id user_id readAt rest in
           (n :: rest', counts)
  end.

Definition count (b : bool) : Z := if b then 1 else 0.

(** [Notification.bulkWrite(bulkOps)], in order: the collection, and
    [matchedCount] and [modifiedCount]. *)
Fixpoint bulkWrite (bulkOps : list (string * string * Z)) (db : t)
  : t * (Z * Z) :=
  match bulkOps with
  | [] => (db, (0, 0))
  | (id, user_id, readAt) :: rest =>
      let '(db1, (matched, modified)) := updateOne id user_id readAt db in
      let '(db2, (matchedCount, modifiedCount)) := bulkWrite rest db1 in
      (db2, (count matched + matchedCount, count modified + modifiedCount))
  end.

(** [router.put('/read')]; [now i] is [new Date()] at the [i]-th id. *)
Definition markRead (user : User.t) (notificationIds : option (list string))
    (now : nat -> Z) (fault : option jsstring) (db : t)
  : NotificationResponse * t :=
  match notificationIds with
  | None | Some [] =>
      (NotificationRejected 400 "notificationIds must be a non-empty array",
       db)
  | Some notificationIds =>
      if (50 <? length notificationIds)%nat
      then (NotificationRejected 400
              "Cannot mark more than 50 notifications at once", db)
      else
        let bulkOps :=
          imap (fun i notificationId =>
                  (notificationId, User._id user, now i))
               notificationIds in
        match fault with
        | Some _ =>
            (NotificationRejected 500 "Failed to mark notifications as read",
             db)
        | None =>
            let '(db', (matchedCount, modifiedCount)) :=
              bulkWrite bulkOps db in
            (NotificationsMarked modifiedCount matchedCount, db')
        end
  end.

(** [Notification.updateMany(filter, { $addToSet: ... })] *)
Definition updateMany (filter : Notification.t -> bool) (user_id : string)
    (readAt : Z) (db : t) : t * (Z * Z) :=
  (map (fun n => if filter n then addToSet user_id readAt n else n) db,
   (Z.of_nat (length (List.filter filter db)),
    Z.of_nat (length (List.filter
                        (fun n => filter n && modifies user_id readAt n)
                        db)))).

(** [router.put('/read-all')] *)
Definition markAllRead (user : User.t) (now : Z) (fault : option jsstring)
    (db : t) : NotificationResponse * t :=
  match fault with
  | Some _ =>
      (NotificationRejected 500 "Failed to mark all notifications as read",
       db)
  | None =>
      let '(db', (matchedCount, modifiedCount)) :=
        updateMany (unreadBy (User._id user)) (User._id user) now db in
      (NotificationsMarked modifiedCount matchedCount, db')
  end.

(** [router.put('/course/:courseId/read-all')] *)
Definition markCourseRead (user : User.t) (courseId : string) (now : Z)
    (fault : option jsstring) (db : t) : NotificationResponse * t :=
  match fault with
  | Some _ =>
      (NotificationRejected 500
         "Failed to mark course notifications as read", db)
  | None =>
      let '(db', (matchedCount, modifiedCount)) :=
        updateMany (fun n => ofCourse courseId n && unreadBy (User._id user) n)
                   (User._id user) now db in
      (NotificationsMarked modifiedCount matchedCount, db')
  end.

(** [router.get('/unread-count')] *)
Definition unreadCount (user : User.t) (fault : option jsstring) (db : t)
  : NotificationResponse :=
  match fault with
  | Some _ => NotificationRejected 500 "Failed to fetch unread count"
  | None =>
      NotificationCount
        (Z.of_nat (length (List.filter (unreadBy (User._id user)) db)))
  end.

(** [router.get('/course/:courseId/unread-count')] *)
Definition courseUnreadCount (user : User.t) (courseId : string)
    (fault : option jsstring) (db : t) : NotificationResponse :=
  match fault with
  | Some _ => NotificationRejected 500 "Failed to fetch course unread count"
  | None =>
      NotificationCount
        (Z.of_nat (length (List.filter
                             (fun n => ofCourse courseId n
                                       && unreadBy (User._id user) n)
                             db)))
  end.

(** The callback of [notifications.map]. *)
Definition processed (user_id : string) (notification : Notification.t)
  : Processed.t :=
  let recipient :=
    find (fun r => String.eqb (fst r) user_id)
         (Notification.recipients notification) in
  Processed.mk notification
    (match recipient with Some _ => true | None => false end)
    (option_map snd recipient).

(** [{ createdAt: -1 }] *)
Definition newest_first (a b : Notification.t) : bool :=
  Notification.createdAt b <=? Notification.createdAt a.

(** [router.get('/course/:courseId')]; the course that [populate] puts in
    the place of [courseId] is left out. *)
Definition ofCourseFor (user : User.t) (courseId : string)
    (fault : option jsstring) (db : t) : NotificationResponse :=
  match fault with
  | Some _ => NotificationRejected 500 "Failed to fetch course notifications"
  | None =>
      NotificationList
        (map (processed (User._id user))
             (arrange newest_first (List.filter (ofCourse courseId) db)))
  end.

(** [{ recipients: { $size: 0 } }] *)
Definition unreadByAll (n : Notification.t) : bool :=
  match Notification.recipients n with
  | [] => true
  | _ :: _ => false
  end.

(** One document entering [$group]: the group of its type counts it, and
    counts it as unread when it has no recipient. *)
Definition group (groups : JSMap.t TypeStats.t) (n : Notification.t)
  : JSMap.t TypeStats.t :=
  let type := Notification.type n in
  let one := if unreadByAll n then 1 else 0 in
  JSMap.set type
    (match JSMap.get type groups with
     | Some g => TypeStats.mk type (TypeStats.count g + 1)
                              (TypeStats.unread g + one)
     | None => TypeStats.mk type 1 one
     end)
    groups.

(** [router.get('/stats')]; the groups come in the order in which their
    types first occur in the collection. *)
Definition stats (user : User.t) (fault : option jsstring) (db : t)
  : NotificationResponse :=
  if negb (String.eqb (User.role user) "admin")
  then NotificationRejected 403 "Admin access required"
  else
    match fault with
    | Some _ =>
        NotificationRejected 500 "Failed to fetch notification statistics"
    | None =>
        NotificationStats (Z.of_nat (length db))
          (Z.of_nat (length (List.filter unreadByAll db)))
          (JSMap.values (fold_left group db []))
    end.

(** [Notification.findByIdAndDelete(id)] on the collection. *)
Fixpoint findByIdAndDelete (id : string) (db : t) : t :=
  match db with
  | [] => []
  | n :: rest =>
      if String.eqb id (Notification._id n) then rest
      else n :: findByIdAndDelete id rest
  end.

(** [router.delete('/:id')] *)
Definition delete (user : User.t) (id : string) (fault : option jsstring)
    (db : t) : NotificationResponse * t :=
  match fault with
  | Some _ => (NotificationRejected 500 "Failed to delete notification", db)
  | None =>
      match find (fun n => String.eqb id (Notification._id n)) db with
      | None => (NotificationRejected 404 "Notification not found", db)
      | Some notification =>
          if negb (String.eqb (User.role user) "admin")
             && negb (String.eqb (Notification.createdBy notification)
                                 (User._id user))
          then (NotificationRejected 403
                  "Not authorized to delete this notification", db)
          else
            (NotificationDeleted, findByIdAndDelete id db)
      end
  end.
End Notifications.

(** ** Predicates used in the further statements *)

(** [db'] has the documents of [db], in their places, except that the one
    stored under [id] may have changed. *)
Definition untouched_but (id : string) (db db' : Db.t) : Prop :=
  map keys db' = map keys db
  /\ forall id', id' <> id -> stored id' db' = stored id' db.

(** [s'] is still the submission [s] as it was made: the same identifiers,
    code, language, [maxMarks] and date. *)
Definition same_request (s s' : Submission.t) : Prop :=
  keys s' = keys s
  /\ Submission.code s' = Submission.code s
  /\ Submission.language s' = Submission.language s
  /\ Submission.maxMarks s' = Submission.maxMarks s
  /\ Submission.submittedAt s' = Submission.submittedAt s.

(** What a recorded result [r] of [testCase] under [timeLimit] satisfies,
    by its status. *)
Definition consistent_result (timeLimit : Z) (testCase : TestCase.t)
    (r : TestCaseResult.t) : Prop :=
  (TestCaseResult.status r = passed ->
   TestCaseResult.executionTime r <= timeLimit
   /\ TestCaseResult.error r = []
   /\ TestCaseResult.marksAwarded r = TestCase.marks testCase
   /\ trim (TestCaseResult.output r)
      = trim (TestCase.expectedOutput testCase))
  /\ (TestCaseResult.status r = failed ->
      TestCaseResult.executionTime r <= timeLimit
      /\ TestCaseResult.error r = []
      /\ trim (TestCaseResult.output r)
         <> trim (TestCase.expectedOutput testCase))
  /\ (TestCaseResult.status r = time_limit_exceeded ->
      TestCaseResult.executionTime r > timeLimit
      /\ TestCaseResult.error r = time_limit_message)
  /\ (TestCaseResult.status r <> passed -> TestCaseResult.marksAwarded r = 0)
  /\ TestCaseResult.status r <> memory_limit_exceeded
  /\ TestCaseResult.maxMarks r = TestCase.marks testCase
  /\ TestCaseResult.testCaseId r = TestCase._id testCase
  /\ TestCaseResult.isHidden r = TestCase.isHidden testCase.

(** The totals of a stored submission agree with its test case results. *)
Definition consistent_totals (s : Submission.t) : Prop :=
  Submission.totalTestCases s
  = Z.of_nat (length (Submission.testCaseResults s))
  /\ Submission.passedTestCases s
     = Z.of_nat (length (filter
                           (fun r => TestCaseResult.status r = passed)
                           (Submission.testCaseResults s)))
  /\ 0 <= Submission.passedTestCases s <= Submission.totalTestCases s
  /\ Submission.totalMarks s
     = Zsum (map TestCaseResult.marksAwarded (Submission.testCaseResults s))
  /\ (Submission.status s = Submission.completed ->
      Submission.marksAwarded s = Submission.totalMarks s)
  /\ (Submission.status s = Submission.pending ->
      Submission.testCaseResults s = []).

(** No user is a recipient of the notification twice. *)
Definition receipts_once (n : Notification.t) : Prop :=
  NoDup (map fst (Notification.recipients n)).

(** What marking the notifications of [notificationIds] as read by
    [user_id] does to [n]: it gives [n'] the user as one more recipient when
    the user has not read [n] and [n] is one of them, and leaves [n] as it is
    otherwise. *)
Definition marked_for (user_id : string) (notificationIds : list string)
    (n n' : Notification.t) : Prop :=
  (Notifications.unreadBy user_id n = true
   /\ In (Notification._id n) notificationIds
   /\ exists readAt, n' = Notifications.addToSet user_id readAt n)
  \/ ((Notifications.unreadBy user_id n = false
       \/ ~ In (Notification._id n) notificationIds)
      /\ n' = n).

(** Three notifications, the second of which user u1 has read. *)
Definition sample_notifications : Notifications.t :=
  [Notification.mk "n1" (lit "Welcome") (lit "Hello") "general" "low" None
                   "a1" [] 10;
   Notification.mk "n2" (lit "Quiz") (lit "Quiz on Friday") "course" "high"
                   (Some "k1"%string) "a1" [("u1"%string, 15)] 20;
   Notification.mk "n3" (lit "Lab") (lit "Lab moved") "course" "low"
                   (Some "k2"%string) "i1" [] 30].

(** A user who is neither an admin nor an instructor. *)
Definition reader : User.t := User.mk "u1" "other".

(** * Properties *)

(** ** Strings *)

Section Trim.
Implicit Types s t : jsstring.

Lemma trimStart_split s :
  exists ws, s = ws ++ trimStart s /\ forallb is_white_space ws = true.
Proof.
  induction s as [|c s [ws [E F]]]; simpl.
  - exists []. done.
  - destruct (is_white_space c) eqn:W.
    + exists (c :: ws). simpl. rewrite W, F. split; [congruence | done].
    + exists []. done.
Qed.

Lemma trimStart_clean s : starts_clean (trimStart s).
Proof.
  induction s as [|c s IH]; simpl; [intros c; discriminate|].
  destruct (is_white_space c) eqn:W; [exact IH|].
  intros c' [= <-]. exact W.
Qed.

Lemma trimEnd_split t :
  exists ws, t = trimEnd t ++ ws /\ forallb is_white_space ws = true.
Proof.
  unfold trimEnd. destruct (trimStart_split (rev t)) as [ws [E F]].
  exists (rev ws). split.
  - rewrite <- (rev_involutive t), E at 1. by rewrite rev_app_distr.
  - rewrite forallb_forall in *. intros x Hx. apply F.
    by apply in_rev.
Qed.

Lemma last_rev_head s : last (rev s) = head s.
Proof. destruct s as [|c s]; simpl; [done|]. by rewrite last_snoc. Qed.

Lemma trimEnd_clean t : ends_clean (trimEnd t).
Proof.
  unfold trimEnd, ends_clean. intros c. rewrite last_rev_head.
  apply trimStart_clean.
Qed.

Lemma head_app_nonempty s t : s <> [] -> head (s ++ t) = head s.
Proof. by destruct s. Qed.

Lemma trimEnd_keeps_start t : starts_clean t -> starts_clean (trimEnd t).
Proof.
  intros H c Hc. destruct (trimEnd_split t) as [ws [E _]].
  apply H. rewrite E. rewrite head_app_nonempty; [done|].
  intros N. rewrite N in Hc. discriminate.
Qed.

(** [trim] removes a run of white space at each end and nothing else, and
    what is left neither starts nor ends with white space. *)
Lemma trim_spec s :
  (exists ws1 ws2,
      s = ws1 ++ trim s ++ ws2
      /\ forallb is_white_space ws1 = true
      /\ forallb is_white_space ws2 = true)
  /\ starts_clean (trim s) /\ ends_clean (trim s).
Proof.
  unfold trim. split; [|split].
  - destruct (trimStart_split s) as [ws1 [E1 F1]].
    destruct (trimEnd_split (trimStart s)) as [ws2 [E2 F2]].
    exists ws1, ws2. split; [|done]. by rewrite <- E2.
  - apply trimEnd_keeps_start, trimStart_clean.
  - apply trimEnd_clean.
Qed.

Lemma split_nl_nonempty s : split_nl s <> [].
Proof.
  destruct s as [|c s]; simpl; [done|].
  destruct (c =? 10)%N; [done|]. by destruct (split_nl s).
Qed.

Lemma join_split_nl s : join_nl (split_nl s) = s.
Proof.
  induction s as [|c s IH]; simpl; [done|].
  destruct (N.eqb_spec c 10) as [->|Hc].
  - pose proof (split_nl_nonempty s) as Hne.
    destruct (split_nl s) as [|l ls] eqn:E; [done|].
    simpl in *. by rewrite IH.
  - pose proof (split_nl_nonempty s) as Hne.
    destruct (split_nl s) as [|l ls] eqn:E; [done|].
    destruct ls; simpl in *; by rewrite <- IH.
Qed.

(** The first line of a split begins as the string does, unless it is
    empty and followed by another line: then the string begins with a
    line feed. *)
Lemma split_nl_first s l ls :
  split_nl s = l :: ls ->
  (l = [] -> ls <> [] -> head s = Some 10%N).
Proof.
  destruct s as [|c s]; simpl.
  - intros [= <- <-]. done.
  - destruct (N.eqb_spec c 10) as [->|Hc]; [done|].
    destruct (split_nl s); intros [= <- <-]; done.
Qed.

Lemma join_nl_snoc_empty (ls : list jsstring) :
  ls <> [] -> join_nl (ls ++ [[]]) = join_nl ls ++ [10%N].
Proof.
  induction ls as [|l [|l2 r] IH]; [done|done|].
  intros _. change (join_nl ((l :: l2 :: r) ++ [[]]))
    with (l ++ 10%N :: join_nl ((l2 :: r) ++ [[]])).
  rewrite IH by done.
  change (join_nl (l :: l2 :: r)) with (l ++ 10%N :: join_nl (l2 :: r)).
  by rewrite <- app_assoc.
Qed.

Lemma split_nl_last s ls l :
  split_nl s = ls ++ [l] -> l = [] -> ls <> [] -> last s = Some 10%N.
Proof.
  intros E -> Hne. rewrite <- (join_split_nl s), E.
  rewrite join_nl_snoc_empty by done. apply last_snoc.
Qed.
End Trim.

Section Lines.
Implicit Types s : jsstring.

Lemma join_nl_snoc (front : list jsstring) (l : jsstring) :
  front <> [] -> join_nl (front ++ [l]) = join_nl front ++ 10%N :: l.
Proof.
  induction front as [|l0 [|l2 r] IH]; [done|done|].
  intros _. change (join_nl ((l0 :: l2 :: r) ++ [l]))
    with (l0 ++ 10%N :: join_nl ((l2 :: r) ++ [l])).
  rewrite IH by done.
  change (join_nl (l0 :: l2 :: r)) with (l0 ++ 10%N :: join_nl (l2 :: r)).
  by rewrite <- app_assoc.
Qed.

Lemma split_nl_first_char s l ls c :
  split_nl s = l :: ls -> head l = Some c -> head s = Some c.
Proof.
  intros E H. rewrite <- (join_split_nl s), E.
  destruct l as [|c' l']; [discriminate|]. simpl in H.
  by destruct ls.
Qed.

Lemma last_app_cons {A} (x : list A) (a : A) (y : list A) :
  last (x ++ a :: y) = last (a :: y).
Proof.
  induction x as [|b x IH]; [done|].
  change ((b :: x) ++ a :: y) with (b :: (x ++ a :: y)).
  destruct (x ++ a :: y) as [|z w] eqn:E.
  - destruct x; discriminate.
  - change (last (b :: z :: w)) with (last (z :: w)). by rewrite <- IH.
Qed.

Lemma split_nl_last_char s front l c :
  split_nl s = front ++ [l] -> last l = Some c -> last s = Some c.
Proof.
  intros E H. rewrite <- (join_split_nl s), E.
  destruct front as [|l0 front']; [done|].
  rewrite join_nl_snoc by done. rewrite last_app_cons.
  destruct l as [|c' l']; [discriminate|]. done.
Qed.

Lemma reads_exhausted (lines : list jsstring) (i n : nat) :
  lines !! i = None ->
  Preamble.reads n (Preamble.mk lines i) = replicate n [].
Proof.
  intros H. induction n as [|n IH]; [done|].
  simpl. unfold Preamble.input. simpl. rewrite H. by rewrite IH.
Qed.

Lemma reads_from (lines : list jsstring) (n i : nat) :
  Preamble.reads n (Preamble.mk lines i)
  = map (fun k => default [] (lines !! k)) (seq i n).
Proof.
  revert i. induction n as [|n IH]; intros i; [done|].
  destruct (lines !! i) as [line|] eqn:E.
  - cbn [Preamble.reads seq map]. unfold Preamble.input.
    cbn [Preamble.lines Preamble.input_index]. rewrite E. by rewrite IH.
  - rewrite reads_exhausted by done.
    apply lookup_ge_None in E.
    clear IH. revert i E. induction (S n) as [|m IHm]; intros i E; [done|].
    simpl. rewrite <- IHm by lia.
    by rewrite (proj2 (lookup_ge_None lines i)).
Qed.
End Lines.

(** C10.  For a Python submission the dispatcher hands compilex the lines of
    the trimmed input: joined again they are [input.trim()], which differs
    from [input] by a run of white space at each end only; the first line
    does not begin with white space and the last does not end with it, so
    neither is a blank line unless it is the only line; and the [k]-th call
    of the preamble's [input()] returns line [k] while there is one and the
    empty string at every call after that. *)
Theorem C10_python_input_is_trimmed (input : jsstring) :
  let lines := input_lines input in
  (forall compilex code timeLimit,
      executeCode compilex code "python" input timeLimit
      = settle (compilex (compilePython lines code)) timeLimit)
  /\ join_nl lines = trim input
  /\ (exists ws1 ws2,
         input = ws1 ++ join_nl lines ++ ws2
         /\ forallb is_white_space ws1 = true
         /\ forallb is_white_space ws2 = true)
  /\ (exists first rest,
         lines = first :: rest /\ starts_clean first
         /\ (rest <> [] -> first <> []))
  /\ (exists front final,
         lines = front ++ [final] /\ ends_clean final
         /\ (front <> [] -> final <> []))
  /\ (forall n,
         Preamble.reads n (Preamble.start input)
         = map (fun k => default [] (lines !! k)) (seq 0 n)).
Proof.
  intros lines. subst lines. unfold input_lines.
  destruct (trim_spec input) as [Hsplit [Hstart Hend]].
  split; [done|]. split; [apply join_split_nl|].
  split; [by rewrite join_split_nl|]. split; [|split].
  - pose proof (split_nl_nonempty (trim input)) as Hne.
    destruct (split_nl (trim input)) as [|first rest] eqn:E; [done|].
    exists first, rest. split; [done|]. split.
    + intros c Hc. apply Hstart. by eapply split_nl_first_char.
    + intros Hrest ->. pose proof (split_nl_first _ _ _ E eq_refl Hrest) as H.
      by apply Hstart in H.
  - pose proof (split_nl_nonempty (trim input)) as Hne.
    destruct (split_nl (trim input)) as [|l ls] eqn:E using rev_ind; [done|].
    clear IHls. exists ls, l. split; [done|]. split.
    + intros c Hc. apply Hend. by eapply split_nl_last_char.
    + intros Hfront ->. pose proof (split_nl_last _ _ _ E eq_refl Hfront) as H.
      by apply Hend in H.
  - intros n. apply reads_from.
Qed.

(** ** The grading loop *)

Section Loop.
Variables (compilex : nat -> Invoker) (code : jsstring) (language : string)
          (timeLimit : Z).

Lemma Zsum_app (l1 l2 : list Z) : Zsum (l1 ++ l2) = Zsum l1 + Zsum l2.
Proof. unfold Zsum. induction l1; simpl; lia. Qed.

Lemma reduce_sum_Zsum (f : TestCaseResult.t -> Z) results :
  Submission.reduce_sum f results = Zsum (map f results).
Proof.
  unfold Submission.reduce_sum.
  assert (G : forall z, fold_left (fun total result => total + f result)
                          results z = z + Zsum (map f results)).
  { induction results as [|r rs IH]; intros z; simpl; [lia|].
    rewrite IH. lia. }
  rewrite G. lia.
Qed.

(** One iteration, in terms of the result it records. *)
Lemma step_fields (a : Grading.acc) (r : Call Outcome.t) testCase :
  let x := Grading.record r testCase in
  let a' := Grading.step a r testCase in
  Grading.testCaseResults a' = Grading.testCaseResults a ++ [x]
  /\ Grading.totalExecutionTime a'
     = Grading.totalExecutionTime a + TestCaseResult.executionTime x
  /\ Grading.totalMarks a'
     = Grading.totalMarks a + TestCaseResult.maxMarks x
  /\ Grading.obtainedMarks a'
     = Grading.obtainedMarks a + TestCaseResult.marksAwarded x
  /\ TestCaseResult.maxMarks x = TestCase.marks testCase.
Proof.
  destruct r as [result|message]; simpl.
  - destruct (Grading.isCorrect result testCase); split_and!; (done || lia).
  - split_and!; (done || lia).
Qed.

Lemma recorded_cons i testCase rest :
  recorded compilex code language timeLimit i (testCase :: rest)
  = Grading.record
      (executeCode (compilex i) code language (TestCase.input testCase)
                   timeLimit) testCase
    :: recorded compilex code language timeLimit (S i) rest.
Proof.
  unfold recorded. rewrite imap_cons. rewrite Nat.add_0_r. f_equal.
  apply imap_ext. intros j x _. simpl. by rewrite Nat.add_succ_r.
Qed.

Lemma loop_fields i testCases (a : Grading.acc) :
  let rs := recorded compilex code language timeLimit i testCases in
  let a' := Grading.loop compilex code language timeLimit i testCases a in
  Grading.testCaseResults a' = Grading.testCaseResults a ++ rs
  /\ Grading.totalExecutionTime a'
     = Grading.totalExecutionTime a
       + Zsum (map TestCaseResult.executionTime rs)
  /\ Grading.totalMarks a'
     = Grading.totalMarks a + Zsum (map TestCaseResult.maxMarks rs)
  /\ Grading.obtainedMarks a'
     = Grading.obtainedMarks a + Zsum (map TestCaseResult.marksAwarded rs)
  /\ map TestCaseResult.maxMarks rs = map TestCase.marks testCases.
Proof.
  revert i a. induction testCases as [|testCase rest IH]; intros i a.
  - simpl. rewrite app_nil_r. split_and!; (done || lia).
  - cbn zeta. rewrite recorded_cons. cbn [Grading.loop].
    set (r := executeCode _ _ _ _ _).
    destruct (IH (S i) (Grading.step a r testCase)) as (R & T & M & O & X).
    destruct (step_fields a r testCase) as (R1 & T1 & M1 & O1 & X1).
    cbn zeta in *. rewrite R, T, M, O, R1, T1, M1, O1.
    cbn [map]. unfold Zsum at 2 4 6. cbn [foldr]. fold (Zsum).
    rewrite <- app_assoc. rewrite X, X1.
    split_and!; first [done | unfold Zsum; lia].
Qed.
End Loop.

Lemma recorded_lookup compilex code language timeLimit testCases i testCase :
  testCases !! i = Some testCase ->
  recorded compilex code language timeLimit 0 testCases !! i
  = Some (Grading.record
            (executeCode (compilex i) code language
                         (TestCase.input testCase) timeLimit) testCase).
Proof.
  intros H. unfold recorded. rewrite list_lookup_imap, H. done.
Qed.

Lemma tally_results compilex code language question :
  Grading.testCaseResults (tally compilex code language question)
  = recorded compilex code language (Question.timeLimit question) 0
             (Question.testCases question).
Proof.
  unfold tally.
  by destruct (loop_fields compilex code language
                 (Question.timeLimit question) 0
                 (Question.testCases question) Grading.init) as (-> & _).
Qed.

Lemma tally_totalMarks compilex code language question :
  Grading.totalMarks (tally compilex code language question)
  = Zsum (map TestCase.marks (Question.testCases question)).
Proof.
  unfold tally.
  destruct (loop_fields compilex code language
              (Question.timeLimit question) 0
              (Question.testCases question) Grading.init)
    as (_ & _ & -> & _ & ->).
  simpl. lia.
Qed.

(** ** Grading one test case *)

(** C3.  The verdict of a test case whose dispatcher call returned: passed
    exactly when the status is success and the two trimmed outputs are equal,
    time_limit_exceeded exactly when the status is timeout, runtime_error
    exactly when it is error, failed exactly when it is success with
    different trimmed outputs; the marks awarded are the marks of the test
    case when the verdict is passed and 0 otherwise.  This is the result
    [processSubmission] records for the test case.  The three comparisons
    the specification lists come out as it says. *)
Theorem C3_verdict_classification (result : Outcome.t) (testCase : TestCase.t) :
  let r := Grading.graded result testCase in
  let same := trim (Outcome.output result)
              = trim (TestCase.expectedOutput testCase) in
  (TestCaseResult.status r = passed
     <-> Outcome.status result = success /\ same)
  /\ (TestCaseResult.status r = time_limit_exceeded
        <-> Outcome.status result = timeout)
  /\ (TestCaseResult.status r = runtime_error
        <-> Outcome.status result = error)
  /\ (TestCaseResult.status r = failed
        <-> Outcome.status result = success /\ ~ same)
  /\ TestCaseResult.marksAwarded r
     = (if decide (TestCaseResult.status r = passed)
        then TestCase.marks testCase else 0)
  /\ TestCaseResult.maxMarks r = TestCase.marks testCase
  /\ (forall compilex code language question i,
         Question.testCases question !! i = Some testCase ->
         executeCode (compilex i) code language (TestCase.input testCase)
                     (Question.timeLimit question) = Returned result ->
         Grading.testCaseResults (tally compilex code language question) !! i
         = Some r)
  /\ Grading.verdict (outcome_of success (lit "5" ++ [10%N]))
                     (expecting (lit "5")) = passed
  /\ Grading.verdict (outcome_of success (lit "5 "))
                     (expecting (lit "5" ++ [9%N])) = passed
  /\ Grading.verdict (outcome_of success (lit "5  5"))
                     (expecting (lit "5 5")) = failed.
Proof.
  intros r same. subst r same.
  assert (Hloop : forall compilex code language question i,
             Question.testCases question !! i = Some testCase ->
             executeCode (compilex i) code language (TestCase.input testCase)
                         (Question.timeLimit question) = Returned result ->
             Grading.testCaseResults (tally compilex code language question)
               !! i
             = Some (Grading.graded result testCase)).
  { intros compilex code language question i Hi Hrun.
    rewrite tally_results, (recorded_lookup _ _ _ _ _ _ _ Hi), Hrun. done. }
  destruct result as [st err time mem out].
  split_and!;
    [ first
        [ reflexivity
        | exact Hloop
        | unfold Grading.graded, Grading.verdict, Grading.isCorrect;
          cbn [TestCaseResult.status TestCaseResult.marksAwarded
               Outcome.status Outcome.output];
          destruct st; repeat case_bool_decide; try congruence; cbn;
          try case_decide; intuition congruence ] ..
    | vm_compute; reflexivity
    | vm_compute; reflexivity
    | vm_compute; reflexivity ].
Qed.

(** ** The collection *)

Section Collection.
Implicit Types (db : Db.t) (doc s : Submission.t) (id : string).

Lemma has_id_eq id s : Db.has_id id s = true <-> id = Submission._id s.
Proof. unfold Db.has_id. apply String.eqb_eq. Qed.

Lemma stored_id id db s : stored id db = Some s -> Submission._id s = id.
Proof.
  unfold stored. intros H. apply find_some in H as [_ H].
  symmetry. by apply has_id_eq.
Qed.

Lemma stored_replace id db doc s :
  stored id db = Some s -> Submission._id doc = id ->
  stored id (Db.replace doc db) = Some doc.
Proof.
  unfold stored, Db.replace. intros H <-.
  induction db as [|x db IH]; simpl in *; [discriminate|].
  destruct (Db.has_id (Submission._id doc) x) eqn:E.
  - rewrite (proj2 (has_id_eq _ doc) eq_refl). done.
  - rewrite E. auto.
Qed.

Lemma save_stored id db doc s :
  stored id db = Some s -> Submission._id doc = id ->
  Db.save None doc db = Returned (Db.replace (Submission.preSave doc) db)
  /\ stored id (Db.replace (Submission.preSave doc) db)
     = Some (Submission.preSave doc).
Proof.
  intros H E. unfold Db.save. rewrite E. fold (stored id db). rewrite H.
  split; [done|]. by eapply stored_replace.
Qed.
End Collection.

(** ** [processSubmission] as a whole *)

Section Process.
Variables (faults : Faults) (compilex : nat -> Invoker)
          (submissionId : string) (question : Question.t)
          (code : jsstring) (language : string).

Local Abbreviation tally := (tally compilex code language question).

(** When no database call rejects, the document written last is the one
    [finish] prepares, after the [pre('save')] hook. *)
Lemma processSubmission_completed (db : Db.t) (s0 : Submission.t) :
  stored submissionId db = Some s0 ->
  faults FindSubmission = None ->
  faults SaveRunning = None ->
  faults SaveCompleted = None ->
  exists db',
    processSubmission faults compilex submissionId question code
                      language db = (db', Returned tt)
    /\ stored submissionId db'
       = Some (Submission.preSave
                 (Grading.finish tally
                    (Submission.preSave
                       (Submission.set_status Submission.running s0)))).
Proof.
  intros Hs F1 F2 F3. unfold processSubmission, Db.findById.
  rewrite F1, F2, F3. fold (stored submissionId db). rewrite Hs.
  pose proof (stored_id _ _ _ Hs) as Hid.
  destruct (save_stored submissionId db
              (Submission.set_status Submission.running s0) s0 Hs Hid)
    as [-> H1].
  fold tally.
  destruct (save_stored submissionId _
              (Grading.finish tally
                 (Submission.preSave
                    (Submission.set_status Submission.running s0))) _ H1 Hid)
    as [-> H2].
  eauto.
Qed.

End Process.

(** ** Memory *)

Lemma resolveWith_memory data elapsed timeLimit :
  Outcome.memoryUsed (resolveWith data elapsed timeLimit) = 0.
Proof.
  unfold resolveWith. destruct (truthy _); [done|].
  by destruct (elapsed >? timeLimit).
Qed.

Lemma executeCode_memory compilex code language input timeLimit o :
  executeCode compilex code language input timeLimit = Returned o ->
  Outcome.memoryUsed o = 0.
Proof.
  unfold executeCode, settle.
  destruct (String.eqb language "python").
  - destruct (compilex _); intros [= <-]. apply resolveWith_memory.
  - destruct (compilexLang language); [|discriminate|by intros [= <-]].
    destruct (compilex _); intros [= <-]. apply resolveWith_memory.
Qed.

Lemma record_memory compilex code language input timeLimit testCase :
  TestCaseResult.memoryUsed
    (Grading.record (executeCode compilex code language input timeLimit)
                    testCase) = 0.
Proof.
  destruct (executeCode _ _ _ _ _) as [o|m] eqn:E; [|done].
  simpl. by eapply executeCode_memory.
Qed.

Lemma loop_memory compilex code language timeLimit i testCases a :
  Grading.totalMemoryUsed a = 0 ->
  Grading.totalMemoryUsed
    (Grading.loop compilex code language timeLimit i testCases a) = 0.
Proof.
  revert i a. induction testCases as [|testCase rest IH]; intros i a Ha;
    [done|].
  cbn [Grading.loop]. apply IH.
  destruct (executeCode _ _ _ _ _) as [o|m] eqn:E; simpl; [|done].
  rewrite Ha, (executeCode_memory _ _ _ _ _ _ E). done.
Qed.

Lemma recorded_memory compilex code language timeLimit i testCases :
  Forall (fun r => TestCaseResult.memoryUsed r = 0)
         (recorded compilex code language timeLimit i testCases).
Proof.
  revert i. induction testCases as [|testCase rest IH]; intros i.
  - constructor.
  - rewrite recorded_cons. constructor; [apply record_memory | apply IH].
Qed.

(** C9.  Every outcome [executeCode] returns has [memoryUsed] 0, whatever the
    language and the branch; so a submission graded to the end is stored with
    [memoryUsed] 0 in each of its test case results and 0 as its own. *)
Theorem C9_memory_is_zero (faults : Faults)
    (compilex : nat -> Invoker) (submissionId : string)
    (question : Question.t) (code : jsstring) (language : string)
    (db : Db.t) (s0 : Submission.t)
    (Hstored : stored submissionId db = Some s0)
    (Hfind : faults FindSubmission = None)
    (Hrunning : faults SaveRunning = None)
    (Hcompleted : faults SaveCompleted = None) :
  (forall invoker code' language' input timeLimit,
      match executeCode invoker code' language' input timeLimit with
      | Returned o => Outcome.memoryUsed o = 0
      | Thrown _ => True
      end)
  /\ exists db' s,
       processSubmission faults compilex submissionId question code
                         language db = (db', Returned tt)
       /\ stored submissionId db' = Some s
       /\ Submission.status s = Submission.completed
       /\ Forall (fun r => TestCaseResult.memoryUsed r = 0)
                 (Submission.testCaseResults s)
       /\ Submission.memoryUsed s = 0.
Proof.
  split.
  - intros. destruct (executeCode _ _ _ _ _) eqn:E; [|done].
    by eapply executeCode_memory.
  - destruct (processSubmission_completed faults compilex submissionId
                question code language db s0 Hstored Hfind Hrunning
                Hcompleted) as (db' & Hrun & Hdoc).
    eexists _, _. split; [exact Hrun|]. split; [exact Hdoc|].
    cbn [Submission.preSave Grading.finish Submission.status
         Submission.testCaseResults Submission.memoryUsed].
    split; [done|]. split.
    + unfold tally.
      destruct (loop_fields compilex code language
                  (Question.timeLimit question) 0
                  (Question.testCases question) Grading.init) as (-> & _).
      apply recorded_memory.
    + by apply loop_memory.
Qed.

(** C9 for a submission that passes both test cases of [sample_question]. *)
Lemma C9_memory_is_zero_witness :
  exists db' s,
    processSubmission no_faults (prints (lit "1")) "s1"
      sample_question (lit "print(1)") "python" [pending_submission]
    = (db', Returned tt)
    /\ stored "s1" db' = Some s
    /\ Submission.status s = Submission.completed
    /\ Forall (fun r => TestCaseResult.memoryUsed r = 0)
              (Submission.testCaseResults s)
    /\ Submission.memoryUsed s = 0.
Proof.
  exact (proj2 (C9_memory_is_zero no_faults (prints (lit "1"))
                  "s1" sample_question (lit "print(1)") "python"
                  [pending_submission] pending_submission
                  eq_refl eq_refl eq_refl eq_refl)).
Defined.

(** ** Faults *)



(** ** Totals of a graded submission *)

(** What [processSubmission] stores for a submission graded to the end: the
    loop puts the sum of the marks of the test cases in [totalMarks], and the
    [pre('save')] hook then replaces it by the sum of the marks awarded. *)
Lemma graded_totals (faults : Faults)
    (compilex : nat -> Invoker) (submissionId : string)
    (question : Question.t) (code : jsstring) (language : string)
    (db : Db.t) (s0 : Submission.t) :
  stored submissionId db = Some s0 ->
  faults FindSubmission = None ->
  faults SaveRunning = None ->
  faults SaveCompleted = None ->
  exists db' s,
    processSubmission faults compilex submissionId question code
                      language db = (db', Returned tt)
    /\ stored submissionId db' = Some s
    /\ Submission.status s = Submission.completed
    /\ Submission.testCaseResults s
       = recorded compilex code language (Question.timeLimit question) 0
                  (Question.testCases question)
    /\ Submission.marksAwarded s
       = Zsum (map TestCaseResult.marksAwarded (Submission.testCaseResults s))
    /\ Submission.totalMarks s
       = Zsum (map TestCaseResult.marksAwarded (Submission.testCaseResults s))
    /\ Grading.totalMarks (tally compilex code language question)
       = Zsum (map TestCaseResult.maxMarks (Submission.testCaseResults s))
    /\ Submission.scorePercentage s
       = Grading.scorePercentage
           (Grading.obtainedMarks (tally compilex code language question))
           (Grading.totalMarks (tally compilex code language question)).
Proof.
  intros Hs F1 F2 F3.
  destruct (processSubmission_completed faults compilex submissionId
              question code language db s0 Hs F1 F2 F3) as (db' & Hrun & Hdoc).
  eexists _, _. split; [exact Hrun|]. split; [exact Hdoc|].
  cbn [Submission.preSave Grading.finish Submission.status
       Submission.testCaseResults Submission.marksAwarded
       Submission.totalMarks Submission.scorePercentage].
  rewrite reduce_sum_Zsum, tally_results. split_and!; try done.
  - unfold tally.
    destruct (loop_fields compilex code language
                (Question.timeLimit question) 0
                (Question.testCases question) Grading.init)
      as (_ & _ & _ & -> & _).
    simpl. lia.
  - unfold tally.
    destruct (loop_fields compilex code language
                (Question.timeLimit question) 0
                (Question.testCases question) Grading.init)
      as (_ & _ & -> & _ & _).
    simpl. lia.
Qed.

(** C1.  A submission whose program prints [2] where the only test case,
    worth 5 marks, expects [1]: it is stored as completed with one failed
    result whose [maxMarks] is 5, and with [totalMarks] 0, the sum of the
    marks awarded, not 5, the sum of [maxMarks].  [marksAwarded] is the sum
    of the marks awarded, as claimed. *)
Theorem C1_totalMarks_overwritten_on_save :
  exists db' s,
    processSubmission no_faults (prints (lit "2")) "s1"
      one_case_question (lit "print(2)") "python" [pending_submission]
    = (db', Returned tt)
    /\ stored "s1" db' = Some s
    /\ Submission.status s = Submission.completed
    /\ map TestCaseResult.status (Submission.testCaseResults s) = [failed]
    /\ Zsum (map TestCaseResult.maxMarks (Submission.testCaseResults s)) = 5
    /\ Submission.totalMarks s = 0
    /\ Submission.marksAwarded s
       = Zsum (map TestCaseResult.marksAwarded (Submission.testCaseResults s)).
Proof. eexists _, _. vm_compute. split_and!; reflexivity. Qed.

(** ** The time limit *)





(** ** The score percentage *)

Section Doubles.
Implicit Types (x q : Q) (c k : Z).

(** [to_double] against the binary64 operations that the Standard Library
    specifies: quotients and products that are not doubles, a negative
    number, a tie above 2^53, and subnormal numbers. *)
Lemma to_double_matches_binary64 :
  let smallest := S754_finite false 1 (- 1074) in
  is_to_double (29 # 200) (binary64_div (binary64 29) (binary64 200)) = true
  /\ is_to_double (to_double (29 # 200) * 100)
       (binary64_mul (binary64_div (binary64 29) (binary64 200))
                     (binary64 100)) = true
  /\ is_to_double (1 # 3) (binary64_div (binary64 1) (binary64 3)) = true
  /\ is_to_double (to_double (1 # 3) * 100)
       (binary64_mul (binary64_div (binary64 1) (binary64 3))
                     (binary64 100)) = true
  /\ is_to_double (- (7 # 11)) (binary64_div (binary64 (- 7)) (binary64 11))
     = true
  /\ is_to_double (9007199254740995 # 1)
       (binary64_add (binary64 9007199254740992) (binary64 3)) = true
  /\ is_to_double (123456789 # 1000000007)
       (binary64_div (binary64 123456789) (binary64 1000000007)) = true
  /\ is_to_double (pow2 (- 1074) * (3 # 2))
       (binary64_mul smallest (binary64_div (binary64 3) (binary64 2)))
     = true
  /\ is_to_double (pow2 (- 1074) * (1 # 2))
       (binary64_div smallest (binary64 2)) = true
  /\ is_to_double (pow2 (- 1030) / 3)
       (binary64_div (S754_finite false 4503599627370496 (- 1082))
                     (binary64 3)) = true.
Proof. vm_compute. repeat split. Qed.

Lemma inject_pow_pos k : 0 <= k -> (0 < inject_Z (2 ^ k))%Q.
Proof.
  intros H. change 0%Q with (inject_Z 0). rewrite <- Zlt_Qlt.
  by apply Z.pow_pos_nonneg.
Qed.

Lemma pow2_pos k : (0 < pow2 k)%Q.
Proof.
  unfold pow2. destruct (Z.leb_spec 0 k).
  - by apply inject_pow_pos.
  - apply Qinv_lt_0_compat, inject_pow_pos. lia.
Qed.

Lemma pow2_inv k : (pow2 k * pow2 (- k) == 1)%Q.
Proof.
  unfold pow2. destruct (Z.leb_spec 0 k), (Z.leb_spec 0 (- k)).
  - assert (k = 0) as -> by lia. reflexivity.
  - rewrite Z.opp_involutive. apply Qmult_inv_r.
    apply Qnot_eq_sym, Qlt_not_eq, inject_pow_pos. lia.
  - rewrite Qmult_comm. apply Qmult_inv_r.
    apply Qnot_eq_sym, Qlt_not_eq, inject_pow_pos. lia.
  - lia.
Qed.

Lemma pow2_sub a b :
  0 <= a -> 0 <= b -> (pow2 (a - b) * inject_Z (2 ^ b) == inject_Z (2 ^ a))%Q.
Proof.
  intros Ha Hb. unfold pow2. destruct (Z.leb_spec 0 (a - b)).
  - rewrite <- inject_Z_mult, <- Z.pow_add_r by lia.
    replace (a - b + b) with a by lia. reflexivity.
  - assert (E : 2 ^ b = 2 ^ (- (a - b)) * 2 ^ a).
    { rewrite <- Z.pow_add_r by lia. f_equal. lia. }
    assert (P : ~ (inject_Z (2 ^ (- (a - b))) == 0)%Q).
    { apply Qnot_eq_sym, Qlt_not_eq, inject_pow_pos. lia. }
    rewrite E, inject_Z_mult. field. exact P.
Qed.

(** [exponent x] is the binary exponent of a positive [x]. *)
Lemma exponent_spec x :
  (0 < x)%Q ->
  (pow2 (exponent x) <= x)%Q /\ (x < pow2 (exponent x + 1))%Q.
Proof.
  intros Hx. destruct x as [n d]. unfold exponent. cbn [Qnum Qden].
  assert (Hn : 0 < n). { unfold Qlt in Hx. simpl in Hx. lia. }
  set (a := Z.log2 n). set (b := Z.log2 (Z.pos d)).
  destruct (Z.log2_spec n Hn) as [A1 A2]. fold a in A1, A2.
  destruct (Z.log2_spec (Z.pos d) eq_refl) as [B1 B2]. fold b in B1, B2.
  assert (Ha : 0 <= a) by apply Z.log2_nonneg.
  assert (Hb : 0 <= b) by apply Z.log2_nonneg.
  rewrite Z.pow_succ_r in A2, B2 by done.
  assert (Pa : 0 < 2 ^ a) by (by apply Z.pow_pos_nonneg).
  assert (Pb : 0 < 2 ^ b) by (by apply Z.pow_pos_nonneg).
  assert (Low : forall e c v, 0 <= c ->
             (pow2 e * inject_Z (2 ^ c) == inject_Z v)%Q ->
             v * Z.pos d <= n * 2 ^ c -> (pow2 e <= n # d)%Q).
  { intros e c v Hc E H.
    apply (Qmult_le_r _ _ (inject_Z (2 ^ c))); [by apply inject_pow_pos|].
    rewrite E. unfold Qle, Qmult, inject_Z. simpl. lia. }
  assert (High : forall e c v, 0 <= c ->
             (pow2 e * inject_Z (2 ^ c) == inject_Z v)%Q ->
             n * 2 ^ c < v * Z.pos d -> (n # d < pow2 e)%Q).
  { intros e c v Hc E H.
    apply (Qmult_lt_r _ _ (inject_Z (2 ^ c))); [by apply inject_pow_pos|].
    rewrite E. unfold Qlt, Qmult, inject_Z. simpl. lia. }
  destruct (Qle_bool (pow2 (a - b)) (n # d)) eqn:T.
  - apply Qle_bool_iff in T. split; [done|].
    apply (High _ b (2 ^ (a + 1))); [done| |].
    + replace (a - b + 1) with (a + 1 - b) by lia. apply pow2_sub; lia.
    + rewrite Z.pow_add_r by lia. change (2 ^ 1) with 2. nia.
  - assert (T' : (n # d < pow2 (a - b))%Q).
    { apply Qnot_le_lt. intros H%Qle_bool_iff. congruence. }
    replace (a - b - 1 + 1) with (a - b) by lia. split; [|done].
    apply (Low _ (b + 1) (2 ^ a)); [lia| |].
    + replace (a - b - 1) with (a - (b + 1)) by lia. apply pow2_sub; lia.
    + rewrite Z.pow_add_r by lia. change (2 ^ 1) with 2. nia.
Qed.

(** [nearest_even q] is an integer nearest to [q]. *)
Lemma nearest_even_spec q :
  (Qabs (q - inject_Z (nearest_even q)) <= 1 # 2)%Q.
Proof.
  unfold nearest_even.
  pose proof (Qfloor_le q) as Hlo. pose proof (Qlt_floor q) as Hhi.
  set (f := Qfloor q) in *. rewrite inject_Z_plus in Hhi.
  change (inject_Z 1) with 1%Q in Hhi.
  apply Qabs_Qle_condition.
  destruct (Qcompare_spec (q - inject_Z f) (1 # 2)) as [E|L|G];
    [destruct (Z.even f)|..];
    rewrite ?inject_Z_plus; change (inject_Z 1) with 1%Q; lra.
Qed.

(** A positive [x] is rounded to a multiple of [2^(e-52)], [e] being its
    exponent or -1022 if that is larger, at most half of that unit away. *)
Lemma positive_to_double_nearest x :
  (0 < x)%Q ->
  let ulp := pow2 (Z.max (exponent x) (- 1022) - 52) in
  (exists m : Z, positive_to_double x == inject_Z m * ulp)%Q
  /\ (Qabs (x - positive_to_double x) <= (1 # 2) * ulp)%Q.
Proof.
  intros Hx ulp. unfold positive_to_double.
  set (k := 52 - Z.max (exponent x) (- 1022)).
  assert (Eu : ulp = pow2 (- k)) by (unfold ulp, k; f_equal; lia).
  rewrite Eu. split; [by eexists|].
  pose proof (nearest_even_spec (x * pow2 k)) as H.
  set (m := nearest_even (x * pow2 k)) in *.
  pose proof (pow2_pos (- k)) as Hp.
  assert (E : (x - inject_Z m * pow2 (- k)
               == (x * pow2 k - inject_Z m) * pow2 (- k))%Q).
  { rewrite <- (Qmult_1_r x) at 1. rewrite <- (pow2_inv k). ring. }
  rewrite E, Qabs_Qmult, (Qabs_pos (pow2 (- k))) by (by apply Qlt_le_weak).
  apply Qmult_le_compat_r; [done|by apply Qlt_le_weak].
Qed.

Lemma pow2_nonneg k : 0 <= k -> pow2 k = inject_Z (2 ^ k).
Proof. intros H. unfold pow2. by destruct (Z.leb_spec 0 k); [|lia]. Qed.

Lemma pow2_opp k : 0 <= k -> (pow2 (- k) == / inject_Z (2 ^ k))%Q.
Proof.
  intros H. unfold pow2. destruct (Z.leb_spec 0 (- k)).
  - assert (k = 0) as -> by lia. reflexivity.
  - by rewrite Z.opp_involutive.
Qed.

Lemma exponent_le x c :
  (0 < x)%Q -> (x <= inject_Z c)%Q -> c <= 2 ^ 52 -> exponent x <= 52.
Proof.
  destruct x as [n d]. unfold Qlt, Qle, exponent. cbn [Qnum Qden inject_Z].
  intros Hpos Hle Hc.
  assert (Hn : n <= Z.pos d * 2 ^ 52) by nia.
  apply Z.log2_le_mono in Hn. rewrite Z.log2_mul_pow2 in Hn by lia.
  destruct (Qle_bool _ _); lia.
Qed.

Lemma nearest_even_between q c :
  (0 <= q <= inject_Z c)%Q -> 0 <= nearest_even q <= c.
Proof.
  intros [H0 Hc]. unfold nearest_even.
  pose proof (Qfloor_resp_le _ _ H0) as F0. change (Qfloor 0) with 0 in F0.
  pose proof (Qfloor_resp_le _ _ Hc) as Fc. rewrite Qfloor_Z in Fc.
  assert (Hfull : Qfloor q = c -> (q - inject_Z (Qfloor q) <= 0)%Q).
  { intros ->. apply (Qplus_le_l _ _ (inject_Z c)). ring_simplify. exact Hc. }
  destruct (Qcompare_spec (q - inject_Z (Qfloor q)) (1 # 2)) as [E|L|G].
  - assert (Qfloor q <> c).
    { intros Hf%Hfull. rewrite E in Hf. by apply Hf. }
    destruct (Z.even _); lia.
  - lia.
  - assert (Qfloor q <> c).
    { intros Hf%Hfull. apply (Qlt_not_le _ _ G).
      apply Qle_trans with 0%Q; done. }
    lia.
Qed.

(** Rounding to a double keeps a value between 0 and an integer that is at
    most 2^52. *)
Lemma to_double_between x c :
  1 <= c <= 2 ^ 52 -> (0 <= x <= inject_Z c)%Q ->
  (0 <= to_double x <= inject_Z c)%Q.
Proof.
  intros Hc [H0 Hx]. unfold to_double.
  assert (Hc0 : (0 <= inject_Z c)%Q).
  { change 0%Q with (inject_Z 0). rewrite <- Zle_Qle. lia. }
  destruct (Qcompare_spec x 0) as [E|L|G]; [done| |].
  - exfalso. by apply (Qlt_not_le _ _ L).
  - unfold positive_to_double.
    pose proof (exponent_le x c G Hx (proj2 Hc)) as He.
    set (k := 52 - Z.max (exponent x) (- 1022)).
    assert (Hk : 0 <= k) by lia.
    rewrite (pow2_nonneg k Hk), (pow2_opp k Hk).
    assert (Hp : (0 < inject_Z (2 ^ k))%Q).
    { change 0%Q with (inject_Z 0). rewrite <- Zlt_Qlt. lia. }
    destruct (nearest_even_between (x * inject_Z (2 ^ k)) (c * 2 ^ k))
      as [M0 Mc].
    { split.
      - apply Qmult_le_0_compat; [done|]. by apply Qlt_le_weak.
      - rewrite inject_Z_mult. apply Qmult_le_compat_r; [done|].
        by apply Qlt_le_weak. }
    split.
    + apply Qle_shift_div_l; [done|]. rewrite Qmult_0_l.
      change 0%Q with (inject_Z 0). by rewrite <- Zle_Qle.
    + apply Qle_shift_div_r; [done|].
      rewrite <- inject_Z_mult, <- Zle_Qle. done.
Qed.

Lemma Math_round_between x (lo hi : Z) :
  (inject_Z lo <= x <= inject_Z hi)%Q -> lo <= Math_round x <= hi.
Proof.
  intros [H1 H2]. unfold Math_round. split.
  - rewrite <- (Qfloor_Z lo). apply Qfloor_resp_le.
    apply Qle_trans with x; [done|].
    rewrite <- (Qplus_0_r x) at 1. by apply Qplus_le_compat; [apply Qle_refl|].
  - assert (E : Qfloor (inject_Z hi + (1 # 2)) = hi).
    { unfold Qfloor, Qplus, inject_Z. cbn [Qnum Qden].
      symmetry. apply Z.div_unique with 1; lia. }
    rewrite <- E. apply Qfloor_resp_le.
    by apply Qplus_le_compat; [|apply Qle_refl].
Qed.
End Doubles.

Lemma record_marks_bounds (r : Call Outcome.t) (testCase : TestCase.t) :
  0 <= TestCase.marks testCase ->
  0 <= TestCaseResult.marksAwarded (Grading.record r testCase)
    <= TestCaseResult.maxMarks (Grading.record r testCase).
Proof.
  intros H. destruct r as [result|message]; simpl; [|lia].
  destruct (Grading.isCorrect result testCase); lia.
Qed.

Lemma recorded_marks_bounds compilex code language timeLimit i testCases :
  Forall (fun testCase => 0 <= TestCase.marks testCase) testCases ->
  let rs := recorded compilex code language timeLimit i testCases in
  0 <= Zsum (map TestCaseResult.marksAwarded rs)
    <= Zsum (map TestCaseResult.maxMarks rs).
Proof.
  intros H. revert i. induction H as [|testCase rest Hm _ IH]; intros i.
  - simpl. unfold Zsum. simpl. lia.
  - cbn zeta. rewrite recorded_cons. cbn [map].
    specialize (IH (S i)). cbn zeta in IH. unfold Zsum in *. cbn [foldr].
    pose proof (record_marks_bounds
                  (executeCode (compilex i) code language
                     (TestCase.input testCase) timeLimit) testCase Hm).
    lia.
Qed.

Lemma tally_marks_bounds compilex code language question :
  Forall (fun testCase => 0 <= TestCase.marks testCase)
         (Question.testCases question) ->
  0 <= Grading.obtainedMarks (tally compilex code language question)
    <= Grading.totalMarks (tally compilex code language question).
Proof.
  intros H. unfold tally.
  destruct (loop_fields compilex code language (Question.timeLimit question)
              0 (Question.testCases question) Grading.init)
    as (_ & _ & -> & -> & _).
  pose proof (recorded_marks_bounds compilex code language
                (Question.timeLimit question) 0 _ H) as B.
  cbn zeta in B. simpl. lia.
Qed.

Lemma percentage_bounds (obtainedMarks totalMarks : Z) :
  0 <= obtainedMarks <= totalMarks ->
  0 <= Grading.scorePercentage obtainedMarks totalMarks <= 100.
Proof.
  intros [Ho Hot]. unfold Grading.scorePercentage.
  destruct (Z.gtb_spec totalMarks 0) as [Ht|Ht]; [|lia].
  apply Math_round_between. unfold Number_mul, Number_div.
  apply (to_double_between _ 100); [lia|].
  assert (B : (0 <= to_double (inject_Z obtainedMarks / inject_Z totalMarks)
               <= inject_Z 1)%Q).
  { apply (to_double_between _ 1); [lia|].
    assert (Hpos : (0 < inject_Z totalMarks)%Q).
    { change 0%Q with (inject_Z 0). rewrite <- Zlt_Qlt. lia. }
    split.
    - apply Qle_shift_div_l; [done|]. rewrite Qmult_0_l.
      change 0%Q with (inject_Z 0). rewrite <- Zle_Qle. lia.
    - apply Qle_shift_div_r; [done|].
      change (inject_Z 1) with 1%Q. rewrite Qmult_1_l.
      rewrite <- Zle_Qle. lia. }
  destruct B as [B0 B1]. split.
  - apply Qmult_le_0_compat; [done|]. done.
  - change (inject_Z 100) with (1 * 100)%Q.
    apply Qmult_le_compat_r; [exact B1|done].
Qed.

(** C4.  The percentage stored with a graded submission is the one the loop's
    accumulators give: [Math.round((obtainedMarks / totalMarks) * 100)] when
    [totalMarks] is positive, the quotient and the product being doubles,
    and 0 when [totalMarks] is 0.  When no test case has negative marks,
    [totalMarks] is not negative and the percentage lies between 0 and
    100. *)
Theorem C4_scorePercentage (compilex : nat -> Invoker) (code : jsstring)
    (language : string) (question : Question.t)
    (Hmarks : Forall (fun testCase => 0 <= TestCase.marks testCase)
                     (Question.testCases question)) :
  let a := tally compilex code language question in
  let obtainedMarks := Grading.obtainedMarks a in
  let totalMarks := Grading.totalMarks a in
  let scorePercentage := Grading.scorePercentage obtainedMarks totalMarks in
  (forall s,
      Submission.scorePercentage (Submission.preSave (Grading.finish a s))
      = scorePercentage)
  /\ scorePercentage
     = (if totalMarks >? 0
        then Math_round
               (to_double
                  (to_double (inject_Z obtainedMarks / inject_Z totalMarks)
                   * 100))%Q
        else 0)
  /\ 0 <= totalMarks
  /\ (totalMarks = 0 -> scorePercentage = 0)
  /\ 0 <= scorePercentage <= 100.
Proof.
  intros a obtainedMarks totalMarks scorePercentage.
  pose proof (tally_marks_bounds compilex code language question Hmarks) as B.
  fold a in B. fold obtainedMarks totalMarks in B.
  split; [|split; [|split; [|split]]].
  - done.
  - done.
  - lia.
  - intros E. subst scorePercentage. unfold Grading.scorePercentage.
    by rewrite E.
  - by apply percentage_bounds.
Qed.

(** C4 for a submission that passes both test cases of [sample_question];
    29 marks of 200 give 14. *)
Lemma C4_scorePercentage_witness :
  let a := tally (prints (lit "1")) (lit "print(1)") "python"
                 sample_question in
  Grading.obtainedMarks a = 10 /\ Grading.totalMarks a = 10
  /\ Grading.scorePercentage 29 200 = 14
  /\ 0 <= Grading.scorePercentage (Grading.obtainedMarks a)
            (Grading.totalMarks a) <= 100.
Proof.
  split; [reflexivity|]. split; [reflexivity|].
  split; [vm_compute; reflexivity|].
  apply (C4_scorePercentage (prints (lit "1")) (lit "print(1)") "python"
           sample_question).
  repeat constructor; simpl; lia.
Defined.

(** ** Creating a submission *)

Section Validation.
Variables (contests : list Contest.t) (w : World.t) (req : Request.t)
          (db : Db.t).


(** What an accepted request has passed, whatever the faults. *)
Lemma validate_accepts contest question :
  validate contests w req db = inr (contest, question) ->
  findContest (Request.contestId req) contests = Some contest
  /\ findQuestion (Request.questionId req) contest = Some question
  /\ Contest.isActive contest = true
  /\ Contest.startTime contest <= World.now w <= Contest.endTime contest
  /\ Request.language req ∈ Contest.allowedLanguages contest
  /\ Db.count (Request.contestId req) (Request.questionId req)
              (Request.user_id req) db < Contest.maxAttempts contest.
Proof.
  unfold validate, Db.countDocuments.
  destruct (_ || _); [done|].
  destruct (World.faults w FindContest); [done|].
  destruct (findContest _ _) as [c|]; [|done].
  destruct (findQuestion _ _) as [q|] eqn:EQ; [|done].
  destruct (Contest.isActive c) eqn:EA; [|done]. cbn [negb orb].
  destruct (Z.ltb_spec (Contest.endTime c) (World.now w)); [done|].
  destruct (Z.gtb_spec (Contest.startTime c) (World.now w)); [done|].
  case_bool_decide; [|done]. cbn [negb].
  destruct (World.faults w CountSubmissions); [done|].
  destruct (Z.geb_spec
              (Db.count (Request.contestId req) (Request.questionId req)
                        (Request.user_id req) db)
              (Contest.maxAttempts c)); [done|].
  intros [= <- <-]. split_and!; (done || lia).
Qed.

End Validation.

(** ** The attempt limit *)

Section Attempts.
Implicit Types (db : Db.t) (doc s : Submission.t).

Lemma count_keys contestId questionId userId db :
  Db.count contestId questionId userId db
  = Z.of_nat (length (List.filter (matches_keys contestId questionId userId)
                                  (map keys db))).
Proof.
  unfold Db.count. f_equal. induction db as [|s db IH]; [done|].
  cbn [map List.filter].
  change (matches_keys contestId questionId userId (keys s))
    with (Db.matches contestId questionId userId s).
  destruct (Db.matches contestId questionId userId s); simpl; by rewrite IH.
Qed.

Lemma count_same_keys contestId questionId userId db db' :
  map keys db' = map keys db ->
  Db.count contestId questionId userId db'
  = Db.count contestId questionId userId db.
Proof. intros H. by rewrite !count_keys, H. Qed.

Lemma ids_of_keys db : map Submission._id db = map fst (map keys db).
Proof. by rewrite map_map. Qed.

Lemma stored_in id db s : stored id db = Some s -> In s db.
Proof. unfold stored. intros H. by apply find_some in H as [H _]. Qed.

Lemma unique_id db s s' :
  NoDup (map Submission._id db) -> In s db -> In s' db ->
  Submission._id s = Submission._id s' -> s = s'.
Proof.
  induction db as [|x db IH]; [done|].
  cbn [map]. intros N [->|H1] [->|H2] E; try done.
  - apply NoDup_cons in N as [N _]. exfalso. apply N.
    rewrite E. apply list_elem_of_In, in_map. done.
  - apply NoDup_cons in N as [N _]. exfalso. apply N.
    rewrite <- E. apply list_elem_of_In, in_map. done.
  - apply NoDup_cons in N as [_ N]. by apply IH.
Qed.

Lemma replace_keys id db doc s :
  NoDup (map Submission._id db) -> stored id db = Some s ->
  keys doc = keys s ->
  map keys (Db.replace doc db) = map keys db.
Proof.
  intros N Hs K. unfold Db.replace. rewrite map_map. apply map_ext_in.
  intros x Hx. destruct (Db.has_id (Submission._id doc) x) eqn:E; [|done].
  apply has_id_eq in E.
  assert (x = s) as ->; [|done].
  apply (unique_id db); [done|done|by eapply stored_in|].
  rewrite <- E. by injection K.
Qed.

Lemma save_keys fault id db doc s db' :
  NoDup (map Submission._id db) -> stored id db = Some s ->
  keys doc = keys s ->
  Db.save fault doc db = Returned db' ->
  map keys db' = map keys db
  /\ stored id db' = Some (Submission.preSave doc).
Proof.
  intros N Hs K. unfold Db.save. destruct fault; [done|].
  assert (Hid : Submission._id doc = id).
  { injection K as -> _. by eapply stored_id. }
  rewrite Hid. fold (stored id db). rewrite Hs. intros [= <-]. split.
  - by eapply replace_keys.
  - by eapply stored_replace.
Qed.

Lemma NoDup_same_keys db db' :
  map keys db' = map keys db ->
  NoDup (map Submission._id db) -> NoDup (map Submission._id db').
Proof. intros H. by rewrite !ids_of_keys, H. Qed.

Lemma recover_keys faults id message db :
  NoDup (map Submission._id db) ->
  map keys (recover faults id message db).1 = map keys db.
Proof.
  intros N. unfold recover, Db.findById.
  destruct (faults FindForError); [done|].
  fold (stored id db). destruct (stored id db) as [s|] eqn:Hs; [|done].
  destruct (Db.save _ _ db) as [db'|] eqn:E; [|done].
  by eapply save_keys in E as [E _].
Qed.

Lemma processSubmission_keys faults compilex id question code language db :
  NoDup (map Submission._id db) ->
  map keys (processSubmission faults compilex id question code language
                              db).1
  = map keys db.
Proof.
  intros N. unfold processSubmission, Db.findById.
  destruct (faults FindSubmission); [by apply recover_keys|].
  fold (stored id db). destruct (stored id db) as [s|] eqn:Hs; [|done].
  destruct (Db.save (faults SaveRunning) _ db) as [db1|] eqn:E1;
    [|by apply recover_keys].
  eapply save_keys in E1 as [K1 S1]; [|done..].
  pose proof (NoDup_same_keys _ _ K1 N) as N1.
  destruct (Db.save (faults SaveCompleted) _ db1) as [db2|] eqn:E2.
  - eapply save_keys in E2 as [K2 _]; [|done..]. simpl. congruence.
  - rewrite recover_keys by done. done.
Qed.

Lemma stored_none_fresh id db :
  stored id db = None -> id ∉ map Submission._id db.
Proof.
  unfold stored. intros H Hin. apply list_elem_of_In, in_map_iff in Hin
    as (s & E & Hs).
  apply (find_none _ _ H) in Hs. apply not_true_iff_false in Hs.
  apply Hs, has_id_eq. done.
Qed.

(** One request: the identifiers stay distinct, and the count of a pair
    grows by one at most, and only when the request is for that pair and has
    passed the checks. *)
Lemma submit_step contests w req db contestId questionId userId :
  NoDup (map Submission._id db) ->
  let db' := (submit contests w req db).2 in
  NoDup (map Submission._id db')
  /\ (Db.count contestId questionId userId db'
      = Db.count contestId questionId userId db
      \/ (exists contest question,
             validate contests w req db = inr (contest, question)
             /\ Request.contestId req = contestId
             /\ Request.questionId req = questionId
             /\ Request.user_id req = userId
             /\ Db.count contestId questionId userId db'
                = Db.count contestId questionId userId db + 1)).
Proof.
  intros N. unfold submit.
  destruct (validate contests w req db) as [r|[contest question]] eqn:V;
    [by auto|].
  unfold Db.insert. destruct (World.faults w SaveNew); [by auto|].
  destruct (negb (Submission.valid _)); [by auto|].
  cbn [Submission._id newSubmission].
  fold (stored (World.new_id w) db).
  destruct (stored (World.new_id w) db) eqn:Hs; [by auto|].
  set (doc := Submission.preSave (newSubmission w req question)).
  assert (N1 : NoDup (map Submission._id (db ++ [doc]))).
  { rewrite map_app. apply NoDup_app. split; [done|]. split.
    - intros x Hx Hx'. apply list_elem_of_singleton in Hx' as ->.
      by apply stored_none_fresh in Hs.
    - repeat constructor. by intros ?%elem_of_nil. }
  pose proof (processSubmission_keys (World.faults w) (World.compilex w)
                (World.new_id w) question (Request.code req)
                (Request.language req) (db ++ [doc]) N1) as K.
  destruct (processSubmission _ _ _ _ _ _ _) as [db2 [u|m]]; cbn [fst] in K.
  - assert (E : (let (r, d) :=
                   match Db.findById (World.faults w FindUpdated)
                           (World.new_id w) db2 with
                   | Returned (Some updatedSubmission) =>
                       (Created (World.new_id w) updatedSubmission, db2)
                   | Returned None =>
                       (ProcessingFailed (World.new_id w)
                          (lit "Cannot read properties of null"), db2)
                   | Thrown m => (ProcessingFailed (World.new_id w) m, db2)
                   end in d) = db2).
    { by destruct (Db.findById _ _ _) as [[?|]|]. }
    cbn zeta. unfold snd. rewrite E. split; [by eapply NoDup_same_keys|].
    rewrite (count_same_keys _ _ _ _ _ K).
    unfold Db.count. rewrite List.filter_app, length_app. cbn [List.filter].
    destruct (Db.matches contestId questionId userId doc) eqn:M.
    + right. exists contest, question. split; [done|].
      unfold Db.matches in M. cbn in M.
      apply andb_prop in M as [M M3]. apply andb_prop in M as [M1 M2].
      apply String.eqb_eq in M1, M2, M3. subst. simpl. split_and!; (done || lia).
    + left. simpl. lia.
  - cbn zeta. cbn [snd]. split; [by eapply NoDup_same_keys|].
    rewrite (count_same_keys _ _ _ _ _ K).
    unfold Db.count. rewrite List.filter_app, length_app. cbn [List.filter].
    destruct (Db.matches contestId questionId userId doc) eqn:M.
    + right. exists contest, question. split; [done|].
      unfold Db.matches in M. cbn in M.
      apply andb_prop in M as [M M3]. apply andb_prop in M as [M1 M2].
      apply String.eqb_eq in M1, M2, M3. subst. simpl. split_and!; (done || lia).
    + left. simpl. lia.
Qed.

(** Served one after the other from a collection in which a pair is within
    its limit, requests never take it past the limit. *)
Lemma serve_keeps_limit contests requests db contest questionId userId :
  findContest (Contest._id contest) contests = Some contest ->
  NoDup (map Submission._id db) ->
  Db.count (Contest._id contest) questionId userId db
  <= Contest.maxAttempts contest ->
  Db.count (Contest._id contest) questionId userId
           (serve contests requests db)
  <= Contest.maxAttempts contest.
Proof.
  intros Hc. revert db. induction requests as [|[w req] rest IH];
    intros db N B; [done|].
  cbn [serve].
  destruct (submit_step contests w req db (Contest._id contest)
              questionId userId N) as [N' H].
  apply IH; [done|].
  destruct H as [-> | (c & q & V & E1 & E2 & E3 & ->)]; [done|].
  apply validate_accepts in V as (Hc' & _ & _ & _ & _ & Hlt).
  rewrite E1, E2, E3 in *. rewrite Hc in Hc'. injection Hc' as <-. lia.
Qed.
End Attempts.




(** ** The leaderboard *)

Section JSMapFacts.
Context {V : Type}.
Implicit Types (m : JSMap.t V) (k : string) (v : V).

Lemma get_set_eq k v m : JSMap.get k (JSMap.set k v m) = Some v.
Proof.
  induction m as [|[k' v'] m IH]; simpl.
  - by rewrite String.eqb_refl.
  - destruct (String.eqb k k') eqn:E; simpl; rewrite E; [done|exact IH].
Qed.

Lemma get_set_ne k k' v m :
  k <> k' -> JSMap.get k' (JSMap.set k v m) = JSMap.get k' m.
Proof.
  intros H. induction m as [|[k0 v0] m IH]; simpl.
  - destruct (String.eqb_spec k' k); [congruence|done].
  - destruct (String.eqb_spec k k0) as [->|H0]; simpl.
    + destruct (String.eqb_spec k' k0); [congruence|done].
    + destruct (String.eqb k' k0); [done|exact IH].
Qed.

Lemma get_in k v m : JSMap.get k m = Some v -> In (k, v) m.
Proof.
  induction m as [|[k0 v0] m IH]; simpl; [done|].
  destruct (String.eqb_spec k k0) as [->|_]; [|by auto].
  intros [= ->]. by left.
Qed.

Lemma set_keys k v m :
  map fst (JSMap.set k v m)
  = if JSMap.has k m then map fst m else map fst m ++ [k].
Proof.
  unfold JSMap.has. induction m as [|[k0 v0] m IH]; simpl; [done|].
  destruct (String.eqb k k0); simpl; [done|]. rewrite IH.
  by destruct (JSMap.get k m).
Qed.

Lemma get_none_fresh k m : JSMap.get k m = None -> k ∉ map fst m.
Proof.
  induction m as [|[k0 v0] m IH]; simpl; [by intros _ ?%elem_of_nil|].
  destruct (String.eqb_spec k k0); [done|].
  intros H [->|Hin]%elem_of_cons; [done|]. by apply IH.
Qed.

Lemma set_keys_once k v m : keys_once m -> keys_once (JSMap.set k v m).
Proof.
  unfold keys_once. rewrite set_keys. unfold JSMap.has.
  destruct (JSMap.get k m) eqn:E; [done|]. intros N.
  apply NoDup_app. split; [done|]. split.
  - intros x Hx ->%list_elem_of_singleton. by apply get_none_fresh in E.
  - repeat constructor. by intros ?%elem_of_nil.
Qed.

Lemma get_in_once k v m :
  keys_once m -> In (k, v) m -> JSMap.get k m = Some v.
Proof.
  unfold keys_once. induction m as [|[k0 v0] m IH]; simpl; [done|].
  intros N%NoDup_cons [[= -> ->]|H].
  - by rewrite String.eqb_refl.
  - destruct N as [N1 N2]. destruct (String.eqb_spec k k0) as [->|_].
    + exfalso. apply N1. apply list_elem_of_In.
      change k0 with (fst (k0, v)). by apply in_map.
    + by apply IH.
Qed.
End JSMapFacts.

Section Bests.
Implicit Types (u q : string) (subs : list Submission.t) (s : Submission.t).

Lemma by_user_snoc u subs s :
  by_user u (subs ++ [s])
  = by_user u subs
    ++ (if String.eqb u (Submission.userId s) then [s] else []).
Proof. unfold by_user. rewrite List.filter_app. done. Qed.

Lemma max_list_nonneg (l : list Z) : 0 <= foldr Z.max 0 l.
Proof. induction l; simpl; lia. Qed.

Lemma max_list_snoc (l : list Z) (m : Z) :
  foldr Z.max 0 (l ++ [m]) = Z.max (foldr Z.max 0 l) m.
Proof. induction l as [|x l IH]; simpl; [lia|]. rewrite IH. lia. Qed.

Lemma best_nonneg u q subs : 0 <= best u q subs.
Proof. apply max_list_nonneg. Qed.

Lemma best_snoc u q subs s :
  best u q (subs ++ [s])
  = if String.eqb u (Submission.userId s)
       && String.eqb q (Submission.questionId s)
    then Z.max (best u q subs) (Submission.marksAwarded s)
    else best u q subs.
Proof.
  unfold best, by_user_question. rewrite by_user_snoc, List.filter_app.
  destruct (String.eqb u (Submission.userId s)); simpl.
  - destruct (String.eqb q (Submission.questionId s)); simpl.
    + rewrite map_app. apply max_list_snoc.
    + by rewrite app_nil_r.
  - by rewrite app_nil_r.
Qed.


Lemma Zsum_map_update (f g : string -> Z) (qs : list string) (q0 : string) :
  NoDup qs -> In q0 qs -> (forall q, q <> q0 -> g q = f q) ->
  Zsum (map g qs) = Zsum (map f qs) + (g q0 - f q0).
Proof.
  intros N Hin Hfg. induction N as [|x qs Hx N IH]; [done|].
  unfold Zsum in *. cbn [map foldr]. destruct Hin as [->|Hin].
  - assert (E : map g qs = map f qs).
    { apply map_ext_in. intros q Hq. apply Hfg. intros ->.
      by apply Hx, list_elem_of_In. }
    rewrite E. lia.
  - rewrite (IH Hin). rewrite (Hfg x); [lia|]. intros ->.
    by apply Hx, list_elem_of_In.
Qed.

Lemma Zsum_zero (f : string -> Z) (qs : list string) :
  (forall q, f q = 0) -> Zsum (map f qs) = 0.
Proof.
  intros H. unfold Zsum. induction qs as [|q qs IH]; [done|].
  cbn [map foldr]. rewrite H, IH. done.
Qed.

Lemma best_none u q subs : by_user u subs = [] -> best u q subs = 0.
Proof. unfold best, by_user_question. by intros ->. Qed.

Lemma tracks_fresh u subs s :
  by_user u subs = [] -> Submission.userId s = u ->
  tracks u subs (Leaderboard.fresh s).
Proof.
  intros H Hu. unfold tracks. split; [done|]. split; [|split].
  - intros q. rewrite best_none by done. done.
  - intros qs _ _. split.
    + rewrite Zsum_zero; [done|]. intros q. by apply best_none.
    + rewrite Zsum_zero; [done|]. intros q. unfold solved.
      by rewrite best_none.
  - by rewrite H.
Qed.

(** The body of [forEach] keeps the account of the user's submissions. *)
Lemma update_tracks u subs s e :
  tracks u subs e -> Submission.userId s = u ->
  tracks u (subs ++ [s]) (Leaderboard.update s e).
Proof.
  intros (Hid & Hcur & Htot & Htime) Hu. unfold tracks.
  pose proof (best_nonneg u (Submission.questionId s) subs) as Hnn.
  assert (Hbest : forall q,
             best u q (subs ++ [s])
             = if String.eqb q (Submission.questionId s)
               then Z.max (best u q subs) (Submission.marksAwarded s)
               else best u q subs).
  { intros q. rewrite best_snoc, <- Hu, String.eqb_refl. done. }
  split; [done|]. split; [|split].
  - intros q. rewrite Hbest. unfold Leaderboard.update, Leaderboard.currentScore.
    cbn [UserScore.questionScores].
    fold (Leaderboard.currentScore (Submission.questionId s) e).
    rewrite (Hcur (Submission.questionId s)).
    destruct (Z.gtb_spec (Submission.marksAwarded s)
                (best u (Submission.questionId s) subs)) as [Hgt|Hle].
    + destruct (String.eqb_spec q (Submission.questionId s)) as [->|Hq].
      * rewrite lookup_insert_eq. simpl. lia.
      * rewrite lookup_insert_ne by done. apply Hcur.
    + destruct (String.eqb_spec q (Submission.questionId s)) as [->|Hq].
      * fold (Leaderboard.currentScore (Submission.questionId s) e).
        rewrite Hcur. lia.
      * apply Hcur.
  - intros qs N Hcover.
    assert (Hq0 : In (Submission.questionId s) qs).
    { apply Hcover. rewrite by_user_snoc, <- Hu, String.eqb_refl.
      apply in_or_app. right. by left. }
    destruct (Htot qs N) as [Hts Hps].
    { intros s' Hs'. apply Hcover. rewrite by_user_snoc.
      apply in_or_app. by left. }
    rewrite (Zsum_map_update (fun q => best u q subs)
               (fun q => best u q (subs ++ [s])) qs
               (Submission.questionId s) N Hq0).
    2:{ intros q Hq. rewrite Hbest.
        by destruct (String.eqb_spec q (Submission.questionId s)). }
    rewrite (Zsum_map_update (solved u subs) (solved u (subs ++ [s])) qs
               (Submission.questionId s) N Hq0).
    2:{ intros q Hq. unfold solved. rewrite Hbest.
        by destruct (String.eqb_spec q (Submission.questionId s)). }
    rewrite <- Hts, <- Hps. unfold solved. rewrite !Hbest, String.eqb_refl.
    unfold Leaderboard.update.
    cbn [UserScore.totalScore UserScore.problemsSolved].
    rewrite (Hcur (Submission.questionId s)).
    destruct (Z.gtb_spec (Submission.marksAwarded s)
                (best u (Submission.questionId s) subs)) as [Hgt|Hle].
    + destruct (Z.eqb_spec (best u (Submission.questionId s) subs) 0),
        (Z.gtb_spec (Submission.marksAwarded s) 0),
        (Z.ltb_spec 0 (best u (Submission.questionId s) subs)),
        (Z.ltb_spec 0 (Z.max (best u (Submission.questionId s) subs)
                             (Submission.marksAwarded s)));
        cbn [andb]; lia.
    + cbn [andb].
      destruct (Z.ltb_spec 0 (best u (Submission.questionId s) subs)),
        (Z.ltb_spec 0 (Z.max (best u (Submission.questionId s) subs)
                             (Submission.marksAwarded s))); lia.
  - unfold Leaderboard.update. cbn [UserScore.totalTime].
    rewrite by_user_snoc, Hu, String.eqb_refl, map_app, Zsum_app, Htime.
    unfold Zsum. cbn [map foldr]. lia.
Qed.

(** A submission of somebody else changes nothing in the account. *)
Lemma tracks_other u subs s e :
  Submission.userId s <> u -> tracks u subs e -> tracks u (subs ++ [s]) e.
Proof.
  intros Hu. unfold tracks, solved, best, by_user_question.
  rewrite by_user_snoc.
  destruct (String.eqb_spec u (Submission.userId s)); [congruence|].
  by rewrite app_nil_r.
Qed.
End Bests.

Section Scan.
Variable populated : string -> bool.
Implicit Types (u : string) (subs : list Submission.t) (s : Submission.t).

Lemma scan_snoc subs s :
  Leaderboard.scan populated (subs ++ [s])
  = Leaderboard.visit populated (Leaderboard.scan populated subs) s.
Proof. unfold Leaderboard.scan. by rewrite fold_left_app. Qed.

(** The map of the scan has one entry for each user that [populate] finds
    and that has a submission, and the entry accounts for the submissions of
    that user. *)
Lemma scan_tracks u subs :
  populated u = true ->
  match JSMap.get u (Leaderboard.scan populated subs) with
  | Some e => tracks u subs e
  | None => by_user u subs = []
  end.
Proof.
  intros Hp. induction subs as [|s subs IH] using rev_ind; [done|].
  rewrite scan_snoc. unfold Leaderboard.visit.
  destruct (populated (Submission.userId s)) eqn:Hs; cbn [negb].
  - destruct (String.eqb_spec (Submission.userId s) u) as [Hu|Hu].
    + rewrite Hu, get_set_eq.
      destruct (JSMap.get u (Leaderboard.scan populated subs)) as [e|].
      * by apply update_tracks.
      * apply update_tracks; [|done]. by apply tracks_fresh.
    + rewrite get_set_ne by done.
      destruct (JSMap.get u (Leaderboard.scan populated subs)) as [e|].
      * by apply tracks_other.
      * rewrite by_user_snoc, IH.
        destruct (String.eqb_spec u (Submission.userId s)); [congruence|done].
  - assert (Hu : Submission.userId s <> u) by congruence.
    destruct (JSMap.get u (Leaderboard.scan populated subs)) as [e|].
    + by apply tracks_other.
    + rewrite by_user_snoc, IH.
      destruct (String.eqb_spec u (Submission.userId s)); [congruence|done].
Qed.

Lemma scan_keys subs :
  keys_once (Leaderboard.scan populated subs)
  /\ forall k, In k (map fst (Leaderboard.scan populated subs)) ->
               populated k = true.
Proof.
  induction subs as [|s subs [IH1 IH2]] using rev_ind.
  - split; [constructor|done].
  - rewrite scan_snoc. unfold Leaderboard.visit.
    destruct (populated (Submission.userId s)) eqn:Hs; cbn [negb]; [|done].
    split; [by apply set_keys_once|].
    intros k. rewrite set_keys. destruct (JSMap.has _ _); [apply IH2|].
    intros [H|[<-|[]]]%in_app_or; [by apply IH2|done].
Qed.

(** A user that [populate] finds and that has a submission has an entry. *)
Lemma scan_has_entry subs s :
  In s subs -> populated (Submission.userId s) = true ->
  exists e, In e (JSMap.values (Leaderboard.scan populated subs))
            /\ UserScore.userId e = Submission.userId s.
Proof.
  intros Hs Hp. pose proof (scan_tracks _ subs Hp) as T.
  destruct (JSMap.get _ _) as [e|] eqn:G.
  - exists e. split; [|by destruct T].
    apply get_in in G. unfold JSMap.values.
    change e with (snd (Submission.userId s, e)). by apply in_map.
  - exfalso. assert (Hin : In s (by_user (Submission.userId s) subs)).
    { unfold by_user. apply filter_In. split; [done|].
      apply String.eqb_refl. }
    by rewrite T in Hin.
Qed.

End Scan.

Section Sorting.
Implicit Types (a b x : UserScore.t) (l : list UserScore.t).

Lemma compare_ranks a b : Leaderboard.compare a b <= 0 <-> ranks_before a b.
Proof.
  unfold Leaderboard.compare, ranks_before.
  destruct (Z.eqb_spec (UserScore.totalScore b) (UserScore.totalScore a));
    cbn [negb]; [|lia].
  destruct (Z.eqb_spec (UserScore.problemsSolved b)
              (UserScore.problemsSolved a)); cbn [negb]; lia.
Qed.

Lemma ranks_total a b : ranks_before a b \/ ranks_before b a.
Proof. unfold ranks_before. lia. Qed.

Lemma ranks_trans a b c :
  ranks_before a b -> ranks_before b c -> ranks_before a c.
Proof. unfold ranks_before. lia. Qed.

Lemma insert_perm x l : Permutation (Leaderboard.insert x l) (x :: l).
Proof.
  induction l as [|y l IH]; simpl; [done|].
  destruct (Leaderboard.compare x y <=? 0); [done|].
  rewrite IH. apply perm_swap.
Qed.

Lemma sort_perm l : Permutation (Leaderboard.sort l) l.
Proof.
  induction l as [|x l IH]; simpl; [done|].
  rewrite insert_perm. by constructor.
Qed.

Lemma insert_sorted x l :
  StronglySorted ranks_before l ->
  StronglySorted ranks_before (Leaderboard.insert x l).
Proof.
  induction 1 as [|y l Hl IH Hy]; simpl; [by repeat constructor|].
  destruct (Z.leb_spec (Leaderboard.compare x y) 0) as [Hxy|Hxy].
  - apply compare_ranks in Hxy. constructor; [by constructor|].
    constructor; [done|].
    eapply Forall_impl; [exact Hy|]. intros z Hz. simpl in Hz.
    by eapply ranks_trans.
  - constructor; [done|].
    assert (Hyx : ranks_before y x).
    { destruct (ranks_total x y) as [H%compare_ranks|H]; [lia|done]. }
    rewrite Forall_forall. intros z Hz.
    apply list_elem_of_In in Hz.
    apply (Permutation_in _ (insert_perm x l)) in Hz as [<-|Hz]; [done|].
    rewrite Forall_forall in Hy. apply Hy. by apply list_elem_of_In.
Qed.

Lemma sort_sorted l : StronglySorted ranks_before (Leaderboard.sort l).
Proof.
  induction l as [|x l IH]; simpl; [constructor|]. by apply insert_sorted.
Qed.
End Sorting.



(** C7.  The leaderboard is the entries of the scan rearranged so that each
    entry ranks before every later one: a larger [totalScore] first, among
    equal scores a larger [problemsSolved] first, and among entries equal in
    both a smaller or equal [totalTime] first.  Three users with 20 marks
    each come out by problems solved and then by time. *)
Theorem C7_leaderboard_sorted (populated : string -> bool)
    (contest : Contest.t) (submissions : list Submission.t) :
  let board := Leaderboard.buildLeaderboard populated contest submissions in
  StronglySorted ranks_before board
  /\ Permutation board
       (map (Leaderboard.set_maxPossibleScore
               (Leaderboard.maxPossibleScore contest))
            (JSMap.values (Leaderboard.scan populated submissions)))
  /\ (forall a b, Leaderboard.compare a b <= 0 <-> ranks_before a b)
  /\ map (fun e => (UserScore.userId e, UserScore.totalScore e,
                    UserScore.problemsSolved e, UserScore.totalTime e))
         (Leaderboard.buildLeaderboard everyone contest three_way_tie)
     = [("u1", 20, 2, 400); ("u3", 20, 1, 100); ("u2", 20, 1, 300)]%string.
Proof.
  intros board. subst board. unfold Leaderboard.buildLeaderboard.
  split; [apply sort_sorted|]. split; [apply sort_perm|].
  split; [apply compare_ranks|]. vm_compute. reflexivity.
Qed.

(** * Further properties *)

(** ** Arranged query results *)

Section ArrangeFacts.
Context {A : Type} (before : A -> A -> bool).
Implicit Types (x : A) (l : list A).

Lemma place_perm x l : Permutation (place before x l) (x :: l).
Proof.
  induction l as [|y l IH]; simpl; [done|].
  destruct (before x y); [done|]. rewrite IH. apply perm_swap.
Qed.

Lemma arrange_perm l : Permutation (arrange before l) l.
Proof.
  induction l as [|x l IH]; simpl; [done|].
  rewrite place_perm. by constructor.
Qed.

Lemma arrange_length l : length (arrange before l) = length l.
Proof. apply Permutation_length, arrange_perm. Qed.

Lemma arrange_In x l : In x (arrange before l) <-> In x l.
Proof.
  split; apply Permutation_in;
    [apply arrange_perm | apply Permutation_sym, arrange_perm].
Qed.

Hypothesis before_total : forall a b, before a b = true \/ before b a = true.
Hypothesis before_trans :
  forall a b c, before a b = true -> before b c = true -> before a c = true.

Lemma place_sorted x l :
  StronglySorted (fun a b => before a b = true) l ->
  StronglySorted (fun a b => before a b = true) (place before x l).
Proof.
  induction 1 as [|y l Hl IH Hy]; simpl; [by repeat constructor|].
  destruct (before x y) eqn:Hxy.
  - constructor; [by constructor|]. constructor; [done|].
    eapply Forall_impl; [exact Hy|]. intros z Hz. simpl in Hz.
    by eapply before_trans.
  - constructor; [done|].
    assert (Hyx : before y x = true).
    { destruct (before_total x y) as [H|H]; [congruence|done]. }
    rewrite Forall_forall. intros z Hz. apply list_elem_of_In in Hz.
    apply (Permutation_in _ (place_perm x l)) in Hz as [<-|Hz]; [done|].
    rewrite Forall_forall in Hy. apply Hy. by apply list_elem_of_In.
Qed.

Lemma arrange_sorted l :
  StronglySorted (fun a b => before a b = true) (arrange before l).
Proof.
  induction l as [|x l IH]; simpl; [constructor|]. by apply place_sorted.
Qed.
End ArrangeFacts.

Lemma StronglySorted_weaken {A : Type} (R R' : A -> A -> Prop) (l : list A) :
  (forall a b, R a b -> R' a b) -> StronglySorted R l -> StronglySorted R' l.
Proof.
  intros H. induction 1 as [|x l Hl IH Hx]; constructor; [done|].
  eapply Forall_impl; [exact Hx|]. intros y Hy. by apply H.
Qed.

Lemma StronglySorted_mapped {A B : Type} (f : A -> B) (R : B -> B -> Prop)
    (l : list A) :
  StronglySorted (fun a b => R (f a) (f b)) l -> StronglySorted R (map f l).
Proof.
  induction 1 as [|x l Hl IH Hx]; cbn [map]; constructor; [done|].
  by apply Forall_fmap.
Qed.

Lemma newest_first_sorted (l : list Submission.t) :
  StronglySorted
    (fun a b => Submission.submittedAt b <= Submission.submittedAt a)
    (arrange Query.newest_first l).
Proof.
  eapply StronglySorted_weaken; [|apply arrange_sorted].
  - intros a b H. unfold Query.newest_first in H. lia.
  - intros a b. unfold Query.newest_first. lia.
  - intros a b c. unfold Query.newest_first. lia.
Qed.

Lemma oldest_first_sorted (l : list Submission.t) :
  StronglySorted
    (fun a b => Submission.submittedAt a <= Submission.submittedAt b)
    (arrange Query.oldest_first l).
Proof.
  eapply StronglySorted_weaken; [|apply arrange_sorted].
  - intros a b H. unfold Query.oldest_first in H. lia.
  - intros a b. unfold Query.oldest_first. lia.
  - intros a b c. unfold Query.oldest_first. lia.
Qed.

(** ** Running code without submitting *)

Section RunLoop.
Variables (compilex : nat -> Invoker) (code : jsstring) (language : string)
          (timeLimit : Z).

Lemma run_loop_spec i testCases testResults :
  Run.loop compilex code language timeLimit i testCases testResults
  = testResults
    ++ imap (fun j testCase =>
               Run.testResult
                 (executeCode (compilex (i + j)%nat) code language
                              (TestCase.input testCase) timeLimit)
                 testCase)
            testCases.
Proof.
  revert i testResults.
  induction testCases as [|testCase rest IH]; intros i testResults.
  - simpl. by rewrite app_nil_r.
  - cbn [Run.loop imap]. rewrite IH, <- app_assoc. cbn [app].
    rewrite Nat.add_0_r. do 2 f_equal. apply imap_ext. intros j x _.
    simpl. by rewrite Nat.add_succ_r.
Qed.

Lemma run_loop_lookup testCases i testCase :
  testCases !! i = Some testCase ->
  Run.loop compilex code language timeLimit 0 testCases [] !! i
  = Some (Run.testResult
            (executeCode (compilex i) code language
                         (TestCase.input testCase) timeLimit)
            testCase).
Proof.
  intros H. rewrite run_loop_spec. cbn [app].
  rewrite list_lookup_imap, H. done.
Qed.

Lemma run_loop_length testCases :
  length (Run.loop compilex code language timeLimit 0 testCases [])
  = length testCases.
Proof. rewrite run_loop_spec. cbn [app]. apply length_imap. Qed.
End RunLoop.

Lemma testResult_of_case (r : Call Outcome.t) (testCase : TestCase.t) :
  TestResult.input (Run.testResult r testCase) = TestCase.input testCase
  /\ TestResult.expectedOutput (Run.testResult r testCase)
     = TestCase.expectedOutput testCase.
Proof. by destruct r. Qed.

(** X1.  A request to run code against a question executes the visible test
    cases of the question, in their order and each with its own call of the
    dispatcher, and answers with one result for each of them: a dispatcher
    that throws gives that test case an error result and the others are
    still run, so the answer is never a failure.  [totalVisible] is the
    number of visible test cases and [passedVisible] the number of correct
    results.  Every result shows the input and the expected output of a test
    case that is not hidden, and two questions with the same visible test
    cases and time limit get the same answer: the hidden test cases have no
    influence on it. *)
Theorem run_only_visible_test_cases (contests : list Contest.t)
    (compilex : nat -> Invoker) (req : RunRequest.t)
    (contest : Contest.t) (question : Question.t)
    (Hcode : RunRequest.code req <> [])
    (Hlanguage : RunRequest.language req <> ""%string)
    (HcontestId : RunRequest.contestId req <> ""%string)
    (HquestionId : RunRequest.questionId req <> ""%string)
    (Hcontest : findContest (RunRequest.contestId req) contests
                = Some contest)
    (Hquestion : findQuestion (RunRequest.questionId req) contest
                 = Some question) :
  let visible := Run.visibleTestCases question in
  exists testResults,
    Run.run contests None compilex req
    = RunTests testResults (Z.of_nat (length visible))
        (Z.of_nat (length (List.filter TestResult.isCorrect testResults)))
    /\ length testResults = length visible
    /\ (forall i testCase,
           visible !! i = Some testCase ->
           testResults !! i
           = Some (Run.testResult
                     (executeCode (compilex i) (RunRequest.code req)
                        (RunRequest.language req) (TestCase.input testCase)
                        (Question.timeLimit question))
                     testCase))
    /\ (length (List.filter TestResult.isCorrect testResults)
        <= length visible)%nat
    /\ (forall r,
           In r testResults ->
           exists testCase,
             In testCase (Question.testCases question)
             /\ TestCase.isHidden testCase = false
             /\ TestResult.input r = TestCase.input testCase
             /\ TestResult.expectedOutput r
                = TestCase.expectedOutput testCase)
    /\ (forall contests' contest' question',
           findContest (RunRequest.contestId req) contests' = Some contest' ->
           findQuestion (RunRequest.questionId req) contest'
           = Some question' ->
           Run.visibleTestCases question' = visible ->
           Question.timeLimit question' = Question.timeLimit question ->
           Run.run contests' None compilex req
           = Run.run contests None compilex req).
Proof.
  intros visible.
  assert (Hrun : forall contests' contest' question',
             findContest (RunRequest.contestId req) contests'
             = Some contest' ->
             findQuestion (RunRequest.questionId req) contest'
             = Some question' ->
             Run.run contests' None compilex req
             = RunTests
                 (Run.loop compilex (RunRequest.code req)
                    (RunRequest.language req) (Question.timeLimit question')
                    0 (Run.visibleTestCases question') [])
                 (Z.of_nat (length (Run.visibleTestCases question')))
                 (Z.of_nat
                    (length
                       (List.filter TestResult.isCorrect
                          (Run.loop compilex (RunRequest.code req)
                             (RunRequest.language req)
                             (Question.timeLimit question') 0
                             (Run.visibleTestCases question') []))))).
  { intros contests' contest' question' Hc Hq. unfold Run.run.
    destruct (RunRequest.code req) as [|c code] eqn:Ecode; [done|].
    cbn [truthy negb orb]. unfold is_empty.
    destruct (String.eqb_spec (RunRequest.language req) ""); [done|].
    destruct (String.eqb_spec (RunRequest.contestId req) ""); [done|].
    destruct (String.eqb_spec (RunRequest.questionId req) ""); [done|].
    cbn [negb andb]. by rewrite Hc, Hq. }
  eexists. split; [by eapply Hrun|].
  split; [apply run_loop_length|]. split; [|split; [|split]].
  - intros i testCase Hi. by apply run_loop_lookup.
  - etransitivity; [apply List.filter_length_le|].
    by rewrite run_loop_length.
  - intros r Hr. apply list_elem_of_In, list_elem_of_lookup in Hr as [i Hi].
    pose proof (lookup_lt_Some _ _ _ Hi) as Hlt.
    rewrite run_loop_length in Hlt.
    apply lookup_lt_is_Some_2 in Hlt as [testCase Ht].
    rewrite (run_loop_lookup _ _ _ _ _ _ _ Ht) in Hi. injection Hi as <-.
    exists testCase.
    apply list_elem_of_lookup_2, list_elem_of_In in Ht.
    unfold Run.visibleTestCases in Ht. apply filter_In in Ht as [Hin Hv].
    split; [done|]. split; [by apply negb_true_iff in Hv|].
    apply testResult_of_case.
  - intros contests' contest' question' Hc Hq Hv Ht.
    rewrite (Hrun _ _ _ Hc Hq), (Hrun _ _ _ Hcontest Hquestion).
    fold visible. by rewrite Hv, Ht.
Qed.

(** X1 for [sample_question], whose second test case is hidden. *)
Lemma run_only_visible_test_cases_witness :
  let req := RunRequest.mk "c1" "q1" (lit "print(1)") "python" None in
  exists testResults,
    Run.run [sample_contest] None (prints (lit "1")) req
    = RunTests testResults 1
        (Z.of_nat (length (List.filter TestResult.isCorrect testResults)))
    /\ length testResults = 1%nat.
Proof.
  intros req.
  destruct (run_only_visible_test_cases [sample_contest] (prints (lit "1"))
              req sample_contest sample_question)
    as (testResults & H1 & H2 & _); [done..|].
  exists testResults. split; [exact H1 | exact H2].
Defined.

Lemma Forall2_imap_same {A B C : Type} (R : B -> C -> Prop)
    (f : nat -> A -> B) (g : nat -> A -> C) (l : list A) :
  (forall j x, R (f j x) (g j x)) -> Forall2 R (imap f l) (imap g l).
Proof.
  revert f g. induction l as [|x l IH]; intros f g H; [constructor|].
  rewrite !imap_cons. constructor; [apply H|]. apply IH. intros j y. apply H.
Qed.

(** One test case, as [POST /run] reports it and as a submission is graded
    on it. *)
Lemma testResult_record (r : Call Outcome.t) (testCase : TestCase.t) :
  let t := Run.testResult r testCase in
  let g := Grading.record r testCase in
  (TestResult.isCorrect t = true <-> TestCaseResult.status g = passed)
  /\ TestResult.marks t = TestCaseResult.marksAwarded g
  /\ TestResult.actualOutput t = TestCaseResult.output g
  /\ TestResult.error t = TestCaseResult.error g
  /\ TestResult.executionTime t = TestCaseResult.executionTime g.
Proof.
  destruct r as [result|message]; simpl; [|by split_and!].
  unfold Grading.verdict.
  destruct (Grading.isCorrect result testCase); [by split_and!|].
  split_and!; try done. split; [done|].
  by repeat case_bool_decide.
Qed.

Lemma passed_count (gs : list TestCaseResult.t) (ts : list TestResult.t) :
  Forall2 (fun g t =>
             (TestResult.isCorrect t = true
              <-> TestCaseResult.status g = passed)
             /\ TestResult.marks t = TestCaseResult.marksAwarded g) gs ts ->
  length (filter (fun result => TestCaseResult.status result = passed) gs)
  = length (List.filter TestResult.isCorrect ts)
  /\ map TestCaseResult.marksAwarded gs = map TestResult.marks ts.
Proof.
  induction 1 as [|g t gs ts [Hc Hm] _ [IH1 IH2]]; [done|].
  rewrite filter_cons. cbn [List.filter map]. rewrite Hm, IH2.
  split; [|done].
  destruct (TestResult.isCorrect t) eqn:E.
  - rewrite decide_True by (by apply Hc). simpl. by rewrite IH1.
  - rewrite decide_False; [done|]. intros H. apply Hc in H. congruence.
Qed.

Lemma all_visible (question : Question.t) :
  Forall (fun testCase => TestCase.isHidden testCase = false)
         (Question.testCases question) ->
  Run.visibleTestCases question = Question.testCases question.
Proof.
  unfold Run.visibleTestCases.
  induction 1 as [|testCase rest H _ IH]; [done|].
  cbn [List.filter]. by rewrite H, IH.
Qed.

(** X2.  [POST /run] and the grading of a submission judge a test case in
    the same way: from the same result of the dispatcher, the run reports
    the test case as correct exactly when the grading records it as passed,
    and with the marks, output, error and time the grading records.  So for
    a question without hidden test cases, and compilex behaving the same, a
    submission is stored with the marks, the number of passed test cases and
    the number of test cases that the run reported. *)
Theorem run_agrees_with_grading (faults : Faults)
    (compilex : nat -> Invoker) (submissionId : string)
    (question : Question.t) (code : jsstring) (language : string)
    (db : Db.t) (s0 : Submission.t)
    (Hstored : stored submissionId db = Some s0)
    (Hfind : faults FindSubmission = None)
    (Hrunning : faults SaveRunning = None)
    (Hcompleted : faults SaveCompleted = None)
    (Hvisible : Forall (fun testCase => TestCase.isHidden testCase = false)
                       (Question.testCases question)) :
  let testResults :=
    Run.loop compilex code language (Question.timeLimit question) 0
             (Run.visibleTestCases question) [] in
  (forall r testCase,
      let t := Run.testResult r testCase in
      let g := Grading.record r testCase in
      (TestResult.isCorrect t = true <-> TestCaseResult.status g = passed)
      /\ TestResult.marks t = TestCaseResult.marksAwarded g
      /\ TestResult.actualOutput t = TestCaseResult.output g
      /\ TestResult.error t = TestCaseResult.error g
      /\ TestResult.executionTime t = TestCaseResult.executionTime g)
  /\ exists db' s,
       processSubmission faults compilex submissionId question code
                         language db = (db', Returned tt)
       /\ stored submissionId db' = Some s
       /\ map TestCaseResult.marksAwarded (Submission.testCaseResults s)
          = map TestResult.marks testResults
       /\ Submission.marksAwarded s = Zsum (map TestResult.marks testResults)
       /\ Submission.passedTestCases s
          = Z.of_nat (length (List.filter TestResult.isCorrect testResults))
       /\ Submission.totalTestCases s = Z.of_nat (length testResults).
Proof.
  intros testResults. split; [apply testResult_record|].
  destruct (processSubmission_completed faults compilex submissionId
              question code language db s0 Hstored Hfind Hrunning
              Hcompleted) as (db' & Hrun & Hdoc).
  eexists _, _. split; [exact Hrun|]. split; [exact Hdoc|].
  cbn [Submission.preSave Grading.finish Submission.testCaseResults
       Submission.marksAwarded Submission.passedTestCases
       Submission.totalTestCases].
  rewrite tally_results.
  assert (Hagree :
            Forall2 (fun g t =>
                       (TestResult.isCorrect t = true
                        <-> TestCaseResult.status g = passed)
                       /\ TestResult.marks t = TestCaseResult.marksAwarded g)
                    (recorded compilex code language
                       (Question.timeLimit question) 0
                       (Question.testCases question))
                    testResults).
  { subst testResults. rewrite run_loop_spec, all_visible by done.
    cbn [app]. unfold recorded. apply Forall2_imap_same.
    intros j testCase.
    by destruct (testResult_record
                   (executeCode (compilex (0 + j)%nat) code language
                      (TestCase.input testCase)
                      (Question.timeLimit question)) testCase)
      as (? & ? & _). }
  destruct (passed_count _ _ Hagree) as [Hn Hm].
  split; [done|]. split; [|split].
  - unfold tally.
    destruct (loop_fields compilex code language
                (Question.timeLimit question) 0
                (Question.testCases question) Grading.init)
      as (_ & _ & _ & -> & _).
    rewrite Hm. simpl. lia.
  - by rewrite Hn.
  - by rewrite (Forall2_length _ _ _ Hagree).
Qed.

(** X2 for a question with one test case, which is visible. *)
Lemma run_agrees_with_grading_witness :
  exists db' s,
    processSubmission no_faults (prints (lit "1")) "s1" one_case_question
      (lit "print(1)") "python" [pending_submission] = (db', Returned tt)
    /\ stored "s1" db' = Some s
    /\ Submission.marksAwarded s
       = Zsum (map TestResult.marks
                   (Run.loop (prints (lit "1")) (lit "print(1)") "python"
                      2000 0 (Run.visibleTestCases one_case_question) [])).
Proof.
  destruct (run_agrees_with_grading no_faults (prints (lit "1")) "s1"
              one_case_question (lit "print(1)") "python"
              [pending_submission] pending_submission)
    as (_ & db' & s & H1 & H2 & _ & H3 & _);
    [reflexivity..|by repeat constructor|].
  exists db', s. split; [exact H1|]. split; [exact H2 | exact H3].
Defined.

(** X3.  [POST /run] makes none of the checks on the contest that [POST /]
    makes: whenever a submission is turned away because the contest is not
    active, is over or has not started, because the language is not allowed
    or because the attempts are used up, the same code is still run against
    the visible test cases of the question. *)
Theorem run_while_submit_is_closed (contests : list Contest.t)
    (w : World.t) (req : Request.t) (db : Db.t) (http : Z)
    (message : string) (input : option jsstring)
    (Hrejected : validate contests w req db = inl (Rejected http message))
    (Hwhy : http = 403
            \/ message
               = "Programming language not allowed for this contest"%string) :
  exists testResults totalVisible passedVisible,
    Run.run contests None (World.compilex w)
      (RunRequest.mk (Request.contestId req) (Request.questionId req)
                     (Request.code req) (Request.language req) input)
    = RunTests testResults totalVisible passedVisible.
Proof.
  assert (Hother : forall h m,
             inl (Rejected h m)
             = (inl (Rejected http message)
                : Response + Contest.t * Question.t) ->
             h <> 403 ->
             m <> "Programming language not allowed for this contest"%string ->
             False).
  { intros h m [= -> ->] H1 H2. by destruct Hwhy. }
  unfold validate, Db.countDocuments in Hrejected. unfold Run.run.
  cbn [RunRequest.code RunRequest.language RunRequest.contestId
       RunRequest.questionId RunRequest.input].
  destruct (is_empty (Request.contestId req));
    [by apply Hother in Hrejected|].
  destruct (is_empty (Request.questionId req));
    [by apply Hother in Hrejected|].
  destruct (truthy (Some (Request.code req)));
    [|by apply Hother in Hrejected].
  destruct (is_empty (Request.language req));
    [by apply Hother in Hrejected|].
  cbn [negb orb andb] in *.
  destruct (World.faults w FindContest); [by apply Hother in Hrejected|].
  destruct (findContest (Request.contestId req) contests) as [contest|];
    [|by apply Hother in Hrejected].
  destruct (findQuestion (Request.questionId req) contest) as [question|];
    [|by apply Hother in Hrejected].
  eauto.
Qed.

(** X3 for a contest that ended at 2000, at 5000. *)
Lemma run_while_submit_is_closed_witness :
  validate [sample_contest] (calm 5000 "s1") sample_request []
  = inl (Rejected 403 "Contest is not accessible")
  /\ exists testResults totalVisible passedVisible,
       Run.run [sample_contest] None (prints (lit "1"))
         (RunRequest.mk "c1" "q1" (lit "print(1)") "python" None)
       = RunTests testResults totalVisible passedVisible.
Proof.
  split; [reflexivity|].
  apply (run_while_submit_is_closed [sample_contest] (calm 5000 "s1")
           sample_request [] 403 "Contest is not accessible" None);
    [reflexivity | left; reflexivity].
Defined.

(** ** Reading submissions back *)

Lemma validate_rejects contests w req db r :
  validate contests w req db = inl r ->
  exists http message, r = Rejected http message.
Proof.
  unfold validate, Db.countDocuments.
  repeat match goal with
         | |- inl _ = inl _ -> _ => intros [= <-]; eauto
         | |- inr _ = inl _ -> _ => discriminate
         | |- context [match ?x with _ => _ end] => destruct x
         end.
Qed.

(** What a created submission is: the stored document of the new id, with
    the keys of the request. *)
Lemma submit_created contests w req db id s db' :
  NoDup (map Submission._id db) ->
  submit contests w req db = (Created id s, db') ->
  stored id db' = Some s
  /\ NoDup (map Submission._id db')
  /\ keys s = (World.new_id w,
               (Request.contestId req, Request.questionId req,
                Request.user_id req))
  /\ exists contest question,
       validate contests w req db = inr (contest, question).
Proof.
  intros N. unfold submit.
  destruct (validate contests w req db) as [r|[contest question]] eqn:V.
  { apply validate_rejects in V as (http & message & ->). done. }
  unfold Db.insert. destruct (World.faults w SaveNew); [done|].
  destruct (negb (Submission.valid _)); [done|].
  cbn [Submission._id newSubmission].
  fold (stored (World.new_id w) db).
  destruct (stored (World.new_id w) db) eqn:Hs; [done|].
  set (doc := Submission.preSave (newSubmission w req question)).
  assert (N1 : NoDup (map Submission._id (db ++ [doc]))).
  { rewrite map_app. apply NoDup_app. split; [done|]. split.
    - intros x Hx Hx'. apply list_elem_of_singleton in Hx' as ->.
      by apply stored_none_fresh in Hs.
    - repeat constructor. by intros ?%elem_of_nil. }
  pose proof (processSubmission_keys (World.faults w) (World.compilex w)
                (World.new_id w) question (Request.code req)
                (Request.language req) (db ++ [doc]) N1) as K.
  destruct (processSubmission _ _ _ _ _ _ _) as [db2 [u|m]]; cbn [fst] in K;
    [|done].
  unfold Db.findById. destruct (World.faults w FindUpdated); [done|].
  fold (stored (World.new_id w) db2).
  destruct (stored (World.new_id w) db2) as [s'|] eqn:Hs'; [|done].
  intros [= <- <- <-]. split; [done|].
  pose proof (NoDup_same_keys _ _ K N1) as N2. split; [done|].
  split; [|by eauto].
  pose proof (stored_in _ _ _ Hs') as Hin.
  pose proof (stored_id _ _ _ Hs') as Hid.
  apply (in_map keys) in Hin. rewrite K in Hin.
  apply in_map_iff in Hin as (x & Hx & Hin).
  assert (x = doc) as ->.
  { apply (unique_id (db ++ [doc])); [done|done| |].
    - apply in_or_app. right. by left.
    - injection Hx as -> _. by rewrite Hid. }
  by rewrite <- Hx.
Qed.

(** X4.  A submission that [POST /] has created can be read back under its
    id by the user who made it, and by nobody else: any other user is
    refused.  Over any collection, [GET /:id] hands out a stored document of
    that id that belongs to the user who asks, refuses a document of another
    user, and answers that the submission is not found when there is none of
    that id. *)
Theorem submission_read_by_owner_only (contests : list Contest.t)
    (w : World.t) (req : Request.t) (db db' : Db.t) (id : string)
    (s : Submission.t)
    (Hids : NoDup (map Submission._id db))
    (Hcreated : submit contests w req db = (Created id s, db')) :
  Fetch.one None id (Request.user_id req) db' = FetchedOne s
  /\ (forall other,
         other <> Request.user_id req ->
         Fetch.one None id other db' = FetchRejected 403 "Access denied")
  /\ (forall collection id' user_id,
         match Fetch.one None id' user_id collection with
         | FetchedOne s' =>
             In s' collection /\ Submission._id s' = id'
             /\ Submission.userId s' = user_id
         | FetchRejected http _ =>
             (http = 404 /\ id' ∉ map Submission._id collection)
             \/ (http = 403
                 /\ exists s', stored id' collection = Some s'
                               /\ Submission.userId s' <> user_id)
         | FetchedMany _ => False
         end).
Proof.
  destruct (submit_created _ _ _ _ _ _ _ Hids Hcreated)
    as (Hs & _ & K & _).
  assert (Hu : Submission.userId s = Request.user_id req).
  { by injection K. }
  split; [|split].
  - unfold Fetch.one, Db.findById. fold (stored id db'). rewrite Hs, Hu.
    by rewrite String.eqb_refl.
  - intros other Hother. unfold Fetch.one, Db.findById.
    fold (stored id db'). rewrite Hs, Hu.
    destruct (String.eqb_spec (Request.user_id req) other); [congruence|done].
  - intros collection id' user_id. unfold Fetch.one, Db.findById.
    fold (stored id' collection).
    destruct (stored id' collection) as [s'|] eqn:Hs'.
    + destruct (String.eqb_spec (Submission.userId s') user_id); cbn [negb].
      * split; [by eapply stored_in|]. split; [by eapply stored_id|done].
      * right. eauto.
    + left. split; [done|]. by apply stored_none_fresh.
Qed.

(** X4 for the first submission to [sample_contest]. *)
Lemma submission_read_by_owner_only_witness :
  exists s,
    submit [sample_contest] (calm 1500 "s1") sample_request []
    = (Created "s1" s, [s])
    /\ Fetch.one None "s1" "u1" [s] = FetchedOne s
    /\ Fetch.one None "s1" "u2" [s] = FetchRejected 403 "Access denied".
Proof.
  assert (H : exists s,
             submit [sample_contest] (calm 1500 "s1") sample_request []
             = (Created "s1" s, [s])).
  { eexists. vm_compute. reflexivity. }
  destruct H as [s Hs]. exists s. split; [exact Hs|].
  destruct (submission_read_by_owner_only [sample_contest] (calm 1500 "s1")
              sample_request [] [s] "s1" s) as (H1 & H2 & _);
    [constructor | exact Hs |].
  split; [exact H1|]. by apply H2.
Defined.

(** ** What [processSubmission] leaves alone *)

Section Frame.
Implicit Types (db : Db.t) (doc s : Submission.t) (id : string).

Lemma untouched_refl id db : untouched_but id db db.
Proof. by split. Qed.

Lemma untouched_trans id db1 db2 db3 :
  untouched_but id db1 db2 -> untouched_but id db2 db3 ->
  untouched_but id db1 db3.
Proof.
  intros [K1 S1] [K2 S2]. split; [congruence|].
  intros id' H. by rewrite S2, S1.
Qed.

Lemma same_request_refl s : same_request s s.
Proof. by repeat split. Qed.

Lemma same_request_trans s1 s2 s3 :
  same_request s1 s2 -> same_request s2 s3 -> same_request s1 s3.
Proof.
  unfold same_request. intros (?&?&?&?&?) (?&?&?&?&?).
  split_and!; congruence.
Qed.

Lemma stored_replace_other id' db doc :
  id' <> Submission._id doc ->
  stored id' (Db.replace doc db) = stored id' db.
Proof.
  intros H. unfold stored, Db.replace.
  induction db as [|x db IH]; [done|]. cbn [map find].
  destruct (Db.has_id (Submission._id doc) x) eqn:E.
  - apply has_id_eq in E.
    destruct (Db.has_id id' doc) eqn:E1; [by apply has_id_eq in E1|].
    destruct (Db.has_id id' x) eqn:E2; [|done].
    apply has_id_eq in E2. congruence.
  - by destruct (Db.has_id id' x).
Qed.

Lemma save_frame fault id db doc s db' :
  NoDup (map Submission._id db) -> stored id db = Some s ->
  keys doc = keys s ->
  Db.save fault doc db = Returned db' ->
  untouched_but id db db' /\ stored id db' = Some (Submission.preSave doc).
Proof.
  intros N Hs K E.
  destruct (save_keys _ _ _ _ _ _ N Hs K E) as [K' S']. split; [|done].
  split; [done|]. intros id' H. unfold Db.save in E.
  destruct fault; [done|].
  destruct (find _ db); [|done]. injection E as <-.
  apply stored_replace_other. cbn [Submission.preSave Submission._id].
  injection K as -> _. by rewrite (stored_id _ _ _ Hs).
Qed.

Lemma recover_frame faults id message db :
  NoDup (map Submission._id db) ->
  untouched_but id db (recover faults id message db).1
  /\ match stored id db with
     | Some s =>
         exists s', stored id (recover faults id message db).1 = Some s'
                    /\ same_request s s'
     | None => (recover faults id message db).1 = db
     end.
Proof.
  intros N. unfold recover, Db.findById.
  destruct (faults FindForError).
  { split; [apply untouched_refl|]. destruct (stored id db) eqn:E; [|done].
    eexists. split; [done|]. apply same_request_refl. }
  fold (stored id db). destruct (stored id db) as [s|] eqn:Hs;
    [|by split; [apply untouched_refl|]].
  destruct (Db.save _ _ db) as [db'|] eqn:E.
  - eapply save_frame in E as [F S]; [|done..]. split; [done|].
    eexists. split; [exact S|]. by repeat split.
  - split; [apply untouched_refl|]. eexists. split; [done|].
    apply same_request_refl.
Qed.
End Frame.

(** X5.  Grading a submission changes no other document: whatever compilex
    does and whichever database calls reject, the collection afterwards has
    the same documents in the same places, with the same identifiers, and
    every document stored under another id is as it was.  The graded document
    itself keeps its code, language, [maxMarks] and date, and when no
    document has the id the collection is left as it is. *)
Theorem processSubmission_changes_one_document (faults : Faults)
    (compilex : nat -> Invoker) (submissionId : string)
    (question : Question.t) (code : jsstring) (language : string)
    (db : Db.t)
    (Hids : NoDup (map Submission._id db)) :
  let db' := (processSubmission faults compilex submissionId question code
                                language db).1 in
  map keys db' = map keys db
  /\ (forall id', id' <> submissionId -> stored id' db' = stored id' db)
  /\ match stored submissionId db with
     | Some s => exists s', stored submissionId db' = Some s'
                            /\ same_request s s'
     | None => db' = db
     end.
Proof.
  cbv zeta.
  assert (H : untouched_but submissionId db
                (processSubmission faults compilex submissionId question
                                   code language db).1
              /\ match stored submissionId db with
                 | Some s =>
                     exists s',
                       stored submissionId
                         (processSubmission faults compilex submissionId
                            question code language db).1 = Some s'
                       /\ same_request s s'
                 | None =>
                     (processSubmission faults compilex submissionId
                        question code language db).1 = db
                 end).
  { unfold processSubmission, Db.findById.
    destruct (faults FindSubmission); [by apply recover_frame|].
    fold (stored submissionId db).
    destruct (stored submissionId db) as [s|] eqn:Hs;
      [|by split; [apply untouched_refl|]].
    destruct (Db.save (faults SaveRunning) _ db) as [db1|] eqn:E1.
    2:{ pose proof (recover_frame faults submissionId message db Hids) as R.
        by rewrite Hs in R. }
    eapply save_frame in E1 as [F1 S1]; [|done..].
    pose proof (NoDup_same_keys _ _ (proj1 F1) Hids) as N1.
    destruct (Db.save (faults SaveCompleted) _ db1) as [db2|] eqn:E2.
    - eapply save_frame in E2 as [F2 S2]; [|done..]. cbn [fst]. split.
      + by eapply untouched_trans.
      + eexists. split; [exact S2|]. by repeat split.
    - destruct (recover_frame faults submissionId message db1 N1) as [F R].
      rewrite S1 in R. destruct R as (s' & R & Q). split.
      + by eapply untouched_trans.
      + exists s'. split; [done|].
        eapply same_request_trans; [|exact Q]. by repeat split. }
  destruct H as [[K F] S]. by split_and!.
Qed.

(** X5 for the grading of "s1" beside a submission "s0" of another user. *)
Lemma processSubmission_changes_one_document_witness :
  let other := scored "u2" "q1" 5 10 1400 in
  stored ""
    (processSubmission no_faults (prints (lit "1")) "s1" sample_question
       (lit "print(1)") "python" [other; pending_submission]).1
  = Some other.
Proof.
  intros other.
  destruct (processSubmission_changes_one_document no_faults
              (prints (lit "1")) "s1" sample_question (lit "print(1)")
              "python" [other; pending_submission]) as (_ & H & _).
  - repeat constructor; [|by intros ?%elem_of_nil].
    intros [=]%list_elem_of_singleton.
  - by apply (H ""%string).
Defined.

(** ** Full marks *)

Section Exact.
Local Open Scope Q_scope.

Lemma nearest_even_int (q : Q) (z : Z) :
  q == inject_Z z -> nearest_even q = z.
Proof.
  intros H. unfold nearest_even.
  assert (F : Qfloor q = z) by (by rewrite H, Qfloor_Z).
  rewrite F.
  assert (E : (q - inject_Z z ?= 1 # 2) = Lt).
  { rewrite <- Qlt_alt, H. ring_simplify. reflexivity. }
  by rewrite E.
Qed.

(** An integer up to 2^52 is a double. *)
Lemma to_double_int (x : Q) (c : Z) :
  (1 <= c <= 2 ^ 52)%Z -> x == inject_Z c -> to_double x == inject_Z c.
Proof.
  intros Hc Hx. unfold to_double.
  assert (Hpos : 0 < x).
  { rewrite Hx. change 0 with (inject_Z 0). rewrite <- Zlt_Qlt. lia. }
  apply Qgt_alt in Hpos as Hcmp. rewrite Hcmp.
  unfold positive_to_double.
  assert (Hle : x <= inject_Z c) by (rewrite Hx; apply Qle_refl).
  pose proof (exponent_le x c Hpos Hle (proj2 Hc)) as He.
  set (k := (52 - Z.max (exponent x) (- 1022))%Z).
  assert (Hk : (0 <= k)%Z) by lia.
  rewrite (pow2_nonneg k Hk), (pow2_opp k Hk).
  rewrite (nearest_even_int _ (c * 2 ^ k)).
  - rewrite inject_Z_mult. field.
    change 0 with (inject_Z 0). rewrite inject_Z_injective. lia.
  - by rewrite Hx, inject_Z_mult.
Qed.

Lemma to_double_zero (x : Q) : x == 0 -> to_double x = 0.
Proof. intros H. unfold to_double. apply Qeq_alt in H. by rewrite H. Qed.

Lemma Math_round_int (x : Q) (z : Z) : x == inject_Z z -> Math_round x = z.
Proof.
  intros H. unfold Math_round. rewrite H.
  unfold Qfloor, Qplus, inject_Z. cbn [Qnum Qden].
  symmetry. apply Z.div_unique with 1%Z; lia.
Qed.
End Exact.

(** All the marks give 100, no marks give 0, and a total that is not
    positive gives 0. *)
Lemma scorePercentage_ends :
  (forall totalMarks,
      0 < totalMarks -> Grading.scorePercentage totalMarks totalMarks = 100)
  /\ (forall totalMarks, Grading.scorePercentage 0 totalMarks = 0)
  /\ (forall obtainedMarks totalMarks,
         totalMarks <= 0 ->
         Grading.scorePercentage obtainedMarks totalMarks = 0).
Proof.
  split; [|split].
  - intros t Ht. unfold Grading.scorePercentage.
    destruct (Z.gtb_spec t 0); [|lia].
    apply (Math_round_int _ 100). unfold Number_mul, Number_div.
    apply (to_double_int _ 100); [lia|].
    rewrite (to_double_int _ 1); [reflexivity|lia|].
    change (inject_Z 1) with 1%Q. field.
    change 0%Q with (inject_Z 0). rewrite inject_Z_injective. lia.
  - intros t. unfold Grading.scorePercentage.
    destruct (t >? 0); [|done].
    apply (Math_round_int _ 0). unfold Number_mul, Number_div.
    rewrite (to_double_zero (inject_Z 0 / inject_Z t)).
    + by rewrite to_double_zero.
    + unfold Qdiv. by rewrite Qmult_0_l.
  - intros o t Ht. unfold Grading.scorePercentage.
    destruct (Z.gtb_spec t 0); [lia|done].
Qed.

(** X6.  A submission that is correct on every test case of a question
    whose marks add up to more than 0 is stored as completed with every
    test case passed at its full marks, [marksAwarded] the sum of the marks
    of the test cases, [passedTestCases] and [totalTestCases] both the
    number of test cases, and a [scorePercentage] of exactly 100.  The
    division and the multiplication of doubles lose nothing at the ends of
    the scale: all the marks give 100, no marks give 0, and a total that is
    not positive gives 0 rather than a division by zero. *)
Theorem full_marks_score_100 (faults : Faults)
    (compilex : nat -> Invoker) (submissionId : string)
    (question : Question.t) (code : jsstring) (language : string)
    (db : Db.t) (s0 : Submission.t)
    (Hstored : stored submissionId db = Some s0)
    (Hfind : faults FindSubmission = None)
    (Hrunning : faults SaveRunning = None)
    (Hcompleted : faults SaveCompleted = None)
    (Hcorrect : forall i testCase,
        Question.testCases question !! i = Some testCase ->
        exists result,
          executeCode (compilex i) code language (TestCase.input testCase)
                      (Question.timeLimit question) = Returned result
          /\ Grading.isCorrect result testCase = true)
    (Hmarks : 0 < Zsum (map TestCase.marks (Question.testCases question))) :
  (exists db' s,
      processSubmission faults compilex submissionId question code
                        language db = (db', Returned tt)
      /\ stored submissionId db' = Some s
      /\ Submission.status s = Submission.completed
      /\ Forall (fun r => TestCaseResult.status r = passed
                          /\ TestCaseResult.marksAwarded r
                             = TestCaseResult.maxMarks r)
                (Submission.testCaseResults s)
      /\ Submission.marksAwarded s
         = Zsum (map TestCase.marks (Question.testCases question))
      /\ Submission.passedTestCases s
         = Z.of_nat (length (Question.testCases question))
      /\ Submission.totalTestCases s
         = Z.of_nat (length (Question.testCases question))
      /\ Submission.scorePercentage s = 100)
  /\ (forall totalMarks,
         0 < totalMarks ->
         Grading.scorePercentage totalMarks totalMarks = 100)
  /\ (forall totalMarks, Grading.scorePercentage 0 totalMarks = 0)
  /\ (forall obtainedMarks totalMarks,
         totalMarks <= 0 ->
         Grading.scorePercentage obtainedMarks totalMarks = 0).
Proof.
  split; [|apply scorePercentage_ends].
  destruct (processSubmission_completed faults compilex submissionId
              question code language db s0 Hstored Hfind Hrunning
              Hcompleted) as (db' & Hrun & Hdoc).
  eexists _, _. split; [exact Hrun|]. split; [exact Hdoc|].
  cbn [Submission.preSave Grading.finish Submission.status
       Submission.testCaseResults Submission.marksAwarded
       Submission.passedTestCases Submission.totalTestCases
       Submission.scorePercentage].
  rewrite tally_results.
  set (rs := recorded compilex code language (Question.timeLimit question)
                      0 (Question.testCases question)).
  assert (Hall : Forall (fun r => TestCaseResult.status r = passed
                                  /\ TestCaseResult.marksAwarded r
                                     = TestCaseResult.maxMarks r) rs).
  { apply Forall_lookup. intros i r Hi. subst rs. unfold recorded in Hi.
    rewrite list_lookup_imap in Hi.
    destruct (Question.testCases question !! i) as [testCase|] eqn:Ht;
      [|done].
    injection Hi as <-. cbn [Nat.add].
    destruct (Hcorrect i testCase Ht) as (result & -> & Hc). simpl.
    unfold Grading.verdict. by rewrite Hc. }
  assert (Hlen : length rs = length (Question.testCases question)).
  { subst rs. unfold recorded. apply length_imap. }
  assert (Hmax : map TestCaseResult.maxMarks rs
                 = map TestCase.marks (Question.testCases question)).
  { subst rs.
    by destruct (loop_fields compilex code language
                   (Question.timeLimit question) 0
                   (Question.testCases question) Grading.init)
      as (_ & _ & _ & _ & ->). }
  assert (Hawarded : map TestCaseResult.marksAwarded rs
                     = map TestCaseResult.maxMarks rs).
  { clear -Hall. induction Hall as [|r rs [_ Hr] _ IH]; [done|].
    cbn [map]. by rewrite Hr, IH. }
  assert (Hobtained :
            Grading.obtainedMarks (tally compilex code language question)
            = Zsum (map TestCase.marks (Question.testCases question))).
  { unfold tally.
    destruct (loop_fields compilex code language
                (Question.timeLimit question) 0
                (Question.testCases question) Grading.init)
      as (_ & _ & _ & -> & _).
    fold rs. rewrite Hawarded, Hmax. simpl. lia. }
  split; [done|]. split; [done|]. split; [done|]. split; [|split].
  - f_equal. rewrite <- Hlen. clear -Hall.
    induction Hall as [|r rs [Hr _] _ IH]; [done|].
    rewrite filter_cons, decide_True by done. simpl. by rewrite IH.
  - by rewrite Hlen.
  - rewrite Hobtained, tally_totalMarks.
    by apply (proj1 scorePercentage_ends).
Qed.

(** X6 for a program that prints [1] against [sample_question], both of
    whose test cases expect [1]. *)
Lemma full_marks_score_100_witness :
  exists db' s,
    processSubmission no_faults (prints (lit "1")) "s1" sample_question
      (lit "print(1)") "python" [pending_submission] = (db', Returned tt)
    /\ stored "s1" db' = Some s
    /\ Submission.marksAwarded s = 10
    /\ Submission.scorePercentage s = 100.
Proof.
  destruct (full_marks_score_100 no_faults (prints (lit "1")) "s1"
              sample_question (lit "print(1)") "python"
              [pending_submission] pending_submission)
    as ((db' & s & H1 & H2 & _ & _ & H3 & _ & _ & H4) & _);
    [reflexivity..| |reflexivity|].
  - intros [|[|i]] testCase [= <-]; eexists; split; reflexivity.
  - exists db', s. split; [exact H1|]. split; [exact H2|].
    split; [exact H3 | exact H4].
Defined.

(** ** Verdicts, times and errors *)

Lemma settled_consistent (e : Exec) (timeLimit : Z) (testCase : TestCase.t) :
  consistent_result timeLimit testCase
    (Grading.record (settle e timeLimit) testCase).
Proof.
  unfold consistent_result.
  destruct e as [message|data elapsed]; [by split_and!|].
  unfold settle, resolveWith, Grading.record, Grading.graded,
    Grading.verdict, Grading.isCorrect.
  destruct (truthy (InvokerData.error data)); [by split_and!|].
  destruct (Z.gtb_spec elapsed timeLimit) as [Hlate|Hlate].
  { cbn. split_and!; intros; try done. split; [lia|done]. }
  cbn [Outcome.status Outcome.output Outcome.error Outcome.executionTime
       Outcome.memoryUsed].
  rewrite bool_decide_eq_true_2 by done. cbn [andb].
  case_bool_decide as Hout; cbn; split_and!; intros; try done.
Qed.

(** X7.  Whatever compilex does, the result recorded for a test case is
    consistent with its status.  A passed test case ran within the time
    limit, without an error, with an output that equals the expected one up
    to white space at the ends, and has the marks of the test case; a failed
    one ran within the limit without an error and with another output; a
    test case is time_limit_exceeded only if it ran for longer than the
    limit.  Every result that is not passed has no marks, so marks are all
    or nothing for a test case, and no result is ever
    memory_limit_exceeded. *)
Theorem recorded_result_consistent (compilex : Invoker) (code : jsstring)
    (language : string) (timeLimit : Z) (testCase : TestCase.t) :
  consistent_result timeLimit testCase
    (Grading.record
       (executeCode compilex code language (TestCase.input testCase)
                    timeLimit)
       testCase).
Proof.
  unfold executeCode. destruct (String.eqb language "python");
    [apply settled_consistent|].
  destruct (compilexLang language); [apply settled_consistent|..];
    unfold consistent_result; by split_and!.
Qed.

(** ** The lists of a user's submissions *)

Lemma matches_spec contestId questionId userId (s : Submission.t) :
  Db.matches contestId questionId userId s = true
  <-> Submission.contestId s = contestId
      /\ Submission.questionId s = questionId
      /\ Submission.userId s = userId.
Proof.
  unfold Db.matches. rewrite !andb_true_iff, !String.eqb_eq.
  split; [by intros [[-> ->] ->] | by intros (<- & <- & <-)].
Qed.

(** X8.  The list a user gets of the submissions to a question holds
    exactly the stored submissions of that user to that question of that
    contest, each as often as it is stored, the newest first; its length is
    the count that [POST /] compares with [maxAttempts].  So, with requests
    served one after the other from an empty collection, the list never has
    more than [maxAttempts] entries.  The list for the whole contest holds
    exactly the submissions of the user to the contest, the newest first. *)
Theorem own_submissions_listed (contests : list Contest.t)
    (requests : list (World.t * Request.t)) (contest : Contest.t)
    (questionId user_id : string)
    (Hcontest : findContest (Contest._id contest) contests = Some contest)
    (Hmax : 0 <= Contest.maxAttempts contest) :
  (forall db contestId,
      exists submissions,
        Fetch.ofQuestion None contestId questionId user_id db
        = FetchedMany submissions
        /\ Permutation submissions
             (List.filter (Db.matches contestId questionId user_id) db)
        /\ (forall s,
               In s submissions
               <-> In s db /\ Submission.contestId s = contestId
                   /\ Submission.questionId s = questionId
                   /\ Submission.userId s = user_id)
        /\ StronglySorted
             (fun a b => Submission.submittedAt b <= Submission.submittedAt a)
             submissions
        /\ Z.of_nat (length submissions)
           = Db.count contestId questionId user_id db)
  /\ (forall db contestId,
         exists submissions,
           Fetch.ofContest None contestId user_id db
           = FetchedMany submissions
           /\ (forall s,
                  In s submissions
                  <-> In s db /\ Submission.contestId s = contestId
                      /\ Submission.userId s = user_id)
           /\ StronglySorted
                (fun a b =>
                   Submission.submittedAt b <= Submission.submittedAt a)
                submissions)
  /\ exists submissions,
       Fetch.ofQuestion None (Contest._id contest) questionId user_id
                        (serve contests requests [])
       = FetchedMany submissions
       /\ Z.of_nat (length submissions) <= Contest.maxAttempts contest.
Proof.
  assert (Hq : forall db contestId,
             exists submissions,
               Fetch.ofQuestion None contestId questionId user_id db
               = FetchedMany submissions
               /\ Permutation submissions
                    (List.filter (Db.matches contestId questionId user_id)
                                 db)
               /\ (forall s,
                      In s submissions
                      <-> In s db /\ Submission.contestId s = contestId
                          /\ Submission.questionId s = questionId
                          /\ Submission.userId s = user_id)
               /\ StronglySorted
                    (fun a b =>
                       Submission.submittedAt b <= Submission.submittedAt a)
                    submissions
               /\ Z.of_nat (length submissions)
                  = Db.count contestId questionId user_id db).
  { intros db contestId. eexists. split; [reflexivity|].
    split; [apply arrange_perm|]. split; [|split].
    - intros s. rewrite arrange_In, filter_In, matches_spec. done.
    - apply newest_first_sorted.
    - unfold Db.count. by rewrite arrange_length. }
  split; [exact Hq|]. split.
  - intros db contestId. eexists. split; [reflexivity|]. split.
    + intros s. rewrite arrange_In, filter_In. unfold Query.ofContestUser.
      rewrite andb_true_iff, !String.eqb_eq.
      split; [by intros [? [-> ->]] | by intros (? & <- & <-)].
    + apply newest_first_sorted.
  - destruct (Hq (serve contests requests []) (Contest._id contest))
      as (submissions & E & _ & _ & _ & L).
    exists submissions. split; [done|]. rewrite L.
    apply serve_keeps_limit; [done|constructor|]. simpl. done.
Qed.

(** X8 for three requests of the same user against a limit of 2. *)
Lemma own_submissions_listed_witness :
  let again id := (calm 1500 id, sample_request) in
  exists submissions,
    Fetch.ofQuestion None "c1" "q1" "u1"
      (serve [sample_contest] [again "s1"; again "s2"; again "s3"] [])
    = FetchedMany submissions
    /\ Z.of_nat (length submissions) <= 2.
Proof.
  intros again.
  destruct (own_submissions_listed [sample_contest]
              [again "s1"; again "s2"; again "s3"] sample_contest
              "q1" "u1") as (_ & _ & H); [reflexivity|simpl; lia|].
  exact H.
Defined.

(** ** The totals the [pre('save')] hook maintains *)

Section Totals.
Implicit Types (db : Db.t) (doc s : Submission.t).

Lemma preSave_totals s :
  (Submission.status s = Submission.completed ->
   Submission.marksAwarded s
   = Zsum (map TestCaseResult.marksAwarded (Submission.testCaseResults s))) ->
  (Submission.status s = Submission.pending ->
   Submission.testCaseResults s = []) ->
  consistent_totals (Submission.preSave s).
Proof.
  intros Hc Hp. unfold consistent_totals.
  cbn [Submission.preSave Submission.totalTestCases
       Submission.passedTestCases Submission.testCaseResults
       Submission.totalMarks Submission.status Submission.marksAwarded].
  rewrite reduce_sum_Zsum. split_and!; try done; try lia.
  apply inj_le, length_filter.
Qed.

Lemma replace_Forall (P : Submission.t -> Prop) doc db :
  P doc -> Forall P db -> Forall P (Db.replace doc db).
Proof.
  intros Hd H. unfold Db.replace. apply Forall_fmap.
  eapply Forall_impl; [exact H|]. intros x Hx. simpl.
  by destruct (Db.has_id _ x).
Qed.

Lemma save_totals fault doc db db' :
  (Submission.status doc = Submission.completed ->
   Submission.marksAwarded doc
   = Zsum (map TestCaseResult.marksAwarded
               (Submission.testCaseResults doc))) ->
  (Submission.status doc = Submission.pending ->
   Submission.testCaseResults doc = []) ->
  Forall consistent_totals db ->
  Db.save fault doc db = Returned db' ->
  Forall consistent_totals db'.
Proof.
  intros Hc Hp H. unfold Db.save. destruct fault; [done|].
  destruct (find _ db); [|done]. intros [= <-].
  apply replace_Forall; [by apply preSave_totals | done].
Qed.

Lemma recover_totals faults id message db :
  Forall consistent_totals db ->
  Forall consistent_totals (recover faults id message db).1.
Proof.
  intros H. unfold recover. destruct (Db.findById _ _ _) as [[s|]|]; [|done..].
  destruct (Db.save _ _ db) as [db'|] eqn:E; [|done].
  by eapply save_totals in E.
Qed.

Lemma processSubmission_totals faults compilex id question code language db :
  Forall consistent_totals db ->
  Forall consistent_totals
    (processSubmission faults compilex id question code language db).1.
Proof.
  intros H. unfold processSubmission.
  destruct (Db.findById _ _ _) as [[s|]|]; [|done|by apply recover_totals].
  destruct (Db.save (faults SaveRunning) _ db) as [db1|] eqn:E1;
    [|by apply recover_totals].
  eapply save_totals in E1; [|done..].
  destruct (Db.save (faults SaveCompleted) _ db1) as [db2|] eqn:E2;
    [|by apply recover_totals].
  eapply save_totals in E2; [done| |done|done].
  intros _. cbn [Grading.finish Submission.marksAwarded
                 Submission.testCaseResults].
  destruct (loop_fields compilex code language
              (Question.timeLimit question) 0
              (Question.testCases question) Grading.init)
    as (-> & _ & _ & -> & _).
  simpl. lia.
Qed.

Lemma submit_totals contests w req db :
  Forall consistent_totals db ->
  Forall consistent_totals (submit contests w req db).2.
Proof.
  intros H. unfold submit.
  destruct (validate contests w req db) as [r|[contest question]]; [done|].
  unfold Db.insert. destruct (World.faults w SaveNew); [done|].
  destruct (negb (Submission.valid _)); [done|].
  destruct (find _ db); [done|].
  set (db1 := db ++ _).
  assert (H1 : Forall consistent_totals db1).
  { apply Forall_app. split; [done|]. constructor; [|constructor].
    by apply preSave_totals. }
  pose proof (processSubmission_totals (World.faults w) (World.compilex w)
                (Submission._id (newSubmission w req question)) question
                (Request.code req) (Request.language req) db1 H1) as H2.
  destruct (processSubmission _ _ _ _ _ _ _) as [db2 [u|m]]; [|done].
  by destruct (Db.findById _ _ db2) as [[?|]|].
Qed.

Lemma serve_totals contests requests db :
  Forall consistent_totals db ->
  Forall consistent_totals (serve contests requests db).
Proof.
  revert db. induction requests as [|[w req] rest IH]; intros db H; [done|].
  cbn [serve]. apply IH. by apply submit_totals.
Qed.
End Totals.

(** X9.  Every submission in a collection that was filled by requests to
    [POST /] has totals that agree with its test case results, whatever
    compilex did and whichever database calls rejected: [totalTestCases] is
    the number of its results, [passedTestCases] the number of those that
    passed, so between 0 and [totalTestCases], and [totalMarks] is the sum
    of the marks awarded.  A completed submission has [marksAwarded] equal
    to [totalMarks], and a pending one has no results. *)
Theorem stored_totals_consistent (contests : list Contest.t)
    (requests : list (World.t * Request.t)) :
  Forall consistent_totals (serve contests requests []).
Proof. apply serve_totals. constructor. Qed.

(** ** Contests as participants see them *)

Lemma findContest_In id contests contest :
  findContest id contests = Some contest ->
  In contest contests /\ Contest._id contest = id.
Proof.
  unfold findContest. intros H. apply find_some in H as [H1 H2].
  split; [done|]. symmetry. by apply String.eqb_eq.
Qed.

Lemma findContest_unique contests contest :
  NoDup (map Contest._id contests) -> In contest contests ->
  findContest (Contest._id contest) contests = Some contest.
Proof.
  unfold findContest. induction contests as [|c contests IH]; [done|].
  cbn [map find]. intros N [->|Hin].
  - by rewrite String.eqb_refl.
  - apply NoDup_cons in N as [N1 N2].
    destruct (String.eqb_spec (Contest._id contest) (Contest._id c)) as [E|E];
      [|by apply IH].
    exfalso. apply N1. rewrite <- E. by apply list_elem_of_In, in_map.
Qed.

Lemma listed_accessible now contest :
  Contests.listed now contest
  = negb (negb (Contest.isActive contest) || (Contest.endTime contest <? now)).
Proof.
  unfold Contests.listed. destruct (Contest.isActive contest); [|done].
  cbn [negb orb andb].
  destruct (Z.leb_spec now (Contest.endTime contest)),
    (Z.ltb_spec (Contest.endTime contest) now); (done || lia).
Qed.

(** X10.  The list of contests and the pages of a contest agree on what is
    open: among contests with distinct ids, a contest is in the list of
    [GET /] exactly when [GET /:id] shows it, and then each of its questions
    is shown by [GET /:contestId/questions/:questionId]; otherwise both
    pages answer that the contest is not accessible.  The list is in the
    order of the start times and holds active contests that have not ended.
    A contest that accepts a submission is in the list at that time, and its
    question can be read. *)
Theorem listed_iff_accessible (now : Z) (contests : list Contest.t)
    (contest : Contest.t)
    (Hids : NoDup (map Contest._id contests))
    (Hin : In contest contests) :
  let id := Contest._id contest in
  exists summaries,
    Contests.getContests None now contests = ContestList summaries
    /\ (In (Contests.summary contest) summaries
        <-> Contests.getContest None id now contests
            = ContestDetails (Contests.contestData contest))
    /\ (~ In (Contests.summary contest) summaries
        <-> Contests.getContest None id now contests
            = ContestRejected 403 "Contest is not accessible")
    /\ (forall questionId question,
           findQuestion questionId contest = Some question ->
           (In (Contests.summary contest) summaries ->
            Contests.getQuestion None id questionId now contests
            = QuestionDetails (Contests.questionData question))
           /\ (~ In (Contests.summary contest) summaries ->
               Contests.getQuestion None id questionId now contests
               = ContestRejected 403 "Contest is not accessible"))
    /\ StronglySorted
         (fun a b => ContestSummary.startTime a <= ContestSummary.startTime b)
         summaries
    /\ (forall c, In c summaries -> now <= ContestSummary.endTime c)
    /\ (forall w req db contest' question,
           World.now w = now ->
           validate contests w req db = inr (contest', question) ->
           In (Contests.summary contest') summaries
           /\ Contests.getQuestion None (Request.contestId req)
                (Request.questionId req) now contests
              = QuestionDetails (Contests.questionData question)).
Proof.
  intros id. eexists. split; [reflexivity|].
  pose proof (findContest_unique contests contest Hids Hin) as Hfind.
  assert (Hlisted : forall c,
             In c contests ->
             (In (Contests.summary c)
                 (map Contests.summary
                      (arrange Contests.earliest_first
                         (List.filter (Contests.listed now) contests)))
              <-> Contests.listed now c = true)).
  { intros c Hc. rewrite in_map_iff. split.
    - intros (c' & E & Hc'). apply arrange_In, filter_In in Hc' as [Hc' L].
      assert (c' = c) as ->; [|done].
      pose proof (findContest_unique contests c' Hids Hc') as F.
      assert (Eid : Contest._id c' = Contest._id c) by (by injection E).
      rewrite Eid, (findContest_unique contests c Hids Hc) in F.
      by injection F.
    - intros L. exists c. split; [done|]. apply arrange_In, filter_In. done. }
  split; [|split; [|split; [|split; [|split]]]].
  - rewrite (Hlisted contest Hin), listed_accessible.
    unfold Contests.getContest. fold id in Hfind. rewrite Hfind.
    destruct (negb (Contest.isActive contest) || _); split; done.
  - rewrite (Hlisted contest Hin), listed_accessible.
    unfold Contests.getContest. fold id in Hfind. rewrite Hfind.
    destruct (negb (Contest.isActive contest) || _); split; done.
  - intros questionId question Hq. unfold Contests.getQuestion.
    fold id in Hfind. rewrite Hfind, Hq.
    pose proof (Hlisted contest Hin) as L. rewrite listed_accessible in L.
    destruct (negb (Contest.isActive contest) || _).
    + split; [intros H; by apply L in H | done].
    + split; [done|]. intros H. exfalso. by apply H, L.
  - apply StronglySorted_mapped.
    eapply StronglySorted_weaken; [|apply arrange_sorted].
    + intros a b H. unfold Contests.earliest_first in H.
      cbn [Contests.summary ContestSummary.startTime]. lia.
    + intros a b. unfold Contests.earliest_first. lia.
    + intros a b c. unfold Contests.earliest_first. lia.
  - intros c (c' & <- & Hc')%in_map_iff.
    apply arrange_In, filter_In in Hc' as [_ L].
    unfold Contests.listed in L. apply andb_prop in L as [_ L].
    cbn [Contests.summary ContestSummary.endTime]. lia.
  - intros w req db contest' question Hnow V.
    apply validate_accepts in V as (Hc & Hq & Ha & [_ Hend] & _).
    pose proof (findContest_In _ _ _ Hc) as [Hc' _].
    assert (L : Contests.listed now contest' = true).
    { unfold Contests.listed. rewrite Ha. cbn [andb]. lia. }
    split; [by apply Hlisted|].
    unfold Contests.getQuestion. rewrite Hc, Hq.
    rewrite listed_accessible in L. apply negb_true_iff in L.
    by rewrite L.
Qed.

(** X10 for [sample_contest], which ends at 2000, at 1500 and at 2500. *)
Lemma listed_iff_accessible_witness :
  Contests.getContests None 1500 [sample_contest]
  = ContestList [Contests.summary sample_contest]
  /\ Contests.getContest None "c1" 1500 [sample_contest]
     = ContestDetails (Contests.contestData sample_contest)
  /\ Contests.getContests None 2500 [sample_contest] = ContestList []
  /\ Contests.getContest None "c1" 2500 [sample_contest]
     = ContestRejected 403 "Contest is not accessible".
Proof.
  destruct (listed_iff_accessible 1500 [sample_contest] sample_contest)
    as (l1 & E1 & [H1 _] & _);
    [repeat constructor; by intros ?%elem_of_nil | by left |].
  destruct (listed_iff_accessible 2500 [sample_contest] sample_contest)
    as (l2 & E2 & _ & [H2 _] & _);
    [repeat constructor; by intros ?%elem_of_nil | by left |].
  injection E1 as <-. injection E2 as <-.
  split; [reflexivity|]. split; [apply H1; by left|].
  split; [reflexivity|]. apply H2. intros [].
Defined.

(** ** Participants *)

Section Register.
Variable populated : string -> bool.
Implicit Types (u : string) (subs : list Submission.t) (s : Submission.t).

(** The map of the participants has, for each user that [populate] finds,
    the date of the first of the user's submissions in the list. *)
Lemma register_first subs :
  let m := fold_left (Admin.register populated) subs [] in
  keys_once m
  /\ forall u,
       JSMap.get u m
       = if populated u
         then option_map
                (fun s => Participant.mk u (Submission.submittedAt s))
                (head (by_user u subs))
         else None.
Proof.
  induction subs as [|s subs [IH1 IH2]] using rev_ind.
  { split; [constructor|]. intros u. by destruct (populated u). }
  cbv zeta. rewrite fold_left_app. cbn [fold_left].
  set (m := fold_left (Admin.register populated) subs []) in *.
  unfold Admin.register. unfold JSMap.has.
  rewrite (IH2 (Submission.userId s)).
  destruct (populated (Submission.userId s)) eqn:Hp; cbn [andb].
  - destruct (by_user (Submission.userId s) subs) as [|s0 rest] eqn:Hb;
      cbn [head option_map negb].
    + split; [by apply set_keys_once|]. intros u.
      destruct (String.eqb_spec (Submission.userId s) u) as [<-|Hu].
      * rewrite get_set_eq, Hp, by_user_snoc, Hb, String.eqb_refl. done.
      * rewrite get_set_ne by done. rewrite IH2, by_user_snoc.
        destruct (String.eqb_spec u (Submission.userId s)); [congruence|].
        by rewrite app_nil_r.
    + split; [done|]. intros u. rewrite IH2, by_user_snoc.
      destruct (String.eqb_spec u (Submission.userId s)) as [->|Hu].
      * by rewrite Hb.
      * by rewrite app_nil_r.
  - split; [done|]. intros u. rewrite IH2, by_user_snoc.
    destruct (String.eqb_spec u (Submission.userId s)) as [->|Hu].
    + by rewrite Hp.
    + by rewrite app_nil_r.
Qed.
End Register.

Lemma head_filter_sorted {A : Type} (key : A -> Z) (f : A -> bool)
    (l : list A) (x : A) :
  StronglySorted (fun a b => key a <= key b) l ->
  head (List.filter f l) = Some x ->
  In x l /\ f x = true
  /\ forall y, In y l -> f y = true -> key x <= key y.
Proof.
  induction 1 as [|a l Hl IH Ha]; [done|]. cbn [List.filter].
  destruct (f a) eqn:Hf.
  - intros [= ->]. split; [by left|]. split; [done|].
    intros y [<-|Hy] _; [lia|].
    rewrite Forall_forall in Ha. by apply Ha, list_elem_of_In.
  - intros H. destruct (IH H) as (H1 & H2 & H3).
    split; [by right|]. split; [done|].
    intros y [<-|Hy] Hfy; [congruence|]. by apply H3.
Qed.

Lemma participants_entries (role id : string)
    (populated : string -> bool) (db : Db.t)
    (Hrole : role = "admin"%string \/ role = "instructor"%string) :
  (exists participants,
      Admin.participants role id None populated db
      = ParticipantList participants
      /\ NoDup (map Participant._id participants)
      /\ (forall p,
             In p participants ->
             populated (Participant._id p) = true
             /\ (exists s,
                    In s db /\ Submission.contestId s = id
                    /\ Submission.userId s = Participant._id p
                    /\ Submission.submittedAt s = Participant.registeredAt p)
             /\ (forall s,
                    In s db -> Submission.contestId s = id ->
                    Submission.userId s = Participant._id p ->
                    Participant.registeredAt p <= Submission.submittedAt s))
      /\ (forall s,
             In s db -> Submission.contestId s = id ->
             populated (Submission.userId s) = true ->
             exists p, In p participants
                       /\ Participant._id p = Submission.userId s))
  /\ (forall role',
         role' <> "admin"%string -> role' <> "instructor"%string ->
         Admin.participants role' id None populated db
         = AdminRejected 403 "Admin access required").
Proof.
  split.
  2:{ intros role' H1 H2. unfold Admin.participants, staff.
      rewrite bool_decide_eq_false_2; [done|].
      intros [->|[->|[]%elem_of_nil]%elem_of_cons]%elem_of_cons; done. }
  unfold Admin.participants, staff.
  rewrite bool_decide_eq_true_2
    by (destruct Hrole as [->| ->]; set_solver).
  cbn [negb Query.find].
  set (subs := arrange Query.oldest_first
                 (List.filter (Query.ofContest id) db)).
  destruct (register_first populated subs) as [Honce Hget].
  set (m := fold_left (Admin.register populated) subs []) in *.
  assert (Hsubs : forall s,
             In s subs <-> In s db /\ Submission.contestId s = id).
  { intros s. subst subs. rewrite arrange_In, filter_In.
    unfold Query.ofContest. rewrite String.eqb_eq. split; intros [? ?]; done. }
  assert (Hsorted : StronglySorted
                      (fun a b =>
                         Submission.submittedAt a <= Submission.submittedAt b)
                      subs) by apply oldest_first_sorted.
  assert (Hentry : forall k p,
             In (k, p) m ->
             populated k = true
             /\ exists s, head (by_user k subs) = Some s
                          /\ p = Participant.mk k (Submission.submittedAt s)).
  { intros k p Hin. apply (get_in_once _ _ _ Honce) in Hin.
    rewrite Hget in Hin. destruct (populated k); [|done].
    destruct (head (by_user k subs)) as [s|]; [|done].
    injection Hin as <-. eauto. }
  eexists. split; [reflexivity|]. split; [|split].
  - unfold JSMap.values.
    assert (E : map Participant._id (map snd m) = map fst m).
    { rewrite map_map. apply map_ext_in. intros [k p] Hin.
      by destruct (Hentry k p Hin) as (_ & s & _ & ->). }
    rewrite E. exact Honce.
  - intros p ([k p'] & <- & Hin)%in_map_iff. cbn [snd].
    destruct (Hentry k p' Hin) as (Hp & s & Hs & ->).
    cbn [Participant._id Participant.registeredAt].
    destruct (head_filter_sorted Submission.submittedAt _ _ _ Hsorted Hs)
      as (H1 & H2 & H3).
    apply String.eqb_eq in H2. apply Hsubs in H1 as [H1 H1'].
    split; [done|]. split; [by exists s|].
    intros s' Hs' Hc Hu. apply H3; [by apply Hsubs|].
    apply String.eqb_eq. done.
  - intros s Hs Hc Hp.
    assert (Hin : In s (by_user (Submission.userId s) subs)).
    { apply filter_In. split; [by apply Hsubs|]. apply String.eqb_refl. }
    pose proof (Hget (Submission.userId s)) as G. rewrite Hp in G.
    destruct (by_user (Submission.userId s) subs) as [|s0 rest]; [done|].
    cbn [head option_map] in G. eexists. split.
    + apply in_map_iff. eexists (_, _). split; [reflexivity|].
      by apply get_in.
    + done.
Qed.

(** X11.  The participants of a contest, for an admin or an instructor, are
    the users that [populate] finds among the authors of the submissions to
    the contest, each once; a participant is registered at the date of the
    earliest of the user's submissions to the contest.  Any other role is
    refused. *)
Theorem participants_registered_once (role id : string)
    (populated : string -> bool) (db : Db.t)
    (Hrole : role = "admin"%string \/ role = "instructor"%string) :
  (exists participants,
      Admin.participants role id None populated db
      = ParticipantList participants
      /\ NoDup (map Participant._id participants)
      /\ (forall p,
             In p participants ->
             populated (Participant._id p) = true
             /\ (exists s,
                    In s db /\ Submission.contestId s = id
                    /\ Submission.userId s = Participant._id p
                    /\ Submission.submittedAt s = Participant.registeredAt p)
             /\ (forall s,
                    In s db -> Submission.contestId s = id ->
                    Submission.userId s = Participant._id p ->
                    Participant.registeredAt p <= Submission.submittedAt s))
      /\ (forall s,
             In s db -> Submission.contestId s = id ->
             populated (Submission.userId s) = true ->
             exists p, In p participants
                       /\ Participant._id p = Submission.userId s))
  /\ (forall role',
         role' <> "admin"%string -> role' <> "instructor"%string ->
         Admin.participants role' id None populated db
         = AdminRejected 403 "Admin access required").
Proof. by apply participants_entries. Qed.

(** X11 for two submissions of one user and one of another. *)
Lemma participants_registered_once_witness :
  Admin.participants "admin" "c1" None everyone three_way_tie
  = ParticipantList
      [Participant.mk "u1" 2; Participant.mk "u3" 4; Participant.mk "u2" 5].
Proof.
  destruct (participants_registered_once "admin" "c1" everyone
              three_way_tie) as [(participants & E & _) _];
    [by left|].
  rewrite E. vm_compute in E. injection E as <-. reflexivity.
Defined.

(** ** The leaderboard route *)

Section Board.
Variable populated : string -> bool.
Implicit Types (u : string) (subs : list Submission.t) (s : Submission.t).

Lemma scan_entry_key subs k e :
  In (k, e) (Leaderboard.scan populated subs) ->
  UserScore.userId e = k /\ populated k = true /\ tracks k subs e.
Proof.
  intros Hin. destruct (scan_keys populated subs) as [Honce Hpop].
  assert (Hk : populated k = true).
  { apply Hpop. change k with (fst (k, e)). by apply in_map. }
  pose proof (scan_tracks populated k subs Hk) as T.
  rewrite (get_in_once _ _ _ Honce Hin) in T.
  split; [by destruct T|]. done.
Qed.

Lemma scan_users_once subs :
  NoDup (map UserScore.userId
             (JSMap.values (Leaderboard.scan populated subs))).
Proof.
  unfold JSMap.values.
  assert (E : map UserScore.userId
                  (map snd (Leaderboard.scan populated subs))
              = map fst (Leaderboard.scan populated subs)).
  { rewrite map_map. apply map_ext_in. intros [k e] Hin.
    by destruct (scan_entry_key subs k e Hin) as [? _]. }
  rewrite E. apply scan_keys.
Qed.

(** The entry of a user carries the date of the last of the user's
    submissions in the list. *)
Lemma scan_last u subs :
  populated u = true ->
  match JSMap.get u (Leaderboard.scan populated subs) with
  | Some e =>
      option_map Submission.submittedAt (last (by_user u subs))
      = Some (UserScore.lastSubmission e)
  | None => True
  end.
Proof.
  intros Hp. induction subs as [|s subs IH] using rev_ind; [done|].
  rewrite scan_snoc. unfold Leaderboard.visit. rewrite by_user_snoc.
  destruct (populated (Submission.userId s)) eqn:Hs; cbn [negb].
  - destruct (String.eqb_spec (Submission.userId s) u) as [Hu|Hu].
    + rewrite Hu, get_set_eq, <- Hu, String.eqb_refl, last_snoc. done.
    + rewrite get_set_ne by done.
      destruct (String.eqb_spec u (Submission.userId s)); [congruence|].
      by rewrite app_nil_r.
  - destruct (String.eqb_spec u (Submission.userId s)); [congruence|].
    by rewrite app_nil_r.
Qed.
End Board.

Lemma buildLeaderboard_entries populated contest subs e :
  In e (Leaderboard.buildLeaderboard populated contest subs)
  <-> exists e0,
        In e0 (JSMap.values (Leaderboard.scan populated subs))
        /\ e = Leaderboard.set_maxPossibleScore
                 (Leaderboard.maxPossibleScore contest) e0.
Proof.
  unfold Leaderboard.buildLeaderboard. split.
  - intros H. apply (Permutation_in _ (sort_perm _)) in H.
    apply in_map_iff in H as (e0 & <- & H). eauto.
  - intros (e0 & H & ->).
    apply (Permutation_in _ (Permutation_sym (sort_perm _))).
    by apply in_map.
Qed.

Lemma maxPossibleScore_Zsum contest :
  Leaderboard.maxPossibleScore contest
  = Zsum (map Question.totalMarks (Contest.questions contest)).
Proof.
  unfold Leaderboard.maxPossibleScore.
  assert (G : forall l z,
             fold_left (fun total question =>
                          total + Question.totalMarks question) l z
             = z + Zsum (map Question.totalMarks l)).
  { induction l as [|q l IH]; intros z; simpl; [unfold Zsum; simpl; lia|].
    rewrite IH. unfold Zsum. simpl. lia. }
  rewrite G. lia.
Qed.

Lemma staff_spec role :
  staff role = true <-> role = "admin"%string \/ role = "instructor"%string.
Proof.
  unfold staff. rewrite bool_decide_eq_true, !elem_of_cons, elem_of_nil.
  split; [intros [?|[?|[]]]; auto | intros [?|?]; auto].
Qed.

(** X12.  The leaderboard is for admins and instructors only: any other
    role is refused before anything is looked up, and a contest that does
    not exist is not found.  Otherwise the leaderboard has one row for each
    user, every row carries the same [maxPossibleScore], the sum of
    [totalMarks] over the questions of the contest, and a submission to
    another contest has no influence on it. *)
Theorem leaderboard_of_one_contest (role id : string)
    (contests : list Contest.t) (populated : string -> bool) (db : Db.t)
    (contest : Contest.t)
    (Hrole : role = "admin"%string \/ role = "instructor"%string)
    (Hcontest : findContest id contests = Some contest) :
  (exists board,
      Admin.leaderboard role id contests None None populated db
      = LeaderboardOf board
      /\ NoDup (map UserScore.userId board)
      /\ Forall (fun e =>
                   UserScore.maxPossibleScore e
                   = Zsum (map Question.totalMarks
                               (Contest.questions contest)))
                board
      /\ (forall db1 s db2,
             db = db1 ++ s :: db2 -> Submission.contestId s <> id ->
             Admin.leaderboard role id contests None None populated
                               (db1 ++ db2)
             = LeaderboardOf board))
  /\ (forall role' contests' fault_contest fault_find db',
         role' <> "admin"%string -> role' <> "instructor"%string ->
         Admin.leaderboard role' id contests' fault_contest fault_find
                           populated db'
         = AdminRejected 403 "Admin access required")
  /\ (forall contests' db',
         findContest id contests' = None ->
         Admin.leaderboard role id contests' None None populated db'
         = AdminRejected 404 "Contest not found").
Proof.
  apply staff_spec in Hrole. split; [|split].
  - unfold Admin.leaderboard. rewrite Hrole, Hcontest. cbn [negb Query.find].
    eexists. split; [reflexivity|]. split; [|split].
    + unfold Leaderboard.buildLeaderboard.
      rewrite (Permutation_map _ (sort_perm _)), map_map.
      apply scan_users_once.
    + apply Forall_forall. intros e He. apply list_elem_of_In in He.
      apply buildLeaderboard_entries in He as (e0 & _ & ->).
      cbn [Leaderboard.set_maxPossibleScore UserScore.maxPossibleScore].
      apply maxPossibleScore_Zsum.
    + intros db1 s db2 -> Hs.
      assert (E : List.filter (Query.ofContest id) (db1 ++ s :: db2)
                  = List.filter (Query.ofContest id) (db1 ++ db2)).
      { rewrite !List.filter_app. cbn [List.filter].
        unfold Query.ofContest at 2.
        by destruct (String.eqb_spec id (Submission.contestId s)). }
      by rewrite E.
  - intros role' contests' f1 f2 db' H1 H2. unfold Admin.leaderboard.
    destruct (staff role') eqn:E; [|done].
    apply staff_spec in E as [?|?]; done.
  - intros contests' db' H. unfold Admin.leaderboard.
    by rewrite Hrole, H.
Qed.

(** X12 for [three_way_tie] and a submission to another contest. *)
Lemma leaderboard_of_one_contest_witness :
  exists board,
    Admin.leaderboard "instructor" "c1" [sample_contest] None None everyone
                      three_way_tie = LeaderboardOf board
    /\ map UserScore.userId board = ["u1"; "u3"; "u2"]%string
    /\ Forall (fun e => UserScore.maxPossibleScore e = 10) board.
Proof.
  destruct (leaderboard_of_one_contest "instructor" "c1" [sample_contest]
              everyone three_way_tie sample_contest)
    as [(board & E & _ & H & _) _]; [by right|reflexivity|].
  exists board. split; [exact E|]. split; [|exact H].
  vm_compute in E. injection E as <-. reflexivity.
Defined.

Lemma last_filter_sorted {A : Type} (key : A -> Z) (f : A -> bool)
    (l : list A) (x : A) :
  StronglySorted (fun a b => key b <= key a) l ->
  last (List.filter f l) = Some x ->
  In x l /\ f x = true
  /\ forall y, In y l -> f y = true -> key x <= key y.
Proof.
  induction 1 as [|a l Hl IH Ha]; [done|]. cbn [List.filter].
  rewrite Forall_forall in Ha.
  destruct (f a) eqn:Hf.
  - destruct (List.filter f l) as [|b r] eqn:E.
    + intros [= ->]. split; [by left|]. split; [done|].
      intros y [<-|Hy] Hfy; [lia|]. exfalso.
      assert (Hin : In y (List.filter f l)) by (by apply filter_In).
      by rewrite E in Hin.
    + rewrite last_cons_cons. intros H. destruct (IH H) as (H1 & H2 & H3).
      split; [by right|]. split; [done|].
      intros y [<-|Hy] Hfy; [by apply Ha, list_elem_of_In | by apply H3].
  - intros H. destruct (IH H) as (H1 & H2 & H3).
    split; [by right|]. split; [done|].
    intros y [<-|Hy] Hfy; [congruence | by apply H3].
Qed.

Lemma board_lastSubmission (role id : string)
    (contests : list Contest.t) (populated : string -> bool) (db : Db.t)
    (board : list UserScore.t) (e : UserScore.t)
    (Hboard : Admin.leaderboard role id contests None None populated db
              = LeaderboardOf board)
    (He : In e board) :
  (exists s,
      In s db /\ Submission.contestId s = id
      /\ Submission.userId s = UserScore.userId e
      /\ Submission.submittedAt s = UserScore.lastSubmission e)
  /\ (forall s,
         In s db -> Submission.contestId s = id ->
         Submission.userId s = UserScore.userId e ->
         UserScore.lastSubmission e <= Submission.submittedAt s).
Proof.
  unfold Admin.leaderboard in Hboard.
  destruct (staff role); [|done]. cbn [negb Query.find] in Hboard.
  destruct (findContest id contests) as [contest|]; [|done].
  injection Hboard as <-.
  set (subs := arrange Query.newest_first
                 (List.filter (Query.ofContest id) db)) in *.
  assert (Hsubs : forall s,
             In s subs <-> In s db /\ Submission.contestId s = id).
  { intros s. subst subs. rewrite arrange_In, filter_In.
    unfold Query.ofContest. rewrite String.eqb_eq. split; intros [? ?]; done. }
  apply buildLeaderboard_entries in He as (e0 & He0 & ->).
  cbn [Leaderboard.set_maxPossibleScore UserScore.userId
       UserScore.lastSubmission].
  unfold JSMap.values in He0. apply in_map_iff in He0 as ([k e1] & <- & Hin).
  cbn [snd].
  destruct (scan_entry_key populated subs k e1 Hin) as (Hk & Hp & _).
  pose proof (scan_last populated k subs Hp) as L.
  destruct (scan_keys populated subs) as [Honce _].
  rewrite (get_in_once _ _ _ Honce Hin) in L.
  destruct (last (by_user k subs)) as [s|] eqn:Hlast; [|done].
  injection L as L.
  destruct (last_filter_sorted Submission.submittedAt _ _ _
              (newest_first_sorted _) Hlast) as (H1 & H2 & H3).
  apply String.eqb_eq in H2. apply Hsubs in H1 as [H1 H1'].
  rewrite Hk. split.
  - exists s. by split_and!.
  - intros s' Hs' Hc Hu. rewrite <- L. apply H3; [by apply Hsubs|].
    apply String.eqb_eq. done.
Qed.

(** X13.  The [lastSubmission] of a row of the leaderboard is the date of
    the earliest submission of the user to the contest, not of the latest:
    the submissions are visited from the newest to the oldest, and each one
    overwrites the date. *)
Theorem lastSubmission_is_earliest (role id : string)
    (contests : list Contest.t) (populated : string -> bool) (db : Db.t)
    (board : list UserScore.t) (e : UserScore.t)
    (Hboard : Admin.leaderboard role id contests None None populated db
              = LeaderboardOf board)
    (He : In e board) :
  (exists s,
      In s db /\ Submission.contestId s = id
      /\ Submission.userId s = UserScore.userId e
      /\ Submission.submittedAt s = UserScore.lastSubmission e)
  /\ (forall s,
         In s db -> Submission.contestId s = id ->
         Submission.userId s = UserScore.userId e ->
         UserScore.lastSubmission e <= Submission.submittedAt s).
Proof. by eapply board_lastSubmission. Qed.

(** X13 for user1, who submitted at 1 and then at 2. *)
Lemma lastSubmission_is_earliest_witness :
  exists e,
    Admin.leaderboard "admin" "c1" [sample_contest] None None everyone
                      forty_then_thirty = LeaderboardOf [e]
    /\ UserScore.lastSubmission e = 1
    /\ forall s, In s forty_then_thirty ->
                 UserScore.lastSubmission e <= Submission.submittedAt s.
Proof.
  eexists. split; [vm_compute; reflexivity|]. split; [reflexivity|].
  intros s Hs.
  eapply (lastSubmission_is_earliest "admin" "c1" [sample_contest] everyone
            forty_then_thirty).
  - vm_compute. reflexivity.
  - by left.
  - exact Hs.
  - by destruct Hs as [<-|[<-|[]]].
  - by destruct Hs as [<-|[<-|[]]].
Defined.

Section Rearranged.
Implicit Types (u q : string) (subs : list Submission.t) (s : Submission.t).

Lemma filter_perm {A : Type} (f : A -> bool) (l l' : list A) :
  Permutation l l' -> Permutation (List.filter f l) (List.filter f l').
Proof.
  induction 1 as [|x l l' _ IH|x y l|l1 l2 l3 _ IH1 _ IH2]; cbn [List.filter].
  - done.
  - destruct (f x); [by constructor | done].
  - destruct (f x), (f y); (done || by constructor).
  - by etransitivity.
Qed.




Lemma scan_key_submitted populated subs k :
  In k (map fst (Leaderboard.scan populated subs)) ->
  exists s, In s subs /\ Submission.userId s = k.
Proof.
  induction subs as [|s subs IH] using rev_ind; [done|].
  rewrite scan_snoc. unfold Leaderboard.visit.
  destruct (populated (Submission.userId s)); cbn [negb].
  - rewrite set_keys. intros H.
    assert (H' : In k (map fst (Leaderboard.scan populated subs))
                 \/ k = Submission.userId s).
    { destruct (JSMap.has _ _); [by left|].
      apply in_app_or in H as [H|[<-|[]]]; [by left | by right]. }
    destruct H' as [H'| ->].
    + destruct (IH H') as (s' & Hs' & Hu). exists s'.
      split; [|done]. apply in_or_app. by left.
    + exists s. split; [|done]. apply in_or_app. right. by left.
  - intros H. destruct (IH H) as (s' & Hs' & Hu). exists s'.
    split; [|done]. apply in_or_app. by left.
Qed.
End Rearranged.



Section Bounds.
Context {A : Type}.
Implicit Types (f g : A -> Z) (l : list A).




End Bounds.




(** ** Marks and the hook of the contest model *)

Section Marks.
Implicit Types (db : Db.t) (doc s : Submission.t) (id : string).

Lemma recover_marks faults id message db s :
  NoDup (map Submission._id db) -> stored id db = Some s ->
  exists s',
    stored id (recover faults id message db).1 = Some s'
    /\ Submission.maxMarks s' = Submission.maxMarks s
    /\ Submission.marksAwarded s' = Submission.marksAwarded s
    /\ Submission.scorePercentage s' = Submission.scorePercentage s
    /\ (Submission.status s' = Submission.completed ->
        Submission.status s = Submission.completed).
Proof.
  intros N Hs. unfold recover, Db.findById.
  destruct (faults FindForError); [by eauto 10|].
  fold (stored id db). rewrite Hs.
  destruct (Db.save _ _ db) as [db'|] eqn:E; [|by eauto 10].
  eapply save_frame in E as [_ S]; [|done..].
  eexists. split; [exact S|]. by split_and!.
Qed.

(** The document of a submission after [processSubmission], whatever
    rejects: graded to the end, or with the marks it had. *)
Lemma processSubmission_marks faults compilex id question code language db
    s0 :
  NoDup (map Submission._id db) -> stored id db = Some s0 ->
  let a := tally compilex code language question in
  exists s,
    stored id (processSubmission faults compilex id question code language
                                 db).1 = Some s
    /\ Submission.maxMarks s = Submission.maxMarks s0
    /\ ((Submission.status s = Submission.completed
         /\ Submission.marksAwarded s = Grading.obtainedMarks a
         /\ Submission.scorePercentage s
            = Grading.scorePercentage (Grading.obtainedMarks a)
                                      (Grading.totalMarks a))
        \/ (Submission.marksAwarded s = Submission.marksAwarded s0
            /\ Submission.scorePercentage s = Submission.scorePercentage s0
            /\ (Submission.status s = Submission.completed ->
                Submission.status s0 = Submission.completed))).
Proof.
  intros N Hs a. unfold processSubmission, Db.findById.
  assert (Hrecover : forall message,
             exists s,
               stored id (recover faults id message db).1 = Some s
               /\ Submission.maxMarks s = Submission.maxMarks s0
               /\ ((Submission.status s = Submission.completed
                    /\ Submission.marksAwarded s = Grading.obtainedMarks a
                    /\ Submission.scorePercentage s
                       = Grading.scorePercentage (Grading.obtainedMarks a)
                                                 (Grading.totalMarks a))
                   \/ (Submission.marksAwarded s = Submission.marksAwarded s0
                       /\ Submission.scorePercentage s
                          = Submission.scorePercentage s0
                       /\ (Submission.status s = Submission.completed ->
                           Submission.status s0 = Submission.completed)))).
  { intros message.
    destruct (recover_marks faults id message db s0 N Hs)
      as (s & S & M & A & P & C).
    exists s. split; [done|]. split; [done|]. right. by split_and!. }
  destruct (faults FindSubmission); [apply Hrecover|].
  fold (stored id db). rewrite Hs.
  destruct (Db.save (faults SaveRunning) _ db) as [db1|] eqn:E1;
    [|apply Hrecover].
  eapply save_frame in E1 as [F1 S1]; [|done..].
  pose proof (NoDup_same_keys _ _ (proj1 F1) N) as N1.
  destruct (Db.save (faults SaveCompleted) _ db1) as [db2|] eqn:E2.
  - eapply save_frame in E2 as [_ S2]; [|done..]. cbn [fst].
    eexists. split; [exact S2|]. split; [done|]. left. by split_and!.
  - destruct (recover_marks faults id message db1 _ N1 S1)
      as (s & S & M & A & P & C).
    exists s. split; [done|]. split; [by rewrite M|]. right.
    split; [by rewrite A|]. split; [by rewrite P|].
    intros H. by apply C in H.
Qed.
End Marks.

Lemma questionSchema_preSave_totalMarks (question : Question.t) :
  Question.totalMarks (questionSchema_preSave question)
  = Zsum (map TestCase.marks (Question.testCases question)).
Proof.
  unfold questionSchema_preSave. cbn [Question.totalMarks].
  assert (G : forall l z,
             fold_left (fun total testCase =>
                          total + TestCase.marks testCase) l z
             = z + Zsum (map TestCase.marks l)).
  { induction l as [|t l IH]; intros z; simpl; [unfold Zsum; simpl; lia|].
    rewrite IH. unfold Zsum. simpl. lia. }
  rewrite G. lia.
Qed.

Lemma stored_snoc id db doc :
  stored id db = None -> Submission._id doc = id ->
  stored id (db ++ [doc]) = Some doc.
Proof.
  unfold stored. intros H <-. induction db as [|x db IH]; simpl in *.
  - by rewrite (proj2 (has_id_eq _ doc) eq_refl).
  - destruct (Db.has_id (Submission._id doc) x); [done|]. by apply IH.
Qed.

(** X16.  The hook of the contest model sets the [totalMarks] of a question
    to the sum of the marks of its test cases, and running it again changes
    nothing.  When the questions of the contests are as the hook leaves them
    and no test case has negative marks, as the schema demands, every
    submission that [POST /] creates and returns has as [maxMarks] the sum
    of the marks of the test cases of its question and a [marksAwarded]
    between 0 and [maxMarks], whatever compilex did and whichever database
    calls rejected; if it is completed, its [scorePercentage] is the
    percentage of [marksAwarded] in [maxMarks], between 0 and 100. *)
Theorem marksAwarded_within_maxMarks (contests : list Contest.t)
    (w : World.t) (req : Request.t) (db db' : Db.t) (id : string)
    (s : Submission.t)
    (Hids : NoDup (map Submission._id db))
    (Hhook : forall contest question,
        In contest contests -> In question (Contest.questions contest) ->
        questionSchema_preSave question = question)
    (Hmin : forall contest question testCase,
        In contest contests -> In question (Contest.questions contest) ->
        In testCase (Question.testCases question) ->
        0 <= TestCase.marks testCase)
    (Hcreated : submit contests w req db = (Created id s, db')) :
  (forall question,
      Question.totalMarks (questionSchema_preSave question)
      = Zsum (map TestCase.marks (Question.testCases question))
      /\ questionSchema_preSave (questionSchema_preSave question)
         = questionSchema_preSave question)
  /\ exists contest question,
       findContest (Request.contestId req) contests = Some contest
       /\ findQuestion (Request.questionId req) contest = Some question
       /\ Submission.maxMarks s
          = Zsum (map TestCase.marks (Question.testCases question))
       /\ 0 <= Submission.marksAwarded s <= Submission.maxMarks s
       /\ (Submission.status s = Submission.completed ->
           Submission.scorePercentage s
           = Grading.scorePercentage (Submission.marksAwarded s)
                                     (Submission.maxMarks s)
           /\ 0 <= Submission.scorePercentage s <= 100).
Proof.
  split; [by intros question; split;
            [apply questionSchema_preSave_totalMarks|]|].
  revert Hcreated. unfold submit.
  destruct (validate contests w req db) as [r|[contest question]] eqn:V.
  { apply validate_rejects in V as (http & message & ->). done. }
  apply validate_accepts in V as (Hc & Hq & _).
  exists contest, question. split; [done|]. split; [done|].
  pose proof (findContest_In _ _ _ Hc) as [Hc' _].
  assert (Hq' : In question (Contest.questions contest)).
  { unfold findQuestion in Hq. by apply find_some in Hq as [? _]. }
  assert (Htotal : Question.totalMarks question
                   = Zsum (map TestCase.marks (Question.testCases question))).
  { rewrite <- (Hhook contest question Hc' Hq') at 1.
    apply questionSchema_preSave_totalMarks. }
  assert (Hmarks : Forall (fun testCase => 0 <= TestCase.marks testCase)
                          (Question.testCases question)).
  { apply Forall_forall. intros testCase Ht.
    apply (Hmin contest question); [done..|]. by apply list_elem_of_In. }
  revert Hcreated. unfold Db.insert.
  destruct (World.faults w SaveNew); [done|].
  destruct (negb (Submission.valid _)); [done|].
  cbn [Submission._id newSubmission].
  fold (stored (World.new_id w) db).
  destruct (stored (World.new_id w) db) eqn:Hs; [done|].
  set (doc := Submission.preSave (newSubmission w req question)).
  assert (N1 : NoDup (map Submission._id (db ++ [doc]))).
  { rewrite map_app. apply NoDup_app. split; [done|]. split.
    - intros x Hx Hx'. apply list_elem_of_singleton in Hx' as ->.
      by apply stored_none_fresh in Hs.
    - repeat constructor. by intros ?%elem_of_nil. }
  pose proof (stored_snoc (World.new_id w) db doc Hs eq_refl) as S1.
  destruct (processSubmission_marks (World.faults w) (World.compilex w)
              (World.new_id w) question (Request.code req)
              (Request.language req) (db ++ [doc]) doc N1 S1)
    as (s' & S & M & H).
  destruct (processSubmission _ _ _ _ _ _ _) as [db2 [u|m]]; cbn [fst] in S;
    [|done].
  unfold Db.findById. destruct (World.faults w FindUpdated); [done|].
  fold (stored (World.new_id w) db2). rewrite S. intros [= <- <- <-].
  assert (Hmax : Submission.maxMarks s'
                 = Zsum (map TestCase.marks (Question.testCases question))).
  { rewrite M. subst doc. cbn. done. }
  split; [done|].
  pose proof (tally_marks_bounds (World.compilex w) (Request.code req)
                (Request.language req) question Hmarks) as B.
  rewrite tally_totalMarks in B.
  destruct H as [(Hst & Ha & Hp) | (Ha & Hp & Hst)].
  - rewrite Hp, Ha, Hmax, tally_totalMarks. split; [lia|]. intros _.
    split; [done|]. apply percentage_bounds. lia.
  - rewrite Ha, Hmax. subst doc. cbn [Submission.preSave newSubmission
      Submission.marksAwarded]. split; [lia|].
    intros Hcompleted. by apply Hst in Hcompleted.
Qed.

(** X16 for the first submission to [sample_contest], whose question has
    two test cases of 5 marks and [totalMarks] 10. *)
Lemma marksAwarded_within_maxMarks_witness :
  exists s,
    submit [sample_contest] (calm 1500 "s1") sample_request []
    = (Created "s1" s, [s])
    /\ Submission.maxMarks s = 10
    /\ 0 <= Submission.marksAwarded s <= Submission.maxMarks s.
Proof.
  assert (H : exists s,
             submit [sample_contest] (calm 1500 "s1") sample_request []
             = (Created "s1" s, [s])).
  { eexists. vm_compute. reflexivity. }
  destruct H as [s Hs]. exists s. split; [exact Hs|].
  destruct (marksAwarded_within_maxMarks [sample_contest] (calm 1500 "s1")
              sample_request [] [s] "s1" s)
    as (_ & contest & question & Hc & Hq & Hm & Hb & _).
  - constructor.
  - intros c q [<-|[]] [<-|[]]. reflexivity.
  - intros c q t [<-|[]] [<-|[]] [<-|[<-|[]]]; simpl; lia.
  - exact Hs.
  - injection Hc as <-. injection Hq as <-. split; [exact Hm | exact Hb].
Defined.

(** ** The middleware *)

Section Split.
Variable sep : N.
Implicit Types (w s : jsstring).

Lemma split_on_nonempty s : split_on sep s <> [].
Proof.
  destruct s as [|c s]; simpl; [done|].
  destruct (c =? sep)%N; [done|]. by destruct (split_on sep s).
Qed.

Lemma split_on_word w s :
  sep ∉ w -> split_on sep (w ++ sep :: s) = w :: split_on sep s.
Proof.
  induction w as [|c w IH]; intros H; cbn [app split_on].
  - by rewrite N.eqb_refl.
  - apply not_elem_of_cons in H as [H1 H2].
    destruct (N.eqb_spec c sep); [congruence|]. by rewrite IH.
Qed.

Lemma split_on_whole w : sep ∉ w -> split_on sep w = [w].
Proof.
  induction w as [|c w IH]; intros H; cbn [split_on]; [done|].
  apply not_elem_of_cons in H as [H1 H2].
  destruct (N.eqb_spec c sep); [congruence|]. by rewrite IH.
Qed.
End Split.

Lemma token_second_word (scheme word rest : jsstring) :
  32%N ∉ scheme -> 32%N ∉ word ->
  (forall c, head rest = Some c -> c = 32%N) ->
  Auth.token (Some (scheme ++ 32%N :: word ++ rest)) = Some word.
Proof.
  intros Hs Hw Hr. unfold Auth.token.
  assert (E : split_on 32 (scheme ++ 32%N :: word ++ rest) !! 1%nat
              = Some word).
  { rewrite split_on_word by done. cbn [lookup list_lookup].
    destruct rest as [|c rest].
    - rewrite app_nil_r, split_on_whole by done. done.
    - rewrite (Hr c eq_refl), split_on_word by done. done. }
  destruct (scheme ++ 32%N :: word ++ rest) eqn:Eh; [|done].
  by destruct scheme.
Qed.

(** X17.  [authenticateToken] takes as the token the second of the pieces
    that the spaces cut the [authorization] header into, whatever the first
    piece, the scheme, is and whatever follows the token: the answer is that
    of the header made of "Bearer", a space and the token.  A request
    without the header, or with a header without a space, or with nothing
    between the first space and the next, is refused with 401 before the
    token is verified.  The request goes on only for a token that is not
    empty, that [jwt.verify] accepts and whose user exists; a token that is
    not accepted gives 403 and a user that is not found gives 401. *)
Theorem authenticateToken_second_word (verify : jsstring -> Call string)
    (findById : string -> Call (option User.t))
    (scheme word rest : jsstring)
    (Hscheme : 32%N ∉ scheme) (Hword : 32%N ∉ word)
    (Hrest : forall c, head rest = Some c -> c = 32%N) :
  Auth.authenticateToken verify findById
    (Some (scheme ++ 32%N :: word ++ rest))
  = Auth.authenticateToken verify findById
      (Some (lit "Bearer" ++ 32%N :: word))
  /\ Auth.authenticateToken verify findById
       (Some (scheme ++ 32%N :: word ++ rest))
     = (match word with
        | [] => AuthRejected 401 "Access token required"
        | _ :: _ =>
            match verify word with
            | Thrown _ => AuthRejected 403 "Invalid or expired token"
            | Returned userId =>
                match findById userId with
                | Thrown _ => AuthRejected 403 "Invalid or expired token"
                | Returned None => AuthRejected 401 "Invalid token"
                | Returned (Some user) => Next user
                end
            end
        end)
  /\ Auth.authenticateToken verify findById None
     = AuthRejected 401 "Access token required"
  /\ (forall header,
         32%N ∉ header ->
         Auth.authenticateToken verify findById (Some header)
         = AuthRejected 401 "Access token required")
  /\ (forall authHeader user,
         Auth.authenticateToken verify findById authHeader = Next user ->
         exists token userId,
           token <> [] /\ Auth.token authHeader = Some token
           /\ verify token = Returned userId
           /\ findById userId = Returned (Some user)).
Proof.
  assert (Hbearer : Auth.token (Some (lit "Bearer" ++ 32%N :: word))
                    = Some word).
  { rewrite <- (app_nil_r word) at 1.
    apply token_second_word; [|done|done].
    vm_compute. intros H. by repeat (apply elem_of_cons in H as [H|H];
                                      [done|]); apply elem_of_nil in H. }
  pose proof (token_second_word scheme word rest Hscheme Hword Hrest) as Ht.
  split; [|split; [|split; [|split]]].
  - unfold Auth.authenticateToken. by rewrite Ht, Hbearer.
  - unfold Auth.authenticateToken. rewrite Ht. by destruct word.
  - done.
  - intros header H. unfold Auth.authenticateToken, Auth.token.
    destruct header as [|c header]; [done|].
    by rewrite split_on_whole.
  - intros authHeader user. unfold Auth.authenticateToken.
    destruct (Auth.token authHeader) as [[|c token]|] eqn:E; [done| |done].
    cbn [truthy negb or_empty].
    destruct (verify (c :: token)) as [userId|] eqn:V; [|done].
    destruct (findById userId) as [[user'|]|] eqn:F; [|done..].
    intros [= <-]. by exists (c :: token), userId.
Qed.

(** X17 for the header [Token abc def], where only [abc] is a valid
    token. *)
Lemma authenticateToken_second_word_witness :
  let verify token :=
    if bool_decide (token = lit "abc") then Returned "u1"%string
    else Thrown (lit "jwt malformed") in
  let findById id :=
    Returned (if String.eqb id "u1" then Some (User.mk "u1" "other")
              else None) in
  Auth.authenticateToken verify findById (Some (lit "Token abc def"))
  = Next (User.mk "u1" "other").
Proof.
  intros verify findById.
  destruct (authenticateToken_second_word verify findById (lit "Token")
              (lit "abc") (lit " def")) as (_ & H & _).
  - vm_compute. intros H.
    by repeat (apply elem_of_cons in H as [H|H]; [done|]);
      apply elem_of_nil in H.
  - vm_compute. intros H.
    by repeat (apply elem_of_cons in H as [H|H]; [done|]);
      apply elem_of_nil in H.
  - intros c [= <-]. reflexivity.
  - exact H.
Defined.

(** ** Notifications *)

Lemma filter_none {A : Type} (f : A -> bool) (l : list A) :
  (forall x, In x l -> f x = false) -> List.filter f l = [].
Proof.
  induction l as [|x l IH]; intros H; cbn [List.filter]; [done|].
  rewrite (H x) by (by left). apply IH. intros y Hy. apply H. by right.
Qed.

Section Receipts.
Variable user_id : string.
Implicit Types (n : Notification.t) (db : Notifications.t) (readAt : Z).

Lemma unreadBy_spec u n :
  Notifications.unreadBy u n = true
  <-> u ∉ map fst (Notification.recipients n).
Proof.
  unfold Notifications.unreadBy. rewrite negb_true_iff.
  induction (Notification.recipients n) as [|[v r] l IH]; cbn [existsb map fst].
  - split; [by intros _ ?%elem_of_nil | done].
  - rewrite not_elem_of_cons, orb_false_iff, IH.
    destruct (String.eqb_spec v u); split; intros [? ?]; (done || by split).
Qed.

Lemma unreadBy_not_member n readAt :
  Notifications.unreadBy user_id n = true ->
  (user_id, readAt) ∉ Notification.recipients n.
Proof.
  intros H%unreadBy_spec Hin. apply H.
  change user_id with (fst (user_id, readAt)). by apply list_elem_of_fmap_2.
Qed.

Lemma addToSet_recipients n readAt :
  Notifications.unreadBy user_id n = true ->
  Notification.recipients (Notifications.addToSet user_id readAt n)
  = Notification.recipients n ++ [(user_id, readAt)].
Proof.
  intros H. cbn [Notifications.addToSet Notification.recipients].
  by rewrite bool_decide_eq_false_2 by (by apply unreadBy_not_member).
Qed.

Lemma addToSet_read n readAt :
  Notifications.unreadBy user_id n = true ->
  Notifications.unreadBy user_id (Notifications.addToSet user_id readAt n)
  = false.
Proof.
  intros H. apply not_true_iff_false. rewrite unreadBy_spec.
  rewrite addToSet_recipients, map_app by done. intros Hn. apply Hn.
  apply elem_of_app. right. by apply list_elem_of_singleton.
Qed.

Lemma addToSet_other other n readAt :
  other <> user_id ->
  Notifications.unreadBy other (Notifications.addToSet user_id readAt n)
  = Notifications.unreadBy other n.
Proof.
  intros H. unfold Notifications.unreadBy, Notifications.addToSet.
  cbn [Notification.recipients]. case_bool_decide; [done|].
  rewrite existsb_app. cbn [existsb fst].
  destruct (String.eqb_spec user_id other); [congruence|].
  by rewrite !orb_false_r.
Qed.

Lemma addToSet_once n readAt :
  Notifications.unreadBy user_id n = true ->
  receipts_once n -> receipts_once (Notifications.addToSet user_id readAt n).
Proof.
  intros H N. unfold receipts_once. rewrite addToSet_recipients by done.
  rewrite map_app. apply NoDup_app. split; [done|]. split.
  - intros x Hx ->%list_elem_of_singleton. by apply unreadBy_spec in H.
  - repeat constructor. by intros ?%elem_of_nil.
Qed.

Lemma modifies_unread n readAt :
  Notifications.unreadBy user_id n = true ->
  Notifications.modifies user_id readAt n = true.
Proof.
  intros H. unfold Notifications.modifies.
  by rewrite bool_decide_eq_false_2 by (by apply unreadBy_not_member).
Qed.

(** One update of the bulk, over a collection with distinct ids. *)
Lemma updateOne_spec id readAt db :
  NoDup (map Notification._id db) ->
  exists db' matched,
    Notifications.updateOne id user_id readAt db = (db', (matched, matched))
    /\ Forall2 (marked_for user_id [id]) db db'
    /\ Notifications.count matched
       = Z.of_nat (length (List.filter
                             (fun n => Notifications.unreadBy user_id n
                                       && String.eqb id (Notification._id n))
                             db)).
Proof.
  induction db as [|n db IH]; intros N; cbn [Notifications.updateOne].
  { exists [], false. split; [done|]. split; [constructor|done]. }
  cbn [map] in N. apply NoDup_cons in N as [N1 N2].
  cbn [List.filter].
  destruct (String.eqb_spec id (Notification._id n)) as [Hid|Hid].
  - assert (Hrest : Forall2 (marked_for user_id [id]) db db
                    /\ List.filter
                         (fun n => Notifications.unreadBy user_id n
                                   && String.eqb id (Notification._id n)) db
                       = []).
    { clear IH. split.
      - apply Forall2_same_length_lookup. split; [done|].
        intros i x y Hx Hy. rewrite Hx in Hy. injection Hy as <-.
        right. split; [|done]. right. intros [E|[]]. apply N1.
        rewrite <- Hid, E. apply list_elem_of_fmap_2.
        by eapply list_elem_of_lookup_2.
      - apply filter_none. intros x Hx. apply not_true_iff_false. intros Hf.
        apply andb_prop in Hf as [_ Hf]. apply String.eqb_eq in Hf.
        apply N1. rewrite <- Hid, Hf. apply list_elem_of_In. by apply in_map. }
    destruct Hrest as [Hrest Hnone].
    destruct (Notifications.unreadBy user_id n) eqn:Hu; cbn [andb].
    + eexists _, true. rewrite modifies_unread by done.
      split; [done|]. split.
      * constructor; [|done]. left. split; [done|].
        split; [by left | by eexists].
      * rewrite Hnone. done.
    + destruct (IH N2) as (db' & matched & E & F & C). rewrite E.
      eexists _, matched. split; [done|]. split; [|done].
      constructor; [|done]. right. split; [by left | done].
  - rewrite andb_false_r. cbn [andb].
    destruct (IH N2) as (db' & matched & E & F & C). rewrite E.
    eexists _, matched. split; [done|]. split; [|done].
    constructor; [|done]. right. split; [|done]. right.
    intros [E'|[]]. congruence.
Qed.
End Receipts.

Section Bulk.
Variable user_id : string.
Implicit Types (n : Notification.t) (db : Notifications.t)
               (ids : list string).

Lemma marked_for_id ids n n' :
  marked_for user_id ids n n' -> Notification._id n' = Notification._id n.
Proof. by intros [(_ & _ & r & ->) | [_ ->]]. Qed.

Lemma marked_ids ids db db' :
  Forall2 (marked_for user_id ids) db db' ->
  map Notification._id db' = map Notification._id db.
Proof.
  induction 1 as [|n n' db db' H _ IH]; [done|].
  cbn [map]. by rewrite IH, (marked_for_id _ _ _ H).
Qed.

Lemma marked_for_same db :
  Forall (fun n => Notifications.unreadBy user_id n = false) db ->
  forall ids, Forall2 (marked_for user_id ids) db db.
Proof.
  intros H ids. induction H as [|n db Hn _ IH]; constructor; [|done].
  right. split; [by left | done].
Qed.

Lemma marked_for_step id ids n n1 n2 :
  marked_for user_id [id] n n1 -> marked_for user_id ids n1 n2 ->
  marked_for user_id (id :: ids) n n2.
Proof.
  intros [(Hu & Hin & r & ->) | [H1 ->]].
  - intros [(Hu' & _) | [_ ->]].
    + by rewrite addToSet_read in Hu'.
    + left. split; [done|]. split; [|by eexists].
      destruct Hin as [<-|[]]. by left.
  - intros [(Hu & Hin & r & ->) | [H2 ->]].
    + left. split; [done|]. split; [by right | by eexists].
    + right. split; [|done].
      destruct H1 as [H1|H1]; [by left|]. destruct H2 as [H2|H2]; [by left|].
      right. intros [E|Hin]; [|done]. apply H1. by left.
Qed.

Lemma marked_count id ids db db1 :
  Forall2 (marked_for user_id [id]) db db1 ->
  length (List.filter
            (fun n => Notifications.unreadBy user_id n
                      && (String.eqb id (Notification._id n)
                          || existsb
                               (fun id' => String.eqb id' (Notification._id n))
                               ids)) db)
  = (length (List.filter
               (fun n => Notifications.unreadBy user_id n
                         && String.eqb id (Notification._id n)) db)
     + length (List.filter
                 (fun n => Notifications.unreadBy user_id n
                           && existsb
                                (fun id' => String.eqb id' (Notification._id n))
                                ids) db1))%nat.
Proof.
  induction 1 as [|n n1 db db1 H _ IH]; [done|].
  cbn [List.filter].
  destruct H as [(Hu & Hin & r & ->) | [H ->]].
  - rewrite addToSet_read, Hu by done. destruct Hin as [<-|[]].
    rewrite String.eqb_refl. cbn [andb orb length]. by rewrite IH.
  - destruct (Notifications.unreadBy user_id n) eqn:Hu; cbn [andb];
      [|done].
    destruct H as [H|H]; [done|].
    destruct (String.eqb_spec id (Notification._id n)) as [E|E].
    { exfalso. apply H. by left. }
    cbn [orb].
    destruct (existsb _ ids); cbn [length]; rewrite IH; lia.
Qed.

Lemma bulkWrite_spec (bulkOps : list (string * string * Z)) db :
  Forall (fun op => snd (fst op) = user_id) bulkOps ->
  NoDup (map Notification._id db) ->
  let ids := map (fun op => fst (fst op)) bulkOps in
  exists db' modifiedCount,
    Notifications.bulkWrite bulkOps db
    = (db', (modifiedCount, modifiedCount))
    /\ Forall2 (marked_for user_id ids) db db'
    /\ modifiedCount
       = Z.of_nat
           (length (List.filter
                      (fun n =>
                         Notifications.unreadBy user_id n
                         && existsb
                              (fun id => String.eqb id (Notification._id n))
                              ids) db)).
Proof.
  intros Hops. revert db.
  induction Hops as [|[[id u] readAt] bulkOps Hu _ IH]; intros db N.
  - exists db, 0. split; [done|]. split.
    + apply Forall2_same_length_lookup. split; [done|].
      intros i x y Hx Hy. rewrite Hx in Hy. injection Hy as <-.
      right. split; [by right; intros []|done].
    + cbn [map existsb]. rewrite filter_none; [done|].
      intros x _. apply andb_false_r.
  - cbn [fst snd] in Hu. subst u. cbn [map fst Notifications.bulkWrite].
    destruct (updateOne_spec user_id id readAt db N)
      as (db1 & matched & E1 & F1 & C1).
    rewrite E1.
    assert (N1 : NoDup (map Notification._id db1)).
    { by rewrite (marked_ids _ _ _ F1). }
    destruct (IH db1 N1) as (db2 & modified & E2 & F2 & C2). rewrite E2.
    eexists _, _. split; [done|]. split.
    + clear -F1 F2. revert db2 F2.
      induction F1 as [|n n1 db db1 H _ IH']; intros db2 F2.
      * by apply Forall2_nil_inv_l in F2 as ->.
      * apply Forall2_cons_inv_l in F2 as (n2 & db2' & H2 & F2 & ->).
        constructor; [by eapply marked_for_step | by apply IH'].
    + cbn [existsb]. rewrite C1, C2, (marked_count id _ db db1 F1). lia.
Qed.
End Bulk.

Lemma listed_spec (ids : list string) (x : string) :
  existsb (fun id => String.eqb id x) ids = true <-> In x ids.
Proof.
  rewrite existsb_exists. split.
  - by intros (id & Hin & ->%String.eqb_eq).
  - intros Hin. exists x. split; [done|]. apply String.eqb_refl.
Qed.

Section MarkRead.
Variables (user : User.t) (notificationIds : list string).
Implicit Types (n : Notification.t) (db : Notifications.t).

Local Abbreviation marked :=
  (marked_for (User._id user) notificationIds).

Lemma marked_once db db' :
  Forall2 marked db db' -> Forall receipts_once db -> Forall receipts_once db'.
Proof.
  induction 1 as [|n n' db db' H _ IH]; [done|].
  intros [Hn Hdb]%Forall_cons. constructor; [|by apply IH].
  destruct H as [(Hu & _ & r & ->) | [_ ->]]; [|done].
  by apply addToSet_once.
Qed.

Lemma marked_read db db' n' :
  Forall2 marked db db' -> In n' db' ->
  In (Notification._id n') notificationIds ->
  Notifications.unreadBy (User._id user) n' = false.
Proof.
  induction 1 as [|n n1 db db' H _ IH]; [done|].
  intros [<-|Hin] Hid; [|by apply IH].
  destruct H as [(Hu & _ & r & ->) | [[H|H] ->]];
    [by apply addToSet_read | done | done].
Qed.

Lemma marked_others db db' other :
  Forall2 marked db db' -> other <> User._id user ->
  map (Notifications.unreadBy other) db'
  = map (Notifications.unreadBy other) db.
Proof.
  intros F Ho. induction F as [|n n' db db' H _ IH]; [done|].
  cbn [map]. rewrite IH. f_equal.
  destruct H as [(_ & _ & r & ->) | [_ ->]]; [|done].
  by apply addToSet_other.
Qed.

Lemma marked_unread db db' :
  Forall2 marked db db' ->
  (length (List.filter (Notifications.unreadBy (User._id user)) db)
   = length (List.filter (Notifications.unreadBy (User._id user)) db')
     + length (List.filter
                 (fun n =>
                    Notifications.unreadBy (User._id user) n
                    && existsb (fun id => String.eqb id (Notification._id n))
                               notificationIds) db))%nat.
Proof.
  induction 1 as [|n n' db db' H _ IH]; [done|].
  cbn [List.filter].
  destruct H as [(Hu & Hin & r & ->) | [H ->]].
  - rewrite addToSet_read, Hu by done. apply listed_spec in Hin.
    rewrite Hin. cbn [andb length]. lia.
  - destruct (Notifications.unreadBy (User._id user) n) eqn:Hu;
      cbn [andb length]; [|done].
    destruct H as [H|H]; [done|].
    destruct (existsb _ notificationIds) eqn:E;
      [by apply listed_spec in E|].
    cbn [length]. lia.
Qed.

Lemma marked_again db db' :
  Forall2 marked db db' ->
  Forall (fun n => Notifications.unreadBy (User._id user) n = false
                   \/ ~ In (Notification._id n) notificationIds) db ->
  db' = db.
Proof.
  induction 1 as [|n n' db db' H _ IH]; [done|].
  intros [Hn Hdb]%Forall_cons. rewrite IH by done. f_equal.
  destruct H as [(Hu & Hin & _) | [_ ->]]; [|done].
  destruct Hn; [congruence|done].
Qed.
End MarkRead.

(** X18.  Marking notifications as read, for one to fifty ids and a
    collection with distinct ids: each notification the user had not read
    and that is among the ids gets the user as one more recipient, and no
    other notification changes.  So afterwards the user has read every
    notification among the ids; nobody is a recipient of a notification
    twice if nobody was before; what other users have read is as before;
    [matchedCount] and [modifiedCount] are equal and are the number by
    which the user's count of unread notifications goes down; and marking
    the same ids again modifies nothing and leaves the collection as it
    is. *)
Theorem notifications_read_once (user : User.t)
    (notificationIds : list string) (now : nat -> Z)
    (db : Notifications.t)
    (Hids : NoDup (map Notification._id db))
    (Hsome : notificationIds <> [])
    (Hmost : (length notificationIds <= 50)%nat) :
  exists modifiedCount db',
    Notifications.markRead user (Some notificationIds) now None db
    = (NotificationsMarked modifiedCount modifiedCount, db')
    /\ Forall2 (marked_for (User._id user) notificationIds) db db'
    /\ map Notification._id db' = map Notification._id db
    /\ (Forall receipts_once db -> Forall receipts_once db')
    /\ (forall n',
           In n' db' -> In (Notification._id n') notificationIds ->
           Notifications.unreadBy (User._id user) n' = false)
    /\ (forall other,
           other <> User._id user ->
           map (Notifications.unreadBy other) db'
           = map (Notifications.unreadBy other) db)
    /\ (exists count,
           Notifications.unreadCount user None db = NotificationCount count
           /\ Notifications.unreadCount user None db'
              = NotificationCount (count - modifiedCount)
           /\ 0 <= modifiedCount <= count)
    /\ (forall now',
           Notifications.markRead user (Some notificationIds) now' None db'
           = (NotificationsMarked 0 0, db')).
Proof.
  assert (Hrun : forall now0 db0,
             NoDup (map Notification._id db0) ->
             exists modifiedCount db',
               Notifications.markRead user (Some notificationIds) now0 None
                                      db0
               = (NotificationsMarked modifiedCount modifiedCount, db')
               /\ Forall2 (marked_for (User._id user) notificationIds) db0 db'
               /\ modifiedCount
                  = Z.of_nat
                      (length
                         (List.filter
                            (fun n =>
                               Notifications.unreadBy (User._id user) n
                               && existsb
                                    (fun id =>
                                       String.eqb id (Notification._id n))
                                    notificationIds) db0))).
  { intros now0 db0 N0. unfold Notifications.markRead.
    destruct notificationIds as [|id ids] eqn:E; [done|].
    rewrite <- E in *.
    destruct (Nat.ltb_spec 50 (length notificationIds)); [lia|].
    set (bulkOps := imap _ notificationIds).
    assert (Hops : Forall (fun op => snd (fst op) = User._id user) bulkOps).
    { apply Forall_lookup. intros i op Hi. subst bulkOps.
      rewrite list_lookup_imap in Hi.
      destruct (notificationIds !! i); [|done]. by injection Hi as <-. }
    assert (Hmap : map (fun op => fst (fst op)) bulkOps = notificationIds).
    { subst bulkOps. apply list_eq. intros i.
      change (map ?f ?l) with (f <$> l).
      rewrite list_lookup_fmap, list_lookup_imap.
      by destruct (notificationIds !! i). }
    destruct (bulkWrite_spec (User._id user) bulkOps db0 Hops N0)
      as (db' & modified & Eb & F & C).
    rewrite Hmap in F, C. rewrite Eb. by eexists _, _. }
  destruct (Hrun now db Hids) as (modified & db' & E & F & C).
  exists modified, db'. split; [done|]. split; [done|].
  pose proof (marked_ids _ _ _ _ F) as Hsame.
  split; [done|]. split; [by apply (marked_once user notificationIds)|].
  split; [intros n'; by apply (marked_read user notificationIds db)|].
  split; [intros other; by apply (marked_others user notificationIds)|].
  split.
  - eexists. split; [reflexivity|].
    pose proof (marked_unread user notificationIds db db' F) as U.
    unfold Notifications.unreadCount. split; [f_equal; lia | lia].
  - intros now'.
    assert (N' : NoDup (map Notification._id db')) by (by rewrite Hsame).
    destruct (Hrun now' db' N') as (modified' & db'' & E' & F' & C').
    assert (Hread : Forall
                      (fun n =>
                         Notifications.unreadBy (User._id user) n = false
                         \/ ~ In (Notification._id n) notificationIds) db').
    { apply Forall_forall. intros n' Hn'. apply list_elem_of_In in Hn'.
      destruct (In_dec string_dec (Notification._id n') notificationIds)
        as [Hin|Hin]; [left|by right].
      by apply (marked_read user notificationIds db db'). }
    rewrite (marked_again _ _ _ _ F' Hread) in E'.
    assert (Hnone : modified' = 0).
    { rewrite C', filter_none; [done|].
      intros n' Hn'. apply not_true_iff_false. intros H.
      apply andb_prop in H as [Hu Hl]. apply listed_spec in Hl.
      rewrite Forall_forall in Hread.
      destruct (Hread n' (proj2 (list_elem_of_In _ _) Hn')); congruence. }
    by rewrite E', Hnone.
Qed.

(** X18 for user u1, who has read n2, marking n1 and n2. *)
Lemma notifications_read_once_witness :
  exists db',
    Notifications.markRead reader (Some ["n1"; "n2"]%string) (fun _ => 40)
                           None sample_notifications
    = (NotificationsMarked 1 1, db')
    /\ Notifications.unreadCount reader None sample_notifications
       = NotificationCount 2
    /\ Notifications.unreadCount reader None db' = NotificationCount 1
    /\ Notifications.markRead reader (Some ["n1"; "n2"]%string)
                              (fun _ => 50) None db'
       = (NotificationsMarked 0 0, db').
Proof.
  destruct (notifications_read_once reader ["n1"; "n2"]%string
              (fun _ => 40) sample_notifications)
    as (modified & db' & E & _ & _ & _ & _ & _ & _ & Hagain).
  - repeat constructor; [| |by intros ?%elem_of_nil].
    + intros H. by repeat (apply elem_of_cons in H as [H|H]; [done|]);
        apply elem_of_nil in H.
    + intros H. by repeat (apply elem_of_cons in H as [H|H]; [done|]);
        apply elem_of_nil in H.
  - done.
  - simpl. lia.
  - exists db'. vm_compute in E. injection E as E1 _ E2. subst modified db'.
    split; [reflexivity|]. split; [reflexivity|]. split; [reflexivity|].
    apply Hagain.
Defined.



Section ReadAll.
Variables (user_id : string) (filter : Notification.t -> bool).
Hypothesis filter_unread :
  forall n, filter n = true -> Notifications.unreadBy user_id n = true.
Implicit Types (n : Notification.t) (db : Notifications.t) (readAt : Z).

Local Abbreviation update readAt :=
  (fun n => if filter n then Notifications.addToSet user_id readAt n else n).

Lemma updateMany_counts readAt db :
  Notifications.updateMany filter user_id readAt db
  = (map (update readAt) db,
     (Z.of_nat (length (List.filter filter db)),
      Z.of_nat (length (List.filter filter db)))).
Proof.
  unfold Notifications.updateMany. do 3 f_equal.
  induction db as [|n db IH]; [done|]. cbn [List.filter].
  destruct (filter n) eqn:E; cbn [andb]; [|done].
  rewrite (modifies_unread user_id n readAt) by (by apply filter_unread).
  cbn [length]. by rewrite IH.
Qed.

Lemma updateMany_none readAt db :
  List.filter filter (map (update readAt) db) = [].
Proof.
  apply filter_none. intros n' (n & <- & _)%in_map_iff.
  destruct (filter n) eqn:E; [|done].
  apply not_true_iff_false. intros H%filter_unread.
  rewrite addToSet_read in H; [done|]. by apply filter_unread.
Qed.

Lemma updateMany_once readAt db :
  Forall receipts_once db -> Forall receipts_once (map (update readAt) db).
Proof.
  intros H. apply Forall_fmap. eapply Forall_impl; [exact H|].
  intros n Hn. simpl. destruct (filter n) eqn:E; [|done].
  apply addToSet_once; [by apply filter_unread | done].
Qed.

Lemma updateMany_others readAt db other :
  other <> user_id ->
  map (Notifications.unreadBy other) (map (update readAt) db)
  = map (Notifications.unreadBy other) db.
Proof.
  intros H. rewrite map_map. apply map_ext. intros n.
  destruct (filter n); [by apply addToSet_other | done].
Qed.

Lemma updateMany_again readAt readAt' db :
  map (update readAt') (map (update readAt) db) = map (update readAt) db.
Proof.
  rewrite map_map. apply map_ext. intros n.
  destruct (filter n) eqn:E; [|by rewrite E].
  assert (E' : filter (Notifications.addToSet user_id readAt n) = false).
  { apply not_true_iff_false. intros H%filter_unread.
    rewrite addToSet_read in H; [done|]. by apply filter_unread. }
  by rewrite E'.
Qed.
End ReadAll.

(** X20.  Marking all notifications as read gives every notification the
    user had not read the user as one more recipient and changes no other:
    [matchedCount] and [modifiedCount] are both the user's count of unread
    notifications before, the count afterwards is 0, what other users have
    read is as before, nobody becomes a recipient of a notification twice,
    and marking all again modifies nothing.  Marking the notifications of a
    course does the same for the notifications of the course: the count of
    unread notifications of the course goes to 0, and a notification that is
    not of the course stays as it is. *)
Theorem all_notifications_read (user : User.t) (now : Z)
    (db : Notifications.t) :
  (exists modifiedCount db',
      Notifications.markAllRead user now None db
      = (NotificationsMarked modifiedCount modifiedCount, db')
      /\ Notifications.unreadCount user None db
         = NotificationCount modifiedCount
      /\ Notifications.unreadCount user None db' = NotificationCount 0
      /\ map Notification._id db' = map Notification._id db
      /\ (Forall receipts_once db -> Forall receipts_once db')
      /\ (forall other,
             other <> User._id user ->
             map (Notifications.unreadBy other) db'
             = map (Notifications.unreadBy other) db)
      /\ (forall now',
             Notifications.markAllRead user now' None db'
             = (NotificationsMarked 0 0, db')))
  /\ (forall courseId,
         exists modifiedCount db',
           Notifications.markCourseRead user courseId now None db
           = (NotificationsMarked modifiedCount modifiedCount, db')
           /\ Notifications.courseUnreadCount user courseId None db
              = NotificationCount modifiedCount
           /\ Notifications.courseUnreadCount user courseId None db'
              = NotificationCount 0
           /\ (Forall receipts_once db -> Forall receipts_once db')
           /\ (forall n,
                  In n db -> Notifications.ofCourse courseId n = false ->
                  In n db')
           /\ (forall other,
                  other <> User._id user ->
                  map (Notifications.unreadBy other) db'
                  = map (Notifications.unreadBy other) db)).
Proof.
  split.
  - unfold Notifications.markAllRead, Notifications.unreadCount.
    rewrite updateMany_counts by done.
    eexists _, _. split; [reflexivity|]. split; [done|].
    split; [by rewrite updateMany_none|]. split; [|split; [|split]].
    + rewrite map_map. apply map_ext. intros n.
      by destruct (Notifications.unreadBy (User._id user) n).
    + by apply updateMany_once.
    + intros other Ho. by apply updateMany_others.
    + intros now'. rewrite updateMany_counts by done.
      by rewrite updateMany_none, updateMany_again.
  - intros courseId.
    assert (Hf : forall n,
               Notifications.ofCourse courseId n
               && Notifications.unreadBy (User._id user) n = true ->
               Notifications.unreadBy (User._id user) n = true).
    { by intros n [_ H]%andb_prop. }
    unfold Notifications.markCourseRead, Notifications.courseUnreadCount.
    rewrite (updateMany_counts (User._id user) _ Hf).
    eexists _, _. split; [reflexivity|]. split; [done|].
    split; [by rewrite (updateMany_none (User._id user) _ Hf)|].
    split; [|split].
    + by apply updateMany_once.
    + intros n Hin E. apply in_map_iff. exists n. by rewrite E.
    + intros other Ho. by apply (updateMany_others (User._id user)).
Qed.

Section Processed.
Variable user_id : string.
Implicit Types (n : Notification.t) (db : Notifications.t).

Lemma processed_read n :
  Processed.read (Notifications.processed user_id n)
  = negb (Notifications.unreadBy user_id n).
Proof.
  unfold Notifications.processed, Notifications.unreadBy.
  cbn [Processed.read]. rewrite negb_involutive.
  induction (Notification.recipients n) as [|r l IH]; [done|].
  cbn [find existsb]. by destruct (String.eqb (fst r) user_id).
Qed.

Lemma processed_readAt n :
  match Processed.readAt (Notifications.processed user_id n) with
  | Some readAt =>
      In (user_id, readAt) (Notification.recipients n)
      /\ Processed.read (Notifications.processed user_id n) = true
  | None => Processed.read (Notifications.processed user_id n) = false
  end.
Proof.
  unfold Notifications.processed. cbn [Processed.read Processed.readAt].
  destruct (find _ _) as [[u r]|] eqn:E; cbn [option_map snd]; [|done].
  apply find_some in E as [Hin Hu]. cbn [fst] in Hu.
  apply String.eqb_eq in Hu. by subst u.
Qed.

Lemma unread_processed (l : list Notification.t) :
  length (List.filter (fun p => negb (Processed.read p))
                      (map (Notifications.processed user_id) l))
  = length (List.filter (Notifications.unreadBy user_id) l).
Proof.
  induction l as [|n l IH]; [done|]. cbn [map List.filter].
  rewrite processed_read, negb_involutive.
  destruct (Notifications.unreadBy user_id n); cbn [length]; by rewrite IH.
Qed.
End Processed.

Lemma filter_filter {A : Type} (f g : A -> bool) (l : list A) :
  List.filter g (List.filter f l) = List.filter (fun x => f x && g x) l.
Proof.
  induction l as [|x l IH]; [done|]. cbn [List.filter].
  destruct (f x); cbn [andb List.filter]; [|done].
  destruct (g x); by rewrite IH.
Qed.

(** X21.  The list of the notifications of a course shows the notifications
    of the course, the newest first, each as read exactly when the user is
    among its recipients, and then with the date of the user's reading.  The
    number of notifications it shows as unread is the count that the
    unread-count route of the course gives.  After the notifications of the
    course have been marked as read, the list has the same length and shows
    every notification as read. *)
Theorem course_notifications_status (user : User.t) (courseId : string)
    (db : Notifications.t) :
  exists notifications,
    Notifications.ofCourseFor user courseId None db
    = NotificationList notifications
    /\ Notifications.courseUnreadCount user courseId None db
       = NotificationCount
           (Z.of_nat (length (List.filter
                                (fun p => negb (Processed.read p))
                                notifications)))
    /\ (forall n,
           In n (map Processed.notification notifications)
           <-> In n db /\ Notifications.ofCourse courseId n = true)
    /\ Forall (fun p =>
                 Processed.read p
                 = negb (Notifications.unreadBy (User._id user)
                           (Processed.notification p))
                 /\ match Processed.readAt p with
                    | Some readAt =>
                        In (User._id user, readAt)
                           (Notification.recipients (Processed.notification p))
                        /\ Processed.read p = true
                    | None => Processed.read p = false
                    end)
              notifications
    /\ StronglySorted
         (fun a b =>
            Notification.createdAt (Processed.notification b)
            <= Notification.createdAt (Processed.notification a))
         notifications
    /\ (forall now,
           exists notifications',
             Notifications.ofCourseFor user courseId None
               (Notifications.markCourseRead user courseId now None db).2
             = NotificationList notifications'
             /\ length notifications' = length notifications
             /\ Forall (fun p => Processed.read p = true) notifications').
Proof.
  unfold Notifications.ofCourseFor, Notifications.courseUnreadCount.
  eexists. split; [reflexivity|].
  split; [|split; [|split; [|split]]].
  - do 2 f_equal. rewrite unread_processed.
    rewrite (Permutation_length
               (filter_perm _ _ _ (arrange_perm Notifications.newest_first _))).
    by rewrite filter_filter.
  - intros n. rewrite map_map. cbn [Notifications.processed
      Processed.notification]. rewrite map_id, arrange_In, filter_In. done.
  - apply Forall_fmap, Forall_forall. intros n _. simpl.
    split; [apply processed_read | apply processed_readAt].
  - apply StronglySorted_mapped.
    eapply StronglySorted_weaken; [|apply arrange_sorted].
    + intros a b H. unfold Notifications.newest_first in H.
      cbn [Notifications.processed Processed.notification]. lia.
    + intros a b. unfold Notifications.newest_first. lia.
    + intros a b c. unfold Notifications.newest_first. lia.
  - intros now. unfold Notifications.markCourseRead, Notifications.updateMany.
    cbn [snd]. eexists. split; [reflexivity|]. split.
    + rewrite !length_map, !arrange_length.
      induction db as [|n db IH]; [done|]. cbn [map List.filter].
      assert (E : Notifications.ofCourse courseId
                    (if Notifications.ofCourse courseId n
                        && Notifications.unreadBy (User._id user) n
                     then Notifications.addToSet (User._id user) now n
                     else n)
                  = Notifications.ofCourse courseId n).
      { by destruct (_ && _). }
      rewrite E. destruct (Notifications.ofCourse courseId n);
        cbn [length]; by rewrite IH.
    + apply Forall_fmap, Forall_forall. intros n' Hn'.
      apply list_elem_of_In, arrange_In, filter_In in Hn' as [Hin Hc].
      apply in_map_iff in Hin as (n & <- & _). unfold compose.
      rewrite processed_read. apply negb_true_iff.
      destruct (Notifications.ofCourse courseId n) eqn:Ec; cbn [andb] in *.
      * destruct (Notifications.unreadBy (User._id user) n) eqn:Eu; [|done].
        by apply addToSet_read.
      * congruence.
Qed.

Lemma findByIdAndDelete_spec (id : string) (db : Notifications.t)
    (n : Notification.t) :
  find (fun n => String.eqb id (Notification._id n)) db = Some n ->
  exists db1 db2,
    db = db1 ++ n :: db2
    /\ Notifications.findByIdAndDelete id db = db1 ++ db2
    /\ Notification._id n = id.
Proof.
  induction db as [|x db IH]; [done|].
  cbn [find Notifications.findByIdAndDelete].
  destruct (String.eqb_spec id (Notification._id x)) as [E|E].
  - intros [= <-]. by exists [], db.
  - intros H. destruct (IH H) as (db1 & db2 & -> & -> & Hid).
    by exists (x :: db1), db2.
Qed.

(** X22.  A notification is deleted only by an admin or by the user who
    created it: then it is taken out of the collection and every other
    notification stays, in its place.  Any other user is refused, a
    notification that does not exist is not found, and in both cases the
    collection stays as it is. *)
Theorem notification_deleted_by_admin_or_creator (user : User.t)
    (id : string) (db : Notifications.t)
    (Hids : NoDup (map Notification._id db)) :
  match Notifications.delete user id None db with
  | (NotificationDeleted, db') =>
      exists n db1 db2,
        db = db1 ++ n :: db2 /\ db' = db1 ++ db2
        /\ Notification._id n = id
        /\ (User.role user = "admin"%string
            \/ Notification.createdBy n = User._id user)
        /\ id ∉ map Notification._id db'
  | (NotificationRejected http _, db') =>
      db' = db
      /\ ((http = 404 /\ id ∉ map Notification._id db)
          \/ (http = 403
              /\ exists n, In n db /\ Notification._id n = id
                           /\ User.role user <> "admin"%string
                           /\ Notification.createdBy n <> User._id user))
  | _ => False
  end.
Proof.
  unfold Notifications.delete.
  destruct (find _ db) as [n|] eqn:E.
  - destruct (findByIdAndDelete_spec id db n E)
      as (db1 & db2 & Hdb & Hdel & Hid).
    destruct (String.eqb_spec (User.role user) "admin") as [Hr|Hr];
      cbn [negb andb].
    + exists n, db1, db2. split_and!; try done; [by left|].
      rewrite Hdb, map_app in Hids. cbn [map] in Hids.
      apply NoDup_app in Hids as (_ & H1 & H2%NoDup_cons).
      rewrite Hdel, map_app, <- Hid.
      intros [H|H]%elem_of_app; [|by destruct H2].
      apply (H1 _ H). by left.
    + destruct (String.eqb_spec (Notification.createdBy n) (User._id user))
        as [Hc|Hc]; cbn [negb].
      * exists n, db1, db2. split_and!; try done; [by right|].
        rewrite Hdb, map_app in Hids. cbn [map] in Hids.
        apply NoDup_app in Hids as (_ & H1 & H2%NoDup_cons).
        rewrite Hdel, map_app, <- Hid.
        intros [H|H]%elem_of_app; [|by destruct H2].
        apply (H1 _ H). by left.
      * split; [done|]. right. split; [done|]. exists n.
        split; [|done]. rewrite Hdb. apply in_or_app. right. by left.
  - split; [done|]. left. split; [done|].
    intros Hin. apply list_elem_of_In, in_map_iff in Hin as (x & Hx & Hin).
    apply (find_none _ _ E) in Hin. apply String.eqb_neq in Hin. congruence.
Qed.

(** X22 for the instructor a1, who created n2, deleting n2. *)
Lemma notification_deleted_by_admin_or_creator_witness :
  exists n db1 db2,
    sample_notifications = db1 ++ n :: db2
    /\ Notifications.delete (User.mk "a1" "instructor") "n2" None
                            sample_notifications
       = (NotificationDeleted, db1 ++ db2)
    /\ Notification._id n = "n2"%string
    /\ Notification.createdBy n = "a1"%string.
Proof.
  assert (N : NoDup (map Notification._id sample_notifications)).
  { repeat constructor; [| |by intros ?%elem_of_nil].
    - intros H. by repeat (apply elem_of_cons in H as [H|H]; [done|]);
        apply elem_of_nil in H.
    - intros H. by repeat (apply elem_of_cons in H as [H|H]; [done|]);
        apply elem_of_nil in H. }
  pose proof (notification_deleted_by_admin_or_creator
                (User.mk "a1" "instructor") "n2" sample_notifications N) as H.
  destruct (Notifications.delete _ _ _ _) as [response db'] eqn:E.
  vm_compute in E. injection E as <- <-.
  destruct H as (n & db1 & db2 & H1 & H2 & H3 & [H4|H4] & _); [done|].
  exists n, db1, db2. split; [exact H1|]. split; [by rewrite <- H2|].
  split; [exact H3 | exact H4].
Defined.

(** ** Participants and leaderboard together *)

Lemma board_users (populated : string -> bool) (contest : Contest.t)
    (subs : list Submission.t) :
  NoDup (map UserScore.userId
             (Leaderboard.buildLeaderboard populated contest subs))
  /\ forall u,
       In u (map UserScore.userId
                 (Leaderboard.buildLeaderboard populated contest subs))
       <-> populated u = true
           /\ exists s, In s subs /\ Submission.userId s = u.
Proof.
  split.
  - unfold Leaderboard.buildLeaderboard.
    rewrite (Permutation_map _ (sort_perm _)), map_map.
    apply scan_users_once.
  - intros u. rewrite in_map_iff. split.
    + intros (e & <- & He). apply buildLeaderboard_entries in He
        as (e0 & He0 & ->).
      cbn [Leaderboard.set_maxPossibleScore UserScore.userId].
      unfold JSMap.values in He0.
      apply in_map_iff in He0 as ([k e1] & <- & Hin). cbn [snd].
      destruct (scan_entry_key populated subs k e1 Hin) as (-> & Hp & _).
      split; [done|]. apply (scan_key_submitted populated).
      change k with (fst (k, e1)). by apply in_map.
    + intros (Hp & s & Hs & <-).
      destruct (scan_has_entry populated subs s Hs Hp) as (e0 & He0 & Hu).
      exists (Leaderboard.set_maxPossibleScore
                (Leaderboard.maxPossibleScore contest) e0).
      split; [done|]. apply buildLeaderboard_entries. eauto.
Qed.

(** X23.  The participants route and the leaderboard route agree: for an
    admin or an instructor and a contest that exists, the users with a row
    on the leaderboard are the participants, each once, and the date at
    which a participant is registered is the [lastSubmission] of the row of
    that user. *)
Theorem participants_are_leaderboard_users (role id : string)
    (contests : list Contest.t) (populated : string -> bool) (db : Db.t)
    (contest : Contest.t)
    (Hrole : role = "admin"%string \/ role = "instructor"%string)
    (Hcontest : findContest id contests = Some contest) :
  exists participants board,
    Admin.participants role id None populated db
    = ParticipantList participants
    /\ Admin.leaderboard role id contests None None populated db
       = LeaderboardOf board
    /\ Permutation (map Participant._id participants)
                   (map UserScore.userId board)
    /\ (forall p e,
           In p participants -> In e board ->
           Participant._id p = UserScore.userId e ->
           Participant.registeredAt p = UserScore.lastSubmission e).
Proof.
  destruct (participants_entries role id populated db Hrole)
    as [(participants & Ep & Np & Hp & Hall) _].
  assert (Eb : exists board,
             Admin.leaderboard role id contests None None populated db
             = LeaderboardOf board
             /\ board
                = Leaderboard.buildLeaderboard populated contest
                    (arrange Query.newest_first
                       (List.filter (Query.ofContest id) db))).
  { unfold Admin.leaderboard.
    rewrite (proj2 (staff_spec role) Hrole), Hcontest. by eexists. }
  destruct Eb as (board & Eb & Hb).
  exists participants, board. split; [done|]. split; [done|].
  destruct (board_users populated contest
              (arrange Query.newest_first
                 (List.filter (Query.ofContest id) db))) as [Nb Hu].
  rewrite <- Hb in Nb, Hu.
  assert (Hsubs : forall s,
             In s (arrange Query.newest_first
                     (List.filter (Query.ofContest id) db))
             <-> In s db /\ Submission.contestId s = id).
  { intros s. rewrite arrange_In, filter_In.
    unfold Query.ofContest. rewrite String.eqb_eq. split; intros [? ?]; done. }
  split.
  - apply NoDup_Permutation; [done..|]. intros u.
    rewrite !list_elem_of_In, Hu. rewrite in_map_iff. split.
    + intros (p & <- & Hin). destruct (Hp p Hin) as (Hpop & (s & Hs) & _).
      split; [done|]. exists s.
      split; [apply Hsubs|]; by destruct Hs as (?&?&?&?).
    + intros (Hpop & s & Hs & <-). apply Hsubs in Hs as [Hs Hc].
      destruct (Hall s Hs Hc Hpop) as (p & Hin & E). by exists p.
  - intros p e Hin He E.
    destruct (Hp p Hin) as (_ & (s & Hs & Hc & Hus & Hd) & Hmin).
    destruct (board_lastSubmission role id contests populated db board e
                Eb He) as [(s' & Hs' & Hc' & Hus' & Hd') Hmin'].
    assert (Participant.registeredAt p <= UserScore.lastSubmission e).
    { rewrite <- Hd'. apply Hmin; [done..|congruence]. }
    assert (UserScore.lastSubmission e <= Participant.registeredAt p).
    { rewrite <- Hd. apply Hmin'; [done..|congruence]. }
    lia.
Qed.

(** X23 for the three users of [three_way_tie]. *)
Lemma participants_are_leaderboard_users_witness :
  exists participants board,
    Admin.participants "admin" "c1" None everyone three_way_tie
    = ParticipantList participants
    /\ Admin.leaderboard "admin" "c1" [sample_contest] None None everyone
                         three_way_tie = LeaderboardOf board
    /\ Permutation (map Participant._id participants)
                   (map UserScore.userId board).
Proof.
  destruct (participants_are_leaderboard_users "admin" "c1" [sample_contest]
              everyone three_way_tie sample_contest)
    as (participants & board & H1 & H2 & H3 & _); [by left|reflexivity|].
  by exists participants, board.
Defined.

(** ** The answer to an accepted submission *)




(** ** Notification statistics *)

Section Groups.
Implicit Types (n : Notification.t) (db : Notifications.t)
               (m : JSMap.t TypeStats.t) (t : string).

Local Abbreviation of_type t :=
  (fun n => String.eqb (Notification.type n) t).
Local Abbreviation unread_of_type t :=
  (fun n => String.eqb (Notification.type n) t
            && Notifications.unreadByAll n).
Local Abbreviation number f db := (Z.of_nat (length (List.filter f db))).

Lemma sum_set (f : TypeStats.t -> Z) t (g : TypeStats.t) m :
  Zsum (map f (JSMap.values (JSMap.set t g m)))
  = Zsum (map f (JSMap.values m)) + f g
    - from_option f 0 (JSMap.get t m).
Proof.
  unfold JSMap.values, Zsum.
  induction m as [|[k v] m IH]; cbn [JSMap.set JSMap.get map foldr snd].
  - simpl. lia.
  - destruct (String.eqb t k); cbn [map foldr snd from_option]; lia.
Qed.

Lemma groups_spec db :
  let m := fold_left Notifications.group db [] in
  keys_once m
  /\ (forall t,
         JSMap.get t m
         = if number (of_type t) db =? 0 then None
           else Some (TypeStats.mk t (number (of_type t) db)
                                   (number (unread_of_type t) db)))
  /\ Zsum (map TypeStats.count (JSMap.values m)) = Z.of_nat (length db)
  /\ Zsum (map TypeStats.unread (JSMap.values m))
     = number Notifications.unreadByAll db.
Proof.
  induction db as [|n db (IH1 & IH2 & IH3 & IH4)] using rev_ind.
  { split; [constructor|]. by split_and!. }
  cbv zeta. rewrite fold_left_app. cbn [fold_left].
  set (m := fold_left Notifications.group db []) in *.
  unfold Notifications.group.
  split; [by apply set_keys_once|]. split; [|split].
  - intros t. rewrite !List.filter_app, !length_app. cbn [List.filter].
    destruct (String.eqb_spec (Notification.type n) t) as [<-|Ht].
    + rewrite get_set_eq, IH2. cbn [andb].
      assert (Hle : (length (List.filter
                               (unread_of_type (Notification.type n)) db)
                     <= length (List.filter
                                  (of_type (Notification.type n)) db))%nat).
      { clear. induction db as [|x db IH]; [done|]. cbn [List.filter].
        destruct (String.eqb _ _); cbn [andb]; [|done].
        destruct (Notifications.unreadByAll x); cbn [length]; lia. }
      set (a := length (List.filter (of_type (Notification.type n)) db))
        in *.
      set (b := length (List.filter
                          (unread_of_type (Notification.type n)) db)) in *.
      cbn [length].
      destruct (Z.eqb_spec (Z.of_nat (a + 1)) 0) as [?|_]; [lia|].
      destruct (Z.eqb_spec (Z.of_nat a) 0) as [E|E];
        cbn [TypeStats.count TypeStats.unread];
        destruct (Notifications.unreadByAll n); cbn [length];
        do 2 f_equal; lia.
    + rewrite get_set_ne by done. rewrite IH2. cbn [andb length].
      by rewrite !Nat.add_0_r.
  - rewrite sum_set, IH3, length_app. cbn [length].
    destruct (JSMap.get (Notification.type n) m);
      cbn [from_option TypeStats.count]; lia.
  - rewrite sum_set, IH4, List.filter_app, length_app. cbn [List.filter].
    destruct (JSMap.get (Notification.type n) m);
      cbn [from_option TypeStats.unread];
      destruct (Notifications.unreadByAll n); cbn [length]; lia.
Qed.
End Groups.

(** X25.  The statistics of the notifications are for admins only, not for
    instructors.  They have one group for each type that occurs in the
    collection; the [count] of a group is the number of notifications of the
    type and its [unread] the number of those without any recipient; the
    counts add up to [total] and the unread figures to [totalUnread].  A
    notification counts as unread there only if nobody has read it, so
    [totalUnread] is at most the count of unread notifications of any
    user. *)
Theorem notification_stats_add_up (user : User.t) (db : Notifications.t)
    (Hadmin : User.role user = "admin"%string) :
  (exists total totalUnread byType,
      Notifications.stats user None db
      = NotificationStats total totalUnread byType
      /\ total = Z.of_nat (length db)
      /\ NoDup (map TypeStats._id byType)
      /\ (forall t,
             In t (map TypeStats._id byType)
             <-> exists n, In n db /\ Notification.type n = t)
      /\ Forall (fun g =>
                   TypeStats.count g
                   = Z.of_nat
                       (length (List.filter
                                  (fun n => String.eqb (Notification.type n)
                                                       (TypeStats._id g))
                                  db))
                   /\ TypeStats.unread g
                      = Z.of_nat
                          (length (List.filter
                                     (fun n =>
                                        String.eqb (Notification.type n)
                                                   (TypeStats._id g)
                                        && Notifications.unreadByAll n)
                                     db))
                   /\ 0 <= TypeStats.unread g <= TypeStats.count g
                   /\ 0 < TypeStats.count g)
                byType
      /\ Zsum (map TypeStats.count byType) = total
      /\ Zsum (map TypeStats.unread byType) = totalUnread
      /\ (forall reader,
             exists count,
               Notifications.unreadCount reader None db
               = NotificationCount count
               /\ totalUnread <= count))
  /\ (forall user' fault db',
         User.role user' <> "admin"%string ->
         Notifications.stats user' fault db'
         = NotificationRejected 403 "Admin access required").
Proof.
  split.
  2:{ intros user' fault db' H. unfold Notifications.stats.
      by destruct (String.eqb_spec (User.role user') "admin"). }
  unfold Notifications.stats. rewrite Hadmin.
  change (negb (String.eqb "admin" "admin")) with false. cbv iota.
  destruct (groups_spec db) as (Honce & Hget & Hcount & Hunread).
  set (m := fold_left Notifications.group db []) in *.
  assert (Hentry : forall k g,
             In (k, g) m ->
             g = TypeStats.mk k
                   (Z.of_nat
                      (length (List.filter
                                 (fun n => String.eqb (Notification.type n) k)
                                 db)))
                   (Z.of_nat
                      (length (List.filter
                                 (fun n =>
                                    String.eqb (Notification.type n) k
                                    && Notifications.unreadByAll n) db)))
             /\ 0 < Z.of_nat
                      (length (List.filter
                                 (fun n => String.eqb (Notification.type n) k)
                                 db))).
  { intros k g Hin. apply (get_in_once _ _ _ Honce) in Hin.
    rewrite Hget in Hin.
    set (c := Z.of_nat
                (length (List.filter
                           (fun n => String.eqb (Notification.type n) k)
                           db))) in *.
    destruct (Z.eqb_spec c 0) as [?|Hne]; [done|].
    injection Hin as <-. split; [done|]. lia. }
  assert (Hkeys : map TypeStats._id (JSMap.values m) = map fst m).
  { unfold JSMap.values. rewrite map_map. apply map_ext_in.
    intros [k g] Hin. by destruct (Hentry k g Hin) as [-> _]. }
  eexists _, _, _. split; [reflexivity|]. split; [done|].
  split; [by rewrite Hkeys|]. split; [|split; [|split; [|split]]].
  - intros t. rewrite Hkeys. split.
    + intros ([k g] & <- & Hin)%in_map_iff.
      destruct (Hentry k g Hin) as [_ Hpos]. cbn [fst].
      destruct (List.filter
                  (fun n => String.eqb (Notification.type n) k) db)
        as [|n l] eqn:E; [simpl in Hpos; lia|].
      assert (Hn : In n (List.filter
                           (fun n => String.eqb (Notification.type n) k) db)).
      { rewrite E. by left. }
      apply filter_In in Hn as [Hn Ht]. apply String.eqb_eq in Ht. eauto.
    + intros (n & Hn & <-).
      pose proof (Hget (Notification.type n)) as G.
      set (c := Z.of_nat
                  (length (List.filter
                             (fun x => String.eqb (Notification.type x)
                                                  (Notification.type n))
                             db))) in *.
      destruct (Z.eqb_spec c 0) as [E|_].
      * exfalso. subst c.
        assert (Hin : In n (List.filter
                              (fun x => String.eqb (Notification.type x)
                                                   (Notification.type n))
                              db)).
        { apply filter_In. split; [done|]. apply String.eqb_refl. }
        destruct (List.filter
                    (fun x => String.eqb (Notification.type x)
                                         (Notification.type n)) db);
          [done|]. simpl in E. lia.
      * apply get_in in G. change (Notification.type n)
          with (fst (Notification.type n,
                     TypeStats.mk (Notification.type n)
                       (Z.of_nat
                          (length (List.filter
                                     (fun x =>
                                        String.eqb (Notification.type x)
                                                   (Notification.type n))
                                     db)))
                       (Z.of_nat
                          (length (List.filter
                                     (fun x =>
                                        String.eqb (Notification.type x)
                                                   (Notification.type n)
                                        && Notifications.unreadByAll x)
                                     db))))) at 1.
        by apply in_map.
  - apply Forall_forall. intros g Hg. apply list_elem_of_In in Hg.
    unfold JSMap.values in Hg. apply in_map_iff in Hg as ([k g'] & <- & Hin).
    cbn [snd]. destruct (Hentry k g' Hin) as [-> Hpos].
    cbn [TypeStats._id TypeStats.count TypeStats.unread].
    split; [done|]. split; [done|]. split; [|done]. split; [lia|].
    apply inj_le. clear. induction db as [|x db IH]; [done|].
    cbn [List.filter]. destruct (String.eqb _ _); cbn [andb]; [|done].
    destruct (Notifications.unreadByAll x); cbn [length]; lia.
  - done.
  - done.
  - intros reader. eexists. split; [reflexivity|]. apply inj_le.
    clear. induction db as [|x db IH]; [done|]. cbn [List.filter].
    unfold Notifications.unreadByAll at 1, Notifications.unreadBy at 1.
    destruct (Notification.recipients x); cbn [existsb negb length].
    + lia.
    + destruct (negb _); cbn [length]; lia.
Qed.

(** X25 for [sample_notifications]: one general and two course
    notifications, one of which has been read. *)
Lemma notification_stats_add_up_witness :
  Notifications.stats (User.mk "a1" "admin") None sample_notifications
  = NotificationStats 3 2
      [TypeStats.mk "general" 1 1; TypeStats.mk "course" 2 1].
Proof.
  destruct (notification_stats_add_up (User.mk "a1" "admin")
              sample_notifications)
    as [(total & totalUnread & byType & E & _) _]; [reflexivity|].
  rewrite E. vm_compute in E. by injection E as <- <- <-.
Defined.
